(** * GRVT client library: WebSocket subscription manager, message router
      and HTTP cookie session

    A shallow embedding of
    - [src/transport/websocket/_eventTarget.ts]  (module [Router]),
    - [src/transport/websocket/_subscriptionManager.ts] (module [Manager]),
    - [src/transport/websocket/mod.ts], constructor and [subscribe]
      (module [Transport]),
    - [src/transport/http/mod.ts] (module [Http]),
    - [src/transport/_base.ts], the responses of the API (module [Base]),
    - the methods of the raw client [GrvtRawClient] (module [RawClient]),
    - [src/config/environment.ts] and [src/config/endpoints.ts] (module
      [Config]), and the choice of the server by the constructors of the
      two transports (module [Connection]),
    followed by the properties of the specification, one theorem each,
    and by further properties of the same code. *)

From Stdlib Require Import List String Ascii ZArith NArith Bool Arith Lia.
From Stdlib Require Import Permutation.
Import ListNotations.
Open Scope string_scope.
Set Warnings "-register-all".

(* ================================================================== *)
(** ** Values produced by [JSON.parse] *)
(* ================================================================== *)

Module Json.

(** A parsed frame.  Numbers are JS doubles: [JNum z] is a number with an
    integral value [z], [JFrac lit] any other number (kept as its literal).
    [JObj] lists the own properties of the parsed object. *)
Inductive json : Type :=
| JNull
| JBool (b : bool)
| JNum (z : Z)
| JFrac (lit : string)
| JStr (s : string)
| JArr (items : list json)
| JObj (fields : list (string * json)).

(** The results [typeof] can give on a parsed value. *)
Inductive jstype : Type := TObject | TBoolean | TNumber | TString.

Definition jstype_eqb (a b : jstype) : bool :=
  match a, b with
  | TObject, TObject | TBoolean, TBoolean
  | TNumber, TNumber | TString, TString => true
  | _, _ => false
  end.

Definition typeof (v : json) : jstype :=
  match v with
  | JNull => TObject
  | JBool _ => TBoolean
  | JNum _ | JFrac _ => TNumber
  | JStr _ => TString
  | JArr _ | JObj _ => TObject
  end.

Definition is_null (v : json) : bool :=
  match v with JNull => true | _ => false end.

Definition isArray (v : json) : bool :=
  match v with JArr _ => true | _ => false end.

Fixpoint assoc {A : Type} (k : string) (l : list (string * A)) : option A :=
  match l with
  | [] => None
  | (k', v) :: tl => if String.eqb k k' then Some v else assoc k tl
  end.

(** [msg.k]: [None] is [undefined].  The router reads only named
    properties, which arrays and primitives do not have. *)
Definition get (k : string) (msg : json) : option json :=
  match msg with
  | JObj fields => assoc k fields
  | _ => None
  end.

(** [k in msg], for an object or array [msg] and the property names the
    router asks for ([code], [message], [method], [stream], [feed]). *)
Definition has (k : string) (msg : json) : bool :=
  match get k msg with Some _ => true | None => false end.

(** [v === "s"] *)
Definition is_string (s : string) (v : option json) : bool :=
  match v with
  | Some (JStr s') => String.eqb s' s
  | _ => false
  end.

Definition is_type (t : jstype) (v : option json) : bool :=
  match v with Some x => jstype_eqb (typeof x) t | None => false end.

End Json.

(* ================================================================== *)
(** ** The message router ([GrvtEventTarget]) *)
(* ================================================================== *)

Module Router.
Import Json.

(** [isSubscriptionResponse].  A property of a parsed object is never
    [undefined], so [typeof msg.feed !== "undefined"] is [has "feed"]. *)
Definition isSubscriptionResponse (msg : json) : bool :=
  jstype_eqb (typeof msg) TObject &&
  negb (is_null msg) &&
  (has "method" msg || has "stream" msg) &&
  negb (has "feed" msg &&
        (match get "feed" msg with Some _ => true | None => false end) &&
        negb (match get "feed" msg with
              | Some f => isArray f
              | None => false
              end)).

(** [isDataMessage] *)
Definition isDataMessage (msg : json) : bool :=
  jstype_eqb (typeof msg) TObject &&
  negb (is_null msg) &&
  has "stream" msg &&
  has "feed" msg &&
  is_type TString (get "stream" msg).

(** [isErrorMessage] *)
Definition isErrorMessage (msg : json) : bool :=
  jstype_eqb (typeof msg) TObject &&
  negb (is_null msg) &&
  has "code" msg &&
  has "message" msg &&
  is_type TNumber (get "code" msg).

(** The pong test of the message listener:
    [msg === "pong" || (typeof msg === "object" && msg?.type === "pong")]. *)
Definition isPong (msg : json) : bool :=
  is_string "pong" (Some msg) ||
  (jstype_eqb (typeof msg) TObject && is_string "pong" (get "type" msg)).

(** [s.startsWith("v1.")] *)
Definition startsWith_v1 (s : string) : bool :=
  match s with
  | String "v" (String "1" (String "." _)) => true
  | _ => false
  end.

(** [s.replace(/^v1\./, "")] *)
Definition strip_v1 (s : string) : string :=
  match s with
  | String "v" (String "1" (String "." rest)) => rest
  | _ => s
  end.

(** The event the listener dispatches: its type and its [detail]
    ([None] is [undefined]). *)
Record Dispatch : Type := { ev_type : string; ev_detail : option json }.

(** The stream of a data message (a string, by [isDataMessage]). *)
Definition stream_of (msg : json) : string :=
  match get "stream" msg with Some (JStr s) => s | _ => "" end.

(** The body of the socket's [message] listener.  [data] is the result
    of [JSON.parse(event.data)], [None] when it throws (the [catch]
    swallows it).  The result is the event dispatched, if any. *)
Definition onMessage (data : option json) : option Dispatch :=
  match data with
  | None => None
  | Some msg =>
      if isPong msg then
        Some {| ev_type := "pong"; ev_detail := None |}
      else if isErrorMessage msg then
        Some {| ev_type := "error"; ev_detail := Some msg |}
      else if isSubscriptionResponse msg && negb (isDataMessage msg) then
        Some {| ev_type := "subscriptionResponse"; ev_detail := Some msg |}
      else if isDataMessage msg then
        Some {| ev_type := strip_v1 (stream_of msg); ev_detail := Some msg |}
      else None
  end.

End Router.

(* ================================================================== *)
(** ** JS [Map]: insertion-ordered association lists *)
(* ================================================================== *)

Module JsMap.
Section Map.
Context {K V : Type} (eqb : K -> K -> bool).

Fixpoint get (k : K) (m : list (K * V)) : option V :=
  match m with
  | [] => None
  | (k', v) :: tl => if eqb k k' then Some v else get k tl
  end.

Definition has (k : K) (m : list (K * V)) : bool :=
  match get k m with Some _ => true | None => false end.

(** [m.set(k, v)]: an existing key keeps its place, a new one goes last. *)
Fixpoint set (k : K) (v : V) (m : list (K * V)) : list (K * V) :=
  match m with
  | [] => [(k, v)]
  | (k', v') :: tl =>
      if eqb k k' then (k, v) :: tl else (k', v') :: set k v tl
  end.

Fixpoint delete (k : K) (m : list (K * V)) : list (K * V) :=
  match m with
  | [] => []
  | (k', v') :: tl =>
      if eqb k k' then tl else (k', v') :: delete k tl
  end.

(** In-place mutation of the object stored under [k]. *)
Fixpoint modify (k : K) (f : V -> V) (m : list (K * V)) : list (K * V) :=
  match m with
  | [] => []
  | (k', v') :: tl =>
      if eqb k k' then (k', f v') :: tl else (k', v') :: modify k f tl
  end.

Definition keys (m : list (K * V)) : list K := map fst m.
End Map.
End JsMap.

(* ================================================================== *)
(** ** The subscription manager ([WebSocketSubscriptionManager]) *)
(* ================================================================== *)

Module Manager.
Import Json Router.

(** A caller's callback, by reference. *)
Definition Listener : Type := nat.

(** The [listenerWrapper] closure made by one [subscribe] call. *)
Record Wrapper : Type := { w_uid : nat; w_listener : Listener }.

(** The [unsubscribe] closure: the variables it captured. *)
Record Unsubscribe : Type := {
  u_stream : string;
  u_feed : string;
  u_id : string;
  u_listener : Listener;
  u_wrapper : Wrapper
}.

(** How an entry's [promise] was derived from the request promise:
    [p.finally(..)] in [subscribe], [p.catch(..).finally(..)] in
    [_handleOpen]. *)
Inductive Chain : Type := Initial | Replayed.

(** [SubscriptionState] *)
Record SubscriptionState : Type := {
  stream : string;
  feed : string;
  listeners : list (Listener * Unsubscribe);
  promise : nat * Chain;
  promiseFinished : bool;
  failureController : nat
}.

Inductive Method : Type := MSubscribe | MUnsubscribe.

(** The object given to [JSON.stringify] before [socket.send]. *)
Record Frame : Type := {
  request_id : N;
  f_stream : string;
  f_feed : list string;
  method : Method;
  is_full : option bool
}.

(** [new WebSocketRequestError(message)], by the argument it was given. *)
Inductive WebSocketRequestError : Type :=
| WsError (message : option json).

Definition timed_out : WebSocketRequestError :=
  WsError (Some (JStr "Subscription request timed out")).
Definition connection_closed : WebSocketRequestError :=
  WsError (Some (JStr "WebSocket connection closed")).

(** State of a promise; a resolved value of [None] is [undefined]. *)
Inductive Settled : Type :=
| Pending
| Resolved (v : option json)
| Rejected (e : WebSocketRequestError).

(** The callbacks the manager chains on a request promise. *)
Inductive Reaction : Type :=
| FinallyMark (id : string)
    (* .finally(() => { const sub = this._subscriptions.get(id);
                        if (sub) sub.promiseFinished = true; }) *)
| CatchAbort (ctrl : nat)
    (* .catch((error) => subscription.failureController.abort(error)) *).

Record Promise : Type := { p_state : Settled; p_reactions : list Reaction }.

(** A [setTimeout] callback of [_sendSubscribe] and when it is due. *)
Record Timer : Type := { tm_due : Z; tm_requestId : N; tm_reject : nat }.

(** A [subscribe] call suspended at [await subscription.promise], with
    the values it returns when the promise resolves. *)
Record Call : Type := {
  c_promise : nat * Chain;
  c_unsubscribe : Unsubscribe;
  c_signal : nat
}.

(** The manager with the socket and event target it is bound to.
    - [isOpen]: [socket.readyState === WebSocket.OPEN];
    - [onOpen]: the one-shot [open] listeners of [_sendSubscribe], by the
      message each will send;  [sent]: frames the manager gave to
      [socket.send] (the transport's keep-alive pings are not recorded);
    - [evListeners]: listener wrappers on the event target, by event type;
      [invoked]: calls made to callers' listeners, with their argument;
    - [_requestId]: a JS number, which counts exactly below 2^53;
    - [_pendingRequests]: under each id, the promise whose [resolve] and
      [reject] the entry holds;
    - [promises], [timers], [clock], [aborted], [uid], [calls]: the
      promises, timers, abort controllers and closures of the runtime. *)
Record State : Type := {
  resubscribe : bool;
  isOpen : bool;
  onOpen : list Frame;
  sent : list Frame;
  evListeners : list (string * Wrapper);
  invoked : list (Listener * option json);
  _subscriptions : list (string * SubscriptionState);
  _requestId : N;
  _pendingRequests : list (N * nat);
  promises : list (nat * Promise);
  timers : list Timer;
  clock : Z;
  aborted : list (nat * WebSocketRequestError);
  uid : nat;
  calls : list Call
}.

(** Field updates. *)
Definition set_resubscribe (v : bool) (s : State) : State :=
  Build_State v (isOpen s) (onOpen s) (sent s) (evListeners s) (invoked s)
    (_subscriptions s) (_requestId s) (_pendingRequests s) (promises s)
    (timers s) (clock s) (aborted s) (uid s) (calls s).
Definition set_isOpen (v : bool) (s : State) : State :=
  Build_State (resubscribe s) v (onOpen s) (sent s) (evListeners s)
    (invoked s) (_subscriptions s) (_requestId s) (_pendingRequests s)
    (promises s) (timers s) (clock s) (aborted s) (uid s) (calls s).
Definition set_onOpen (v : list Frame) (s : State) : State :=
  Build_State (resubscribe s) (isOpen s) v (sent s) (evListeners s)
    (invoked s) (_subscriptions s) (_requestId s) (_pendingRequests s)
    (promises s) (timers s) (clock s) (aborted s) (uid s) (calls s).
Definition set_sent (v : list Frame) (s : State) : State :=
  Build_State (resubscribe s) (isOpen s) (onOpen s) v (evListeners s)
    (invoked s) (_subscriptions s) (_requestId s) (_pendingRequests s)
    (promises s) (timers s) (clock s) (aborted s) (uid s) (calls s).
Definition set_evListeners (v : list (string * Wrapper)) (s : State) : State :=
  Build_State (resubscribe s) (isOpen s) (onOpen s) (sent s) v (invoked s)
    (_subscriptions s) (_requestId s) (_pendingRequests s) (promises s)
    (timers s) (clock s) (aborted s) (uid s) (calls s).
Definition set_invoked (v : list (Listener * option json)) (s : State) : State :=
  Build_State (resubscribe s) (isOpen s) (onOpen s) (sent s) (evListeners s)
    v (_subscriptions s) (_requestId s) (_pendingRequests s) (promises s)
    (timers s) (clock s) (aborted s) (uid s) (calls s).
Definition set__subscriptions (v : list (string * SubscriptionState)) (s : State) : State :=
  Build_State (resubscribe s) (isOpen s) (onOpen s) (sent s) (evListeners s)
    (invoked s) v (_requestId s) (_pendingRequests s) (promises s)
    (timers s) (clock s) (aborted s) (uid s) (calls s).
Definition set__requestId (v : N) (s : State) : State :=
  Build_State (resubscribe s) (isOpen s) (onOpen s) (sent s) (evListeners s)
    (invoked s) (_subscriptions s) v (_pendingRequests s) (promises s)
    (timers s) (clock s) (aborted s) (uid s) (calls s).
Definition set__pendingRequests (v : list (N * nat)) (s : State) : State :=
  Build_State (resubscribe s) (isOpen s) (onOpen s) (sent s) (evListeners s)
    (invoked s) (_subscriptions s) (_requestId s) v (promises s) (timers s)
    (clock s) (aborted s) (uid s) (calls s).
Definition set_promises (v : list (nat * Promise)) (s : State) : State :=
  Build_State (resubscribe s) (isOpen s) (onOpen s) (sent s) (evListeners s)
    (invoked s) (_subscriptions s) (_requestId s) (_pendingRequests s) v
    (timers s) (clock s) (aborted s) (uid s) (calls s).
Definition set_timers (v : list Timer) (s : State) : State :=
  Build_State (resubscribe s) (isOpen s) (onOpen s) (sent s) (evListeners s)
    (invoked s) (_subscriptions s) (_requestId s) (_pendingRequests s)
    (promises s) v (clock s) (aborted s) (uid s) (calls s).
Definition set_clock (v : Z) (s : State) : State :=
  Build_State (resubscribe s) (isOpen s) (onOpen s) (sent s) (evListeners s)
    (invoked s) (_subscriptions s) (_requestId s) (_pendingRequests s)
    (promises s) (timers s) v (aborted s) (uid s) (calls s).
Definition set_aborted (v : list (nat * WebSocketRequestError)) (s : State) : State :=
  Build_State (resubscribe s) (isOpen s) (onOpen s) (sent s) (evListeners s)
    (invoked s) (_subscriptions s) (_requestId s) (_pendingRequests s)
    (promises s) (timers s) (clock s) v (uid s) (calls s).
Definition set_uid (v : nat) (s : State) : State :=
  Build_State (resubscribe s) (isOpen s) (onOpen s) (sent s) (evListeners s)
    (invoked s) (_subscriptions s) (_requestId s) (_pendingRequests s)
    (promises s) (timers s) (clock s) (aborted s) v (calls s).
Definition set_calls (v : list Call) (s : State) : State :=
  Build_State (resubscribe s) (isOpen s) (onOpen s) (sent s) (evListeners s)
    (invoked s) (_subscriptions s) (_requestId s) (_pendingRequests s)
    (promises s) (timers s) (clock s) (aborted s) (uid s) v.

(** *** Runtime: closures, promises, abort controllers *)

(** A fresh identity for a closure, promise or controller. *)
Definition fresh (s : State) : nat * State := (uid s, set_uid (S (uid s)) s).

(** [controller.abort(reason)]: only the first call has an effect. *)
Definition abort (ctrl : nat) (e : WebSocketRequestError) (s : State) : State :=
  if JsMap.has Nat.eqb ctrl (aborted s) then s
  else set_aborted (aborted s ++ [(ctrl, e)]) s.

Definition mark_finished (sub : SubscriptionState) : SubscriptionState :=
  {| stream := stream sub; feed := feed sub; listeners := listeners sub;
     promise := promise sub; promiseFinished := true;
     failureController := failureController sub |}.

(** One reaction of a promise that settled as [st].  Reactions run in the
    microtask checkpoint that follows the handler which settled the
    promise; no handler reads or changes [_subscriptions] between a settle
    and that checkpoint, so the reaction is applied at the settle. *)
Definition run_reaction (st : Settled) (r : Reaction) (s : State) : State :=
  match r with
  | FinallyMark id =>
      match JsMap.get String.eqb id (_subscriptions s) with
      | Some _ =>
          set__subscriptions
            (JsMap.modify String.eqb id mark_finished (_subscriptions s)) s
      | None => s
      end
  | CatchAbort ctrl =>
      match st with
      | Rejected e => abort ctrl e s
      | _ => s
      end
  end.

(** [resolve]/[reject] of promise [p]: no effect once it is settled. *)
Definition settle (p : nat) (st : Settled) (s : State) : State :=
  match JsMap.get Nat.eqb p (promises s) with
  | Some {| p_state := Pending; p_reactions := rs |} =>
      let s1 :=
        set_promises
          (JsMap.set Nat.eqb p {| p_state := st; p_reactions := rs |}
             (promises s)) s in
      fold_left (fun acc r => run_reaction st r acc) rs s1
  | _ => s
  end.

Definition resolve (p : nat) (v : option json) : State -> State :=
  settle p (Resolved v).
Definition reject (p : nat) (e : WebSocketRequestError) : State -> State :=
  settle p (Rejected e).

(** Chain a reaction on promise [p]. *)
Definition then_ (p : nat) (r : Reaction) (s : State) : State :=
  set_promises
    (JsMap.modify Nat.eqb p
       (fun pr => {| p_state := p_state pr;
                     p_reactions := p_reactions pr ++ [r] |})
       (promises s)) s.

(** State of the request promise [p]. *)
Definition request_state (s : State) (p : nat) : Settled :=
  match JsMap.get Nat.eqb p (promises s) with
  | Some pr => p_state pr
  | None => Pending
  end.

(** State of an entry's [promise]: [finally] passes the outcome through,
    the [catch] of a replay turns a rejection into [undefined]. *)
Definition promise_state (s : State) (pc : nat * Chain) : Settled :=
  match snd pc, request_state s (fst pc) with
  | Replayed, Rejected _ => Resolved None
  | _, st => st
  end.

(** *** Event target *)

Definition addEventListener (type : string) (w : Wrapper) (s : State) : State :=
  set_evListeners (evListeners s ++ [(type, w)]) s.

Fixpoint remove_listener (type : string) (w : nat)
    (l : list (string * Wrapper)) : list (string * Wrapper) :=
  match l with
  | [] => []
  | (t, w') :: tl =>
      if String.eqb type t && Nat.eqb w (w_uid w') then tl
      else (t, w') :: remove_listener type w tl
  end.

Definition removeEventListener (type : string) (w : Wrapper) (s : State)
    : State :=
  set_evListeners (remove_listener type (w_uid w) (evListeners s)) s.

(** *** The manager's methods *)

(** [_normalizeStreamName] *)
Definition _normalizeStreamName (stream : string) : string :=
  if startsWith_v1 stream then stream else "v1." ++ stream.

Definition socket_send (message : Frame) (s : State) : State :=
  set_sent (sent s ++ [message]) s.

(** [_sendSubscribe]: the state after the call and the promise returned. *)
Definition _sendSubscribe (stream feed : string) (s : State) : State * nat :=
  let requestId := (_requestId s + 1)%N in
  let s := set__requestId requestId s in
  let normalizedStream := _normalizeStreamName stream in
  let '(p, s) := fresh s in
  let s :=
    set_promises
      (promises s ++ [(p, {| p_state := Pending; p_reactions := [] |})]) s in
  let s :=
    set__pendingRequests
      (JsMap.set N.eqb requestId p (_pendingRequests s)) s in
  let message :=
    {| request_id := requestId; f_stream := normalizedStream;
       f_feed := [feed]; method := MSubscribe; is_full := Some true |} in
  let s :=
    if isOpen s then socket_send message s
    else set_onOpen (onOpen s ++ [message]) s in
  let s :=
    set_timers
      (timers s ++
       [{| tm_due := (clock s + 10000)%Z; tm_requestId := requestId;
           tm_reject := p |}]) s in
  (s, p).

(** [_sendUnsubscribe] *)
Definition _sendUnsubscribe (stream feed : string) (s : State) : State :=
  let requestId := (_requestId s + 1)%N in
  let s := set__requestId requestId s in
  let normalizedStream := _normalizeStreamName stream in
  let message :=
    {| request_id := requestId; f_stream := normalizedStream;
       f_feed := [feed]; method := MUnsubscribe; is_full := None |} in
  socket_send message s.

(** The composite key of [subscribe]: [`${stream}:${feed}`]. *)
Definition subscription_id (stream feed : string) : string :=
  stream ++ ":" ++ feed.

Definition set_listeners (ls : list (Listener * Unsubscribe))
    (sub : SubscriptionState) : SubscriptionState :=
  {| stream := stream sub; feed := feed sub; listeners := ls;
     promise := promise sub; promiseFinished := promiseFinished sub;
     failureController := failureController sub |}.

(** [subscribe], up to its [await]: the suspended call is appended to
    [calls]. *)
Definition subscribe (stream feed : string) (listener : Listener)
    (s : State) : State :=
  let id := subscription_id stream feed in
  let '(s, subscription) :=
    match JsMap.get String.eqb id (_subscriptions s) with
    | Some sub => (s, sub)
    | None =>
        let '(s, p) := _sendSubscribe stream feed s in
        let s := then_ p (FinallyMark id) s in
        let '(ctrl, s) := fresh s in
        let sub :=
          {| stream := stream; feed := feed; listeners := [];
             promise := (p, Initial); promiseFinished := false;
             failureController := ctrl |} in
        (set__subscriptions
           (JsMap.set String.eqb id sub (_subscriptions s)) s, sub)
    end in
  let '(w, s) := fresh s in
  let listenerWrapper := {| w_uid := w; w_listener := listener |} in
  let '(s, unsubscribe) :=
    match JsMap.get Nat.eqb listener (listeners subscription) with
    | Some u => (s, u)
    | None =>
        let u :=
          {| u_stream := stream; u_feed := feed; u_id := id;
             u_listener := listener; u_wrapper := listenerWrapper |} in
        let s := addEventListener stream listenerWrapper s in
        (set__subscriptions
           (JsMap.modify String.eqb id
              (fun sub =>
                 set_listeners
                   (JsMap.set Nat.eqb listener u (listeners sub)) sub)
              (_subscriptions s)) s, u)
    end in
  set_calls
    (calls s ++
     [{| c_promise := promise subscription; c_unsubscribe := unsubscribe;
         c_signal := failureController subscription |}]) s.

(** The body of an [unsubscribe] closure ([_sendUnsubscribe] does all its
    work before its only [await]). *)
Definition run_unsubscribe (u : Unsubscribe) (s : State) : State :=
  let s := removeEventListener (u_stream u) (u_wrapper u) s in
  match JsMap.get String.eqb (u_id u) (_subscriptions s) with
  | None => s
  | Some sub =>
      let ls := JsMap.delete Nat.eqb (u_listener u) (listeners sub) in
      let s :=
        set__subscriptions
          (JsMap.modify String.eqb (u_id u) (set_listeners ls)
             (_subscriptions s)) s in
      if Nat.eqb (List.length ls) 0 then
        let s :=
          set__subscriptions
            (JsMap.delete String.eqb (u_id u) (_subscriptions s)) s in
        if isOpen s then _sendUnsubscribe (u_stream u) (u_feed u) s else s
      else s
  end.

(** One iteration of the loop of [_handleOpen]. *)
Definition replay (entry : string * SubscriptionState) (s : State) : State :=
  let '(id, subscription) := entry in
  if promiseFinished subscription then
    let '(s, p) := _sendSubscribe (stream subscription) (feed subscription) s in
    let s := then_ p (CatchAbort (failureController subscription)) s in
    let s := then_ p (FinallyMark id) s in
    set__subscriptions
      (JsMap.modify String.eqb id
         (fun sub =>
            {| stream := stream sub; feed := feed sub;
               listeners := listeners sub; promise := (p, Replayed);
               promiseFinished := false;
               failureController := failureController sub |})
         (_subscriptions s)) s
  else s.

(** [_handleOpen].  The loop body neither adds nor removes entries and
    changes only the entry it visits, so the entries are those at entry. *)
Definition _handleOpen (s : State) : State :=
  if resubscribe s then
    fold_left (fun acc entry => replay entry acc) (_subscriptions s) s
  else s.

(** [_handleClose].  Each [unsubscribe] deletes only the listener being
    visited, and the entry being visited once it is empty, so both loops
    visit the entries and listeners present at entry. *)
Definition _handleClose (s : State) : State :=
  let s :=
    if negb (resubscribe s) then
      let s :=
        fold_left
          (fun acc entry =>
             fold_left (fun acc' lu => run_unsubscribe (snd lu) acc')
               (listeners (snd entry)) acc)
          (_subscriptions s) s in
      set__subscriptions [] s
    else s in
  let s :=
    fold_left (fun acc kp => reject (snd kp) connection_closed acc)
      (_pendingRequests s) s in
  set__pendingRequests [] s.

(** [this._pendingRequests.get(msg.request_id)]: a [Map] key is found
    only by the same number. *)
Definition pending_key (rid : json) : option N :=
  match rid with
  | JNum z => if (0 <=? z)%Z then Some (Z.to_N z) else None
  | _ => None
  end.

Definition pending_get (rid : json) (s : State) : option (N * nat) :=
  match pending_key rid with
  | Some k =>
      match JsMap.get N.eqb k (_pendingRequests s) with
      | Some p => Some (k, p)
      | None => None
      end
  | None => None
  end.

(** The manager's [subscriptionResponse] listener. *)
Definition onSubscriptionResponse (detail : option json) (s : State) : State :=
  match detail with
  | Some response =>
      match get "request_id" response with
      | Some rid =>
          match pending_get rid s with
          | Some (k, p) =>
              let s := resolve p (Some response) s in
              set__pendingRequests
                (JsMap.delete N.eqb k (_pendingRequests s)) s
          | None => s
          end
      | None => s
      end
  | None => s
  end.

(** The manager's [error] listener. *)
Definition onError (detail : option json) (s : State) : State :=
  match detail with
  | Some error =>
      match get "request_id" error with
      | Some rid =>
          match pending_get rid s with
          | Some (k, p) =>
              let s := reject p (WsError (get "message" error)) s in
              set__pendingRequests
                (JsMap.delete N.eqb k (_pendingRequests s)) s
          | None => s
          end
      | None => s
      end
  | None => s
  end.

(** A listener wrapper called with an event: it reads
    [event.detail.feed], which throws when [detail] is [undefined], and
    passes it to the caller's listener.  Callers' listeners are taken to
    do nothing to the manager. *)
Definition call_wrapper (detail : option json) (w : Wrapper) (s : State)
    : State :=
  match detail with
  | Some msg => set_invoked (invoked s ++ [(w_listener w, get "feed" msg)]) s
  | None => s
  end.

(** [dispatchEvent]: the manager's own listeners were added first, in
    its constructor; the wrappers follow in the order they were added. *)
Definition dispatchEvent (d : Dispatch) (s : State) : State :=
  let s :=
    if String.eqb (ev_type d) "subscriptionResponse"
    then onSubscriptionResponse (ev_detail d) s else s in
  let s :=
    if String.eqb (ev_type d) "error" then onError (ev_detail d) s else s in
  fold_left
    (fun acc tw =>
       if String.eqb (fst tw) (ev_type d)
       then call_wrapper (ev_detail d) (snd tw) acc else acc)
    (evListeners s) s.

(** *** Timers *)

(** The callback [_sendSubscribe] gives to [setTimeout]. *)
Definition timer_callback (t : Timer) (s : State) : State :=
  if JsMap.has N.eqb (tm_requestId t) (_pendingRequests s) then
    let s :=
      set__pendingRequests
        (JsMap.delete N.eqb (tm_requestId t) (_pendingRequests s)) s in
    reject (tm_reject t) timed_out s
  else s.

Definition is_due (now : Z) (t : Timer) : bool := (tm_due t <=? now)%Z.

(** Time passes by [ms]: the timers then due run, oldest first (all have
    the same delay, so they are due in the order they were set). *)
Definition advance (ms : N) (s : State) : State :=
  let now := (clock s + Z.of_N ms)%Z in
  let due := filter (is_due now) (timers s) in
  let s :=
    set_timers (filter (fun t => negb (is_due now t)) (timers s))
      (set_clock now s) in
  fold_left (fun acc t => timer_callback t acc) due s.

(** *** Events of the environment and calls of the user *)

Inductive Event : Type :=
| ESubscribe (stream feed : string) (listener : Listener)
| EUnsubscribe (call : nat)
    (* the [unsubscribe] of the handle returned by the [call]-th
       [subscribe], once that call has returned *)
| EOpen
| EClose
    (* a [close] or [error] event of the socket, which has left the OPEN
       state when either is delivered *)
| EMessage (data : option json)
| EAdvance (ms : N)
| ESetResubscribe (value : bool).

(** The socket's [open] event: [_handleOpen] was registered by the
    constructor, the one-shot listeners of [_sendSubscribe] after it. *)
Definition socket_open (s : State) : State :=
  let s := set_isOpen true s in
  let s := _handleOpen s in
  set_onOpen [] (set_sent (sent s ++ onOpen s) s).

Definition socket_close (s : State) : State :=
  _handleClose (set_isOpen false s).

Definition socket_message (data : option json) (s : State) : State :=
  match onMessage data with
  | Some d => dispatchEvent d s
  | None => s
  end.

Definition call_unsubscribe (n : nat) (s : State) : State :=
  match nth_error (calls s) n with
  | Some c =>
      match promise_state s (c_promise c) with
      | Resolved _ => run_unsubscribe (c_unsubscribe c) s
      | _ => s
      end
  | None => s
  end.

Definition step (s : State) (e : Event) : State :=
  match e with
  | ESubscribe stream feed listener => subscribe stream feed listener s
  | EUnsubscribe n => call_unsubscribe n s
  | EOpen => socket_open s
  | EClose => socket_close s
  | EMessage data => socket_message data s
  | EAdvance ms => advance ms s
  | ESetResubscribe value => set_resubscribe value s
  end.

Definition run (s : State) (es : list Event) : State := fold_left step es s.

(** [new WebSocketSubscriptionManager(socket, events, resubscribe)] on a
    socket that is still connecting. *)
Definition new (resub : bool) : State :=
  {| resubscribe := resub; isOpen := false; onOpen := []; sent := [];
     evListeners := []; invoked := []; _subscriptions := [];
     _requestId := 0%N; _pendingRequests := []; promises := [];
     timers := []; clock := 0%Z; aborted := []; uid := 0; calls := [] |}.

(** What a [subscribe] call has returned or thrown, if it has. *)
Inductive Outcome : Type :=
| Suspended
| Returned (unsubscribe : Unsubscribe) (failureSignal : nat)
| Threw (e : WebSocketRequestError).

Definition outcome (s : State) (c : Call) : Outcome :=
  match promise_state s (c_promise c) with
  | Pending => Suspended
  | Resolved _ => Returned (c_unsubscribe c) (c_signal c)
  | Rejected e => Threw e
  end.

End Manager.

(* ================================================================== *)
(** ** The WebSocket transport ([WebSocketTransport]) *)
(* ================================================================== *)

Module Transport.
Import Manager.

(** The options the constructor reads besides those that choose the
    endpoint URL ([env], [endpointType], [url]). *)
Record WebSocketTransportOptions : Type := {
  opt_timeout : option Z;
  opt_resubscribe : option bool;
  opt_debug : option bool
}.

(** [a ?? b] *)
Definition nullish {A : Type} (a : option A) (b : A) : A :=
  match a with Some x => x | None => b end.

Record WebSocketTransport : Type := {
  timeout : Z;
  _debug : bool;
  _subscriptionManager : State
}.

(** The constructor; [options] is [None] when it is called without. *)
Definition new (options : option WebSocketTransportOptions)
    : WebSocketTransport :=
  {| timeout :=
       nullish (match options with Some o => opt_timeout o | None => None end)
         10000%Z;
     _debug :=
       nullish (match options with Some o => opt_debug o | None => None end)
         false;
     _subscriptionManager :=
       Manager.new
         (nullish
            (match options with Some o => opt_resubscribe o | None => None end)
            true) |}.

(** What can happen to a transport: an event of its socket or a call that
    reaches the manager ([subscribe], the [resubscribe] setter, a handle's
    [unsubscribe]), or an assignment to the public [timeout] field. *)
Inductive Action : Type :=
| Do (e : Event)
| SetTimeout (ms : Z).

Definition act (t : WebSocketTransport) (a : Action) : WebSocketTransport :=
  match a with
  | Do e =>
      {| timeout := timeout t; _debug := _debug t;
         _subscriptionManager := step (_subscriptionManager t) e |}
  | SetTimeout ms =>
      {| timeout := ms; _debug := _debug t;
         _subscriptionManager := _subscriptionManager t |}
  end.

Definition run (t : WebSocketTransport) (l : list Action)
    : WebSocketTransport :=
  fold_left act l t.

(** The manager's events among a list of actions. *)
Fixpoint events (l : list Action) : list Event :=
  match l with
  | [] => []
  | Do e :: tl => e :: events tl
  | SetTimeout _ :: tl => events tl
  end.

End Transport.

(* ================================================================== *)
(** ** The HTTP transport ([HttpTransport]) *)
(* ================================================================== *)

Module Http.
Import Json.

(** [GrvtCookie]; [expires] is [None] when [new Date(..).getTime()] gave
    [NaN]. *)
Record GrvtCookie : Type := { gravity : string; expires : option Z }.

Inductive GrvtEndpointType : Type := EDGE | TRADE_DATA | MARKET_DATA.

(** What the two regular expressions of [_getCookie] find in a
    [Set-Cookie] header: the value after [gravity=], and the time of the
    date after [expires=]. *)
Record SetCookie : Type := {
  gravityMatch : option string;
  expiresMatch : option (option Z)
}.

(** Result of the [fetch] of the login path: it throws, or gives a
    response with its [ok] flag and its [Set-Cookie] header if it has a
    non-empty one. *)
Inductive LoginFetch : Type :=
| LoginThrows
| LoginResponse (ok : bool) (setCookie : option SetCookie).

(** Result of the [fetch] of the request itself: it throws (network
    failure, abort, timeout), or gives a response: status, [ok], whether
    its content type includes [application/json], its text if it can be
    read, its parsed body if it parses. *)
Inductive RequestFetch : Type :=
| FetchThrows (cause : string)
| FetchResponse (status : Z) (ok : bool) (isJson : bool)
    (text : option string) (body : option json).

(** What one [request] call meets: the clock at the refresh check, the
    login round-trip and the clock after it, the request round-trip. *)
Record World : Type := {
  now_check : Z;
  login : LoginFetch;
  now_login : Z;
  reply : RequestFetch
}.

(** Exceptions. *)
Inductive Thrown : Type :=
| Error (message : string)
| RangeError (message : string)
| HttpRequestError (status : option Z) (body : option string)
    (cause : option Thrown).

(** [e instanceof TransportError] *)
Definition instanceof_TransportError (e : Thrown) : bool :=
  match e with
  | HttpRequestError _ _ _ => true
  | Error _ | RangeError _ => false
  end.

Inductive Result (A : Type) : Type :=
| Ok (a : A)
| Throw (e : Thrown).
Arguments Ok {A} a.
Arguments Throw {A} e.

(** A call to [fetch]. *)
Inductive Fetch : Type :=
| LoginCall (api_key : string)
| RequestCall (endpointType : GrvtEndpointType) (path : string)
    (cookieHeader : option string).

Record HttpTransport : Type := {
  apiKey : option string;
  _cookie : option GrvtCookie
}.

Definition _cookieRefreshBuffer : Z := 5000.

(** [!this.apiKey] *)
Definition no_apiKey (t : HttpTransport) : bool :=
  match apiKey t with
  | None => true
  | Some k => String.eqb k ""
  end.

(** [_shouldRefreshCookie]; a comparison with [NaN] is false. *)
Definition _shouldRefreshCookie (t : HttpTransport) (w : World)
    : Result bool :=
  if no_apiKey t then
    Throw (Error "Attempting to use authenticated API without API key set")
  else
    match _cookie t with
    | None => Ok true
    | Some c =>
        match expires c with
        | Some e => Ok ((e - now_check w) <=? _cookieRefreshBuffer)%Z
        | None => Ok false
        end
    end.

(** [_getCookie]: the cookie obtained, if any, and the calls to [fetch]
    made. *)
Definition _getCookie (t : HttpTransport) (w : World)
    : option GrvtCookie * list Fetch :=
  match apiKey t with
  | None => (None, [])
  | Some k =>
      if String.eqb k "" then (None, [])
      else
        (match login w with
         | LoginThrows => None
         | LoginResponse ok setCookie =>
             if negb ok then None
             else
               match setCookie with
               | None => None
               | Some h =>
                   match gravityMatch h with
                   | None => None
                   | Some g =>
                       Some {| gravity := g;
                               expires :=
                                 match expiresMatch h with
                                 | Some d => d
                                 | None =>
                                     Some (now_login w
                                           + 24 * 60 * 60 * 1000)%Z
                                 end |}
                   end
               end
         end, [LoginCall k])
  end.

(** [new Date(expires).toISOString()]: it throws a [RangeError] when the
    date is invalid.  An expiry is [NaN] or the time of a valid date (it
    comes from [getTime()], or is a day after [Date.now()]). *)
Definition toISOString_throws (expires : option Z) : option Thrown :=
  match expires with
  | Some _ => None
  | None => Some (RangeError "Invalid time value")
  end.

(** [_refreshCookie]: the transport after it, the calls to [fetch] made,
    and whether it threw.  The argument of the [_log] call that follows
    the assignment to [_cookie], [new Date(cookie.expires).toISOString()],
    is evaluated whatever [debug] is. *)
Definition _refreshCookie (t : HttpTransport) (w : World)
    : HttpTransport * list Fetch * Result unit :=
  match _shouldRefreshCookie t w with
  | Throw e => (t, [], Throw e)
  | Ok false => (t, [], Ok tt)
  | Ok true =>
      let '(cookie, calls) := _getCookie t w in
      match cookie with
      | Some c =>
          let t1 := {| apiKey := apiKey t; _cookie := Some c |} in
          match toISOString_throws (expires c) with
          | Some e => (t1, calls, Throw e)
          | None => (t1, calls, Ok tt)
          end
      | None =>
          (t, calls,
           Throw (HttpRequestError None
                    (Some "Failed to obtain authentication cookie") None))
      end
  end.

(** The [catch] of [request]. *)
Definition rethrow (e : Thrown) : Thrown :=
  if instanceof_TransportError e then e
  else HttpRequestError None None (Some e).

(** [request]: the transport after the call, the calls to [fetch] made in
    order, and the value the returned promise settles with.  The URL is
    taken to be well formed; time-outs and aborts are among the ways
    [fetch] throws. *)
Definition request (t : HttpTransport) (w : World)
    (endpointType : GrvtEndpointType) (path : string) (requiresAuth : bool)
    : HttpTransport * list Fetch * Result json :=
  let '(t1, calls1, refreshed) :=
    if requiresAuth then _refreshCookie t w else (t, [], Ok tt) in
  match refreshed with
  | Throw e => (t1, calls1, Throw (rethrow e))
  | Ok _ =>
      let cookieHeader :=
        if requiresAuth then
          match _cookie t1 with
          | Some c => Some ("gravity=" ++ gravity c)
          | None => None
          end
        else None in
      let calls :=
        (calls1 ++ [RequestCall endpointType path cookieHeader])%list in
      match reply w with
      | FetchThrows cause => (t1, calls, Throw (rethrow (Error cause)))
      | FetchResponse status ok isJson text body =>
          if negb ok || negb isJson then
            (t1, calls,
             Throw (rethrow (HttpRequestError (Some status) text None)))
          else
            match body with
            | Some b => (t1, calls, Ok b)
            | None =>
                (t1, calls,
                 Throw (rethrow (Error "Unexpected token in JSON")))
            end
      end
  end.

(** A sequence of authenticated [request] calls, each awaited before the
    next: the transport at the end and all calls to [fetch]. *)
Fixpoint requests (t : HttpTransport) (ws : list World)
    (endpointType : GrvtEndpointType) (path : string)
    : HttpTransport * list Fetch :=
  match ws with
  | [] => (t, [])
  | w :: tl =>
      let '(t1, calls, _) := request t w endpointType path true in
      let '(t2, calls') := requests t1 tl endpointType path in
      (t2, (calls ++ calls')%list)
  end.

Definition is_login (f : Fetch) : bool :=
  match f with LoginCall _ => true | RequestCall _ _ _ => false end.

(** Number of login round-trips among calls to [fetch]. *)
Definition logins (calls : list Fetch) : nat :=
  List.length (filter is_login calls).

End Http.

(* ================================================================== *)
(** ** Notions used to state the properties of the manager *)
(* ================================================================== *)

Module ManagerViews.
Import Json Router Manager.
#[local] Open Scope list_scope.

(** An entry without its [promise] and [promiseFinished] fields. *)
Definition entry_shape (sub : SubscriptionState)
    : string * string * list (Listener * Unsubscribe) * nat :=
  (stream sub, feed sub, listeners sub, failureController sub).

Definition shape (subs : list (string * SubscriptionState))
    : list (string * (string * string * list (Listener * Unsubscribe) * nat)) :=
  map (fun e => (fst e, entry_shape (snd e))) subs.

Definition promises_of (subs : list (string * SubscriptionState))
    : list (string * (nat * Chain)) :=
  map (fun e => (fst e, promise (snd e))) subs.

(** Everything that settling a promise cannot change. *)
Definition settle_view (s : State) :=
  (resubscribe s, isOpen s, onOpen s, sent s, evListeners s, invoked s,
   _requestId s, _pendingRequests s, timers s, clock s, uid s, calls s,
   map fst (promises s), shape (_subscriptions s),
   promises_of (_subscriptions s)).

(** Everything that inbound frames and timers cannot change. *)
Definition static_view (s : State) :=
  (resubscribe s, isOpen s, onOpen s, sent s, evListeners s, _requestId s,
   uid s, calls s, map fst (promises s), shape (_subscriptions s),
   promises_of (_subscriptions s)).

(** The frames issued so far: sent, or waiting for the socket to open. *)
Definition issued (s : State) : list Frame := sent s ++ onOpen s.

(** Correlation ids and promise identities in use are below the
    counters they are drawn from, and no id is in use twice. *)
Record wf (s : State) : Prop := {
  wf_frames :
    Forall (fun f => (request_id f <= _requestId s)%N) (issued s);
  wf_frames_nodup : NoDup (map request_id (issued s));
  wf_pending :
    Forall (fun kp => (fst kp <= _requestId s)%N /\ snd kp < uid s)
      (_pendingRequests s);
  wf_pending_keys : NoDup (map fst (_pendingRequests s));
  wf_pending_promises : NoDup (map snd (_pendingRequests s));
  wf_timers :
    Forall (fun t => (tm_requestId t <= _requestId s)%N /\ tm_reject t < uid s)
      (timers s);
  wf_promises : Forall (fun p => p < uid s) (map fst (promises s))
}.

(** A timer and a pending request are of the same [_sendSubscribe] call
    when they agree on the correlation id, or on the promise. *)
Definition corr (t : Timer) (pending : list (N * nat)) : Prop :=
  Forall (fun kp => tm_requestId t = fst kp <-> tm_reject t = snd kp) pending.

(** The promise of every pending request exists and is not settled, and
    a timer rejects the promise registered under its own id. *)
Record live (s : State) : Prop := {
  live_pending :
    Forall (fun kp => request_state s (snd kp) = Pending /\
                      In (snd kp) (map fst (promises s)))
      (_pendingRequests s);
  live_timers : Forall (fun t => corr t (_pendingRequests s)) (timers s)
}.

(** Events of the environment: frames, time, the socket opening and
    closing. *)
Definition is_environment (e : Event) : bool :=
  match e with
  | EOpen | EClose | EMessage _ | EAdvance _ => true
  | ESubscribe _ _ _ | EUnsubscribe _ | ESetResubscribe _ => false
  end.

(** The events of the environment that leave entries and listeners as
    they are on a manager whose [resubscribe] is [resub]: all of them
    when it is on, all but the socket closing when it is off. *)
Definition keeps_entries (resub : bool) (e : Event) : bool :=
  is_environment e &&
  (resub || match e with EClose => false | _ => true end).

(** Inbound frames and the passing of time. *)
Definition is_quiet (e : Event) : bool :=
  match e with
  | EMessage _ | EAdvance _ => true
  | _ => false
  end.

(** The calls an event makes to callers' listeners: one for each wrapper
    registered under its type, in order, with [detail.feed]. *)
Definition deliveries (d : Dispatch) (ls : list (string * Wrapper))
    : list (Listener * option json) :=
  match ev_detail d with
  | Some msg =>
      map (fun tw => (w_listener (snd tw), get "feed" msg))
        (filter (fun tw => String.eqb (fst tw) (ev_type d)) ls)
  | None => []
  end.

(** The message [_sendSubscribe] builds. *)
Definition subscribe_frame (requestId : N) (stream feed : string) : Frame :=
  {| request_id := requestId; f_stream := _normalizeStreamName stream;
     f_feed := [feed]; method := MSubscribe; is_full := Some true |}.

(** The message [_sendUnsubscribe] builds. *)
Definition unsubscribe_frame (requestId : N) (stream feed : string) : Frame :=
  {| request_id := requestId; f_stream := _normalizeStreamName stream;
     f_feed := [feed]; method := MUnsubscribe; is_full := None |}.

(** The correlation id a frame carries, if it is one a [Map] key can
    equal. *)
Definition frame_id (data : option json) : option N :=
  match data with
  | Some msg =>
      match get "request_id" msg with
      | Some rid => pending_key rid
      | None => None
      end
  | None => None
  end.

(** The calls a frame makes to callers' listeners. *)
Definition delivered (data : option json) (s : State)
    : list (Listener * option json) :=
  match onMessage data with
  | Some d => deliveries d (evListeners s)
  | None => []
  end.

(** Whether a string contains [":"], the separator of the composite key. *)
Fixpoint has_colon (s : string) : bool :=
  match s with
  | EmptyString => false
  | String c rest => Ascii.eqb c ":" || has_colon rest
  end.

(** A frame the router classifies as a data message. *)
Definition is_data_frame (msg : json) : bool :=
  negb (isPong msg) && negb (isErrorMessage msg) && isDataMessage msg.

(** What an [unsubscribe] closure leaves alone when the socket is not
    open. *)
Definition closed_view (s : State) :=
  (isOpen s, sent s, onOpen s, _requestId s, _pendingRequests s, promises s,
   timers s).

(** The resubscribe flag and the listeners. *)
Definition env_view (s : State) :=
  (resubscribe s, evListeners s, shape (_subscriptions s)).

(** Promises are never removed, and a settled promise keeps its state. *)
Definition grows (s s' : State) : Prop :=
  forall q,
    In q (map fst (promises s)) ->
    In q (map fst (promises s')) /\
    (request_state s q <> Pending ->
     request_state s' q = request_state s q).



(** The manager's part of [dispatchEvent]. *)
Definition manager_listeners (d : Dispatch) (s : State) : State :=
  let s :=
    if String.eqb (ev_type d) "subscriptionResponse"
    then onSubscriptionResponse (ev_detail d) s else s in
  if String.eqb (ev_type d) "error" then onError (ev_detail d) s else s.

(** The two listeners of the manager have the same shape: look the id
    up, settle the promise found, delete the id. *)
Definition settles_found (handler : option json -> State -> State) : Prop :=
  forall (detail : option json) (s : State),
    handler detail s = s \/
    exists k p st,
      frame_id detail = Some k /\
      JsMap.get N.eqb k (_pendingRequests s) = Some p /\
      handler detail s =
        set__pendingRequests
          (JsMap.delete N.eqb k (_pendingRequests (settle p st s)))
          (settle p st s).

(** The closures and the entry a [subscribe] call for a new key makes
    when the next free identity is [n]. *)
Definition new_wrapper (n : nat) (l : Listener) : Wrapper :=
  {| w_uid := S (S n); w_listener := l |}.

Definition new_unsubscribe (n : nat) (stream feed : string) (l : Listener)
    : Unsubscribe :=
  {| u_stream := stream; u_feed := feed;
     u_id := subscription_id stream feed; u_listener := l;
     u_wrapper := new_wrapper n l |}.

Definition new_entry (n : nat) (stream feed : string) (l : Listener)
    : SubscriptionState :=
  {| stream := stream; feed := feed;
     listeners := [(l, new_unsubscribe n stream feed l)];
     promise := (n, Initial); promiseFinished := false;
     failureController := S n |}.

Definition new_call (n : nat) (stream feed : string) (l : Listener) : Call :=
  {| c_promise := (n, Initial);
     c_unsubscribe := new_unsubscribe n stream feed l;
     c_signal := S n |}.

End ManagerViews.

(* ================================================================== *)
(** ** Inputs used in examples *)
(* ================================================================== *)

Module Samples.
Import Json Http.

(** The frame [{"code": 1, "message": 5}]. *)
Definition code_with_numeric_message : json :=
  JObj [("code", JNum 1); ("message", JNum 5)].

(** The message of the error [_shouldRefreshCookie] throws. *)
Definition no_api_key_message : string :=
  "Attempting to use authenticated API without API key set".

(** A login reply that sets the cookie [abc123], and what a request made
    at time [now] meets when logins give cookies that last a minute. *)
Definition login_ok (expiry : Z) : LoginFetch :=
  LoginResponse true
    (Some {| gravityMatch := Some "abc123";
             expiresMatch := Some (Some expiry) |}).

Definition world_at (now : Z) : World :=
  {| now_check := now; login := login_ok (now + 60000); now_login := now;
     reply := FetchResponse 200 true true None (Some JNull) |}.

End Samples.

(* ================================================================== *)
(** ** Responses of the API ([transport/_base.ts]) *)
(* ================================================================== *)

Module Base.
Import Json.






End Base.

(* ================================================================== *)
(** ** The raw client ([GrvtRawClient]) *)
(* ================================================================== *)

Module RawClient.
Import Json Http Base.

(** The methods of the client that send a request. *)
Inductive RawMethod : Type :=
| getInstrument | getAllInstruments | getFilteredInstruments
| getMiniTicker | getTicker | getOrderbookLevels | getTrades
| getTradeHistory | getCandlestick | getFundingRate
| createOrder | cancelOrder | cancelAllOrders | getOrder | getOpenOrders
| getOrderHistory | getFillHistory | getPositions | getSubAccountSummary
| getSubAccountHistory | getAggregatedAccountSummary
| getFundingAccountSummary | deposit | getDepositHistory | transfer
| getTransferHistory | withdrawal | getWithdrawalHistory.

(** The arguments each method gives to [transport.request]: endpoint
    type, path and [requiresAuth]. *)
Definition arguments (m : RawMethod) : GrvtEndpointType * string * bool :=
  match m with
  | getInstrument => (MARKET_DATA, "full/v1/instrument", false)
  | getAllInstruments => (MARKET_DATA, "full/v1/all_instruments", false)
  | getFilteredInstruments => (MARKET_DATA, "full/v1/instruments", false)
  | getMiniTicker => (MARKET_DATA, "full/v1/mini", false)
  | getTicker => (MARKET_DATA, "full/v1/ticker", false)
  | getOrderbookLevels => (MARKET_DATA, "full/v1/book", false)
  | getTrades => (MARKET_DATA, "full/v1/trade", false)
  | getTradeHistory => (MARKET_DATA, "full/v1/trade_history", false)
  | getCandlestick => (MARKET_DATA, "full/v1/kline", false)
  | getFundingRate => (MARKET_DATA, "full/v1/funding", false)
  | createOrder => (TRADE_DATA, "full/v1/create_order", true)
  | cancelOrder => (TRADE_DATA, "full/v1/cancel_order", true)
  | cancelAllOrders => (TRADE_DATA, "full/v1/cancel_all_orders", true)
  | getOrder => (TRADE_DATA, "full/v1/order", true)
  | getOpenOrders => (TRADE_DATA, "full/v1/open_orders", true)
  | getOrderHistory => (TRADE_DATA, "full/v1/order_history", true)
  | getFillHistory => (TRADE_DATA, "full/v1/fill_history", true)
  | getPositions => (TRADE_DATA, "full/v1/positions", true)
  | getSubAccountSummary => (TRADE_DATA, "full/v1/account_summary", true)
  | getSubAccountHistory => (TRADE_DATA, "full/v1/account_history", true)
  | getAggregatedAccountSummary =>
      (TRADE_DATA, "full/v1/aggregated_account_summary", true)
  | getFundingAccountSummary =>
      (TRADE_DATA, "full/v1/funding_account_summary", true)
  | deposit => (TRADE_DATA, "full/v1/deposit", true)
  | getDepositHistory => (TRADE_DATA, "full/v1/deposit_history", true)
  | transfer => (TRADE_DATA, "full/v1/transfer", true)
  | getTransferHistory => (TRADE_DATA, "full/v1/transfer_history", true)
  | withdrawal => (TRADE_DATA, "full/v1/withdrawal", true)
  | getWithdrawalHistory => (TRADE_DATA, "full/v1/withdrawal_history", true)
  end.



End RawClient.

(* ================================================================== *)
(** ** Environments and endpoints ([config/environment.ts],
       [config/endpoints.ts]) *)
(* ================================================================== *)

Module Config.
Import Http.

(** [GrvtEnv], an enum of strings. *)
Inductive GrvtEnv : Type := DEV | STG | TESTNET | PROD.

Definition env_value (e : GrvtEnv) : string :=
  match e with
  | DEV => "dev" | STG => "stg" | TESTNET => "testnet" | PROD => "prod"
  end.

Record GrvtEndpointConfig : Type := {
  rpcEndpoint : string;
  wsEndpoint : option string
}.

Record GrvtEnvConfig : Type := {
  edge : GrvtEndpointConfig;
  tradeData : GrvtEndpointConfig;
  marketData : GrvtEndpointConfig;
  chainId : Z
}.

Definition CHAIN_IDS (e : GrvtEnv) : Z :=
  match e with
  | DEV => 327 | STG => 327 | TESTNET => 326 | PROD => 325
  end.

(** [getEnvConfig]; its [default] branch is out of reach of the enum. *)
Definition getEnvConfig (environment : GrvtEnv) : GrvtEnvConfig :=
  match environment with
  | PROD =>
      {| edge := {| rpcEndpoint := "https://edge.grvt.io";
                    wsEndpoint := None |};
         tradeData := {| rpcEndpoint := "https://trades.grvt.io";
                         wsEndpoint := Some "wss://trades.grvt.io/ws" |};
         marketData := {| rpcEndpoint := "https://market-data.grvt.io";
                          wsEndpoint := Some "wss://market-data.grvt.io/ws" |};
         chainId := CHAIN_IDS PROD |}
  | TESTNET =>
      {| edge :=
           {| rpcEndpoint :=
                "https://edge." ++ env_value environment ++ ".grvt.io";
              wsEndpoint := None |};
         tradeData :=
           {| rpcEndpoint :=
                "https://trades." ++ env_value environment ++ ".grvt.io";
              wsEndpoint :=
                Some ("wss://trades." ++ env_value environment
                      ++ ".grvt.io/ws") |};
         marketData :=
           {| rpcEndpoint :=
                "https://market-data." ++ env_value environment ++ ".grvt.io";
              wsEndpoint :=
                Some ("wss://market-data." ++ env_value environment
                      ++ ".grvt.io/ws") |};
         chainId := CHAIN_IDS TESTNET |}
  | DEV | STG =>
      {| edge :=
           {| rpcEndpoint :=
                "https://edge." ++ env_value environment
                ++ ".gravitymarkets.io";
              wsEndpoint := None |};
         tradeData :=
           {| rpcEndpoint :=
                "https://trades." ++ env_value environment
                ++ ".gravitymarkets.io";
              wsEndpoint :=
                Some ("wss://trades." ++ env_value environment
                      ++ ".gravitymarkets.io/ws") |};
         marketData :=
           {| rpcEndpoint :=
                "https://market-data." ++ env_value environment
                ++ ".gravitymarkets.io";
              wsEndpoint :=
                Some ("wss://market-data." ++ env_value environment
                      ++ ".gravitymarkets.io/ws") |};
         chainId := CHAIN_IDS environment |}
  end.

(** [getEndpointDomains]: the record it returns, read at
    [endpointType]. *)
Definition getEndpointDomains (environment : GrvtEnv)
    (endpointType : GrvtEndpointType) : string :=
  let config := getEnvConfig environment in
  match endpointType with
  | EDGE => rpcEndpoint (edge config)
  | TRADE_DATA => rpcEndpoint (tradeData config)
  | MARKET_DATA => rpcEndpoint (marketData config)
  end.

(** [getWsEndpoint] *)
Definition getWsEndpoint (environment : GrvtEnv)
    (endpointType : GrvtEndpointType) : option string :=
  let config := getEnvConfig environment in
  match endpointType with
  | TRADE_DATA => wsEndpoint (tradeData config)
  | MARKET_DATA => wsEndpoint (marketData config)
  | EDGE => wsEndpoint (edge config)
  end.

Definition ENDPOINT_VERSION : string := "v1".

Definition EDGE_ENDPOINTS : list (string * string) :=
  [("GRAPHQL", "query"); ("AUTH", "auth/api_key/login")].

Definition full (name : string) : string :=
  "full/" ++ ENDPOINT_VERSION ++ "/" ++ name.

Definition TRADE_DATA_ENDPOINTS : list (string * string) :=
  [("CREATE_ORDER", full "create_order");
   ("CANCEL_ALL_ORDERS", full "cancel_all_orders");
   ("CANCEL_ORDER", full "cancel_order");
   ("GET_OPEN_ORDERS", full "open_orders");
   ("GET_ACCOUNT_SUMMARY", full "account_summary");
   ("GET_FUNDING_ACCOUNT_SUMMARY", full "funding_account_summary");
   ("GET_AGGREGATED_ACCOUNT_SUMMARY", full "aggregated_account_summary");
   ("GET_ACCOUNT_HISTORY", full "account_history");
   ("GET_POSITIONS", full "positions");
   ("GET_ORDER", full "order");
   ("GET_ORDER_HISTORY", full "order_history");
   ("GET_FILL_HISTORY", full "fill_history")].

Definition MARKET_DATA_ENDPOINTS : list (string * string) :=
  [("GET_ALL_INSTRUMENTS", full "all_instruments");
   ("GET_INSTRUMENTS", full "instruments");
   ("GET_INSTRUMENT", full "instrument");
   ("GET_TICKER", full "ticker");
   ("GET_MINI_TICKER", full "mini");
   ("GET_ORDER_BOOK", full "book");
   ("GET_TRADES", full "trade");
   ("GET_TRADE_HISTORY", full "trade_history");
   ("GET_FUNDING", full "funding");
   ("GET_CANDLESTICK", full "kline")].

(** [GRVT_ENDPOINTS], in the order [Object.entries] gives its keys. *)
Definition GRVT_ENDPOINTS : list (GrvtEndpointType * list (string * string)) :=
  [(EDGE, EDGE_ENDPOINTS); (TRADE_DATA, TRADE_DATA_ENDPOINTS);
   (MARKET_DATA, MARKET_DATA_ENDPOINTS)].

(** [EndpointName]: the keys of the three tables. *)
Definition is_EndpointName (name : string) : bool :=
  existsb (fun group => JsMap.has String.eqb name (snd group)) GRVT_ENDPOINTS.

(** What the tables, which are object literals, inherit from
    [Object.prototype]: for a property name the prototype has
    ([toString], [constructor], ...; which names depends on the engine),
    the text a template literal gives for its value; [None] for the other
    names. *)
Definition Prototype : Type := string -> option string.

(** [name in endpoints] and [`${endpoints[name]}`]: own properties come
    before inherited ones. *)
Definition lookup (proto : Prototype) (name : string)
    (endpoints : list (string * string)) : option string :=
  match JsMap.get String.eqb name endpoints with
  | Some path => Some path
  | None => proto name
  end.

(** [getEndpoint]; its argument is any string at run time. *)
Fixpoint getEndpoint_in (proto : Prototype) (environment : GrvtEnv)
    (endpointName : string)
    (groups : list (GrvtEndpointType * list (string * string)))
    : option string :=
  match groups with
  | [] => None
  | (endpointType, endpoints) :: rest =>
      match lookup proto endpointName endpoints with
      | Some path =>
          Some (getEndpointDomains environment endpointType ++ "/" ++ path)
      | None => getEndpoint_in proto environment endpointName rest
      end
  end.

Definition getEndpoint (proto : Prototype) (environment : GrvtEnv)
    (endpointName : string) : option string :=
  getEndpoint_in proto environment endpointName GRVT_ENDPOINTS.

(** [getAllEndpoints]: the own properties of the record it builds, by
    assignment in order. *)
Definition getAllEndpoints (environment : GrvtEnv) : list (string * string) :=
  fold_left
    (fun endpoints group =>
       fold_left
         (fun endpoints' np =>
            JsMap.set String.eqb (fst np)
              (getEndpointDomains environment (fst group) ++ "/" ++ snd np)
              endpoints')
         (snd group) endpoints)
    GRVT_ENDPOINTS [].

End Config.

(* ================================================================== *)
(** ** Which server a transport talks to (the two constructors) *)
(* ================================================================== *)

Module Connection.
Import Http Config.

(** [s.startsWith(p)] *)
Fixpoint startsWith (p s : string) : bool :=
  match p, s with
  | EmptyString, _ => true
  | String a p', String b s' => Ascii.eqb a b && startsWith p' s'
  | String _ _, EmptyString => false
  end.

Fixpoint drop (n : nat) (s : string) : string :=
  match n, s with
  | O, _ => s
  | S n', String _ s' => drop n' s'
  | S _, EmptyString => EmptyString
  end.

(** [s.replace(pattern, replacement)] for a string pattern and a
    replacement without [$]: the first occurrence is replaced. *)
Fixpoint replace (pattern replacement s : string) {struct s} : string :=
  if startsWith pattern s then
    replacement ++ drop (String.length pattern) s
  else
    match s with
    | EmptyString => EmptyString
    | String c rest => String c (replace pattern replacement rest)
    end.

(** The options the two constructors read to choose the server.  A field
    is [None] when it is [undefined], also because [options] is; [url] is
    given by its [toString()]. *)
Record Options : Type := {
  env : option GrvtEnv;
  endpointType : option GrvtEndpointType;
  url : option string
}.

Definition env_eqb (a b : GrvtEnv) : bool :=
  match a, b with
  | DEV, DEV | STG, STG | TESTNET, TESTNET | PROD, PROD => true
  | _, _ => false
  end.

(** [new WebSocketTransport(options)]: [env], [isTestnet] and the URL
    given to [new WebSocket]. *)
Definition ws_env (options : Options) : GrvtEnv :=
  match env options with Some e => e | None => TESTNET end.

Definition ws_isTestnet (options : Options) : bool :=
  negb (env_eqb (ws_env options) PROD).

Definition ws_endpointType (options : Options) : GrvtEndpointType :=
  match endpointType options with Some t => t | None => MARKET_DATA end.

Definition to_wss (rpc : string) : string :=
  replace "/v1" "/ws/v1" (replace "https://" "wss://" rpc).

Definition wsUrl (options : Options) : string :=
  let envConfig := getEnvConfig (ws_env options) in
  let custom :=
    match url options with
    | Some u => if String.eqb u "" then None else Some u
    | None => None
    end in
  match custom with
  | Some u => u
  | None =>
      match ws_endpointType options with
      | MARKET_DATA =>
          match wsEndpoint (marketData envConfig) with
          | Some ws => ws
          | None => to_wss (rpcEndpoint (marketData envConfig))
          end
      | _ =>
          match wsEndpoint (tradeData envConfig) with
          | Some ws => ws
          | None => to_wss (rpcEndpoint (tradeData envConfig))
          end
      end
  end.

(** [new HttpTransport(options)]: [env] and [isTestnet]. *)
Definition http_env (options : Options) : GrvtEnv :=
  match env options with Some e => e | None => PROD end.

Definition http_isTestnet (options : Options) : bool :=
  env_eqb (http_env options) TESTNET || env_eqb (http_env options) DEV ||
  env_eqb (http_env options) STG.

End Connection.

(* ================================================================== *)
(** ** Further notions used to state properties of the manager *)
(* ================================================================== *)

Module ManagerNotions.
Import Json Router Manager ManagerViews.
#[local] Open Scope list_scope.

(** Every correlation id drawn so far is on a frame that was issued, and
    the listener wrappers on the event target are closures that exist. *)
Record tidy (s : State) : Prop := {
  tidy_count : List.length (issued s) = N.to_nat (_requestId s);
  tidy_positive : Forall (fun f => (0 < request_id f)%N) (issued s);
  tidy_wrappers : Forall (fun tw => w_uid (snd tw) < uid s) (evListeners s)
}.

(** An entry is filed under the key of its own stream and feed, has no
    listener twice and has at least one. *)
Definition entry_ok (id : string)
    (sh : string * string * list (Listener * Unsubscribe) * nat) : Prop :=
  let '(stream, feed, ls, _) := sh in
  id = subscription_id stream feed /\ NoDup (map fst ls) /\ ls <> [].

(** No key is in the table twice, every entry is as above, and no
    wrapper is on the event target twice. *)
Record neat (s : State) : Prop := {
  neat_keys : NoDup (map fst (_subscriptions s));
  neat_entries :
    Forall (fun e => entry_ok (fst e) (entry_shape (snd e)))
      (_subscriptions s);
  neat_wrappers : NoDup (map (fun tw => w_uid (snd tw)) (evListeners s))
}.

(** What decides whether a failure signal is aborted. *)
Definition signal_view (s : State) :=
  (resubscribe s, aborted s, promises s).

Definition is_mark (r : Reaction) : bool :=
  match r with FinallyMark _ => true | CatchAbort _ => false end.

(** [resubscribe] is off, no controller was aborted and no promise has
    a reaction that aborts one. *)
Definition never_aborts (s : State) : Prop :=
  resubscribe s = false /\ aborted s = [] /\
  Forall (fun pp => forallb is_mark (p_reactions (snd pp)) = true)
    (promises s).

(** Events that do not turn [resubscribe] on. *)
Definition keeps_off (e : Event) : bool :=
  match e with
  | ESetResubscribe true => false
  | _ => true
  end.

(** An entry that [_handleOpen] replays. *)
Definition finished (entry : string * SubscriptionState) : bool :=
  promiseFinished (snd entry).

(** The frames [_handleOpen] sends for the entries it replays, when the
    counter of correlation ids is at [n]. *)
Fixpoint replay_frames (n : N) (entries : list (string * SubscriptionState))
    : list Frame :=
  match entries with
  | [] => []
  | entry :: rest =>
      subscribe_frame (n + 1) (stream (snd entry)) (feed (snd entry)) ::
      replay_frames (n + 1) rest
  end.

(** The call a [subscribe] makes when the entry [sub] exists already and
    the closure it returns is [u]. *)
Definition joined_call (sub : SubscriptionState) (u : Unsubscribe) : Call :=
  {| c_promise := promise sub; c_unsubscribe := u;
     c_signal := failureController sub |}.

(** The acknowledgement of the subscribe request [k] for
    [ticker.s], as the server sends it. *)
Definition ticker_ack (k : Z) : json :=
  JObj [("request_id", JNum k); ("stream", JStr "v1.ticker.s");
        ("subs", JArr [JStr "BTC_USDT_Perp@500"]); ("unsubs", JArr []);
        ("num_snapshots", JArr [JNum 1]);
        ("first_sequence_number", JArr [JStr "872"]);
        ("latest_sequence_number", JArr [JStr "872"])].

(** A data frame of [ticker.s] with payload [feed]. *)
Definition ticker_data (feed : json) : json :=
  JObj [("stream", JStr "v1.ticker.s");
        ("selector", JStr "BTC_USDT_Perp@500");
        ("sequence_number", JStr "873"); ("feed", feed)].

End ManagerNotions.

(* ================================================================== *)
(** * Properties *)
(* ================================================================== *)

(** ** Message classification *)

Module RouterProofs.
Import Json Router Samples.

(** What [isErrorMessage] tests: an object with a numeric [code] and a
    [message] property of any type. *)
Lemma isErrorMessage_spec (msg : json) :
  isErrorMessage msg = true <->
  exists fields c m,
    msg = JObj fields /\ assoc "code" fields = Some c /\
    typeof c = TNumber /\ assoc "message" fields = Some m.
Proof.
  unfold isErrorMessage, has, is_type. split.
  - intros H.
    destruct msg as [| | | | |items|fields]; simpl in H; try discriminate.
    destruct (assoc "code" fields) as [c|] eqn:Hc; simpl in H;
      try discriminate.
    destruct (assoc "message" fields) as [m|] eqn:Hm; simpl in H;
      try discriminate.
    exists fields, c, m. repeat split; trivial.
    destruct c; simpl in H; trivial; discriminate.
  - intros (fields & c & m & -> & Hc & Ht & Hm). simpl.
    rewrite Hc, Hm, Ht. reflexivity.
Qed.

(** An error frame is dispatched as an [error] event with the whole
    object and as nothing else. *)
Lemma error_dispatch (msg : json) :
  isPong msg = false -> isErrorMessage msg = true ->
  onMessage (Some msg) = Some {| ev_type := "error"; ev_detail := Some msg |}.
Proof. intros Hp He. unfold onMessage. now rewrite Hp, He. Qed.


(** C4 (the code departs from the claim): a frame that is not a pong,
    with a numeric [code] and a [message] that is a number and not a
    string, is classified as an Error and dispatched as an [error] event:
    [isErrorMessage] tests that [message] is present, never its type. *)
Theorem C4_error_frame_without_string_message :
  isPong code_with_numeric_message = false /\
  is_type TNumber (get "code" code_with_numeric_message) = true /\
  is_type TString (get "message" code_with_numeric_message) = false /\
  isErrorMessage code_with_numeric_message = true /\
  onMessage (Some code_with_numeric_message) =
    Some {| ev_type := "error";
            ev_detail := Some code_with_numeric_message |}.
Proof. repeat split. Qed.

(** *** Stream names *)








End RouterProofs.

(** ** Facts about insertion-ordered maps *)

Module JsMapFacts.
Import JsMap.
#[local] Open Scope list_scope.

Section Facts.
Context {K V : Type} (eqb : K -> K -> bool).
Hypothesis eqb_eq : forall a b, eqb a b = true <-> a = b.

Lemma eqb_refl (a : K) : eqb a a = true.
Proof. now apply eqb_eq. Qed.

Lemma eqb_neq (a b : K) : a <> b -> eqb a b = false.
Proof.
  intros H. destruct (eqb a b) eqn:E; trivial. apply eqb_eq in E. contradiction.
Qed.

Lemma get_In (k : K) (v : V) (m : list (K * V)) :
  get eqb k m = Some v -> In (k, v) m.
Proof.
  induction m as [|[k' v'] tl IH]; simpl; [discriminate|].
  destruct (eqb k k') eqn:E.
  - apply eqb_eq in E. intros [= ->]. left. now subst.
  - intros H. right. now apply IH.
Qed.

Lemma get_None (k : K) (m : list (K * V)) :
  get eqb k m = None <-> ~ In k (keys m).
Proof.
  unfold keys. induction m as [|[k' v'] tl IH]; simpl.
  - split; [tauto|reflexivity].
  - destruct (eqb k k') eqn:E.
    + apply eqb_eq in E. subst. split; [discriminate|tauto].
    + rewrite IH. split; [|tauto].
      intros H [->|H']; [|tauto]. now rewrite eqb_refl in E.
Qed.

Lemma get_app (k : K) (m1 m2 : list (K * V)) :
  get eqb k (m1 ++ m2) =
  match get eqb k m1 with Some v => Some v | None => get eqb k m2 end.
Proof.
  induction m1 as [|[k' v'] tl IH]; simpl; trivial.
  now destruct (eqb k k').
Qed.

Lemma set_new (k : K) (v : V) (m : list (K * V)) :
  get eqb k m = None -> set eqb k v m = m ++ [(k, v)].
Proof.
  induction m as [|[k' v'] tl IH]; simpl; trivial.
  destruct (eqb k k'); [discriminate|]. intros H. now rewrite IH.
Qed.

Lemma keys_set_old (k : K) (v v0 : V) (m : list (K * V)) :
  get eqb k m = Some v0 -> keys (set eqb k v m) = keys m.
Proof.
  unfold keys. induction m as [|[k' v'] tl IH]; simpl; [discriminate|].
  destruct (eqb k k') eqn:E; simpl.
  - apply eqb_eq in E. now subst.
  - intros H. now rewrite IH.
Qed.

Lemma get_set_same (k : K) (v : V) (m : list (K * V)) :
  get eqb k (set eqb k v m) = Some v.
Proof.
  induction m as [|[k' v'] tl IH]; simpl.
  - now rewrite eqb_refl.
  - destruct (eqb k k') eqn:E; simpl; [now rewrite eqb_refl|now rewrite E].
Qed.

Lemma get_set_other (k q : K) (v : V) (m : list (K * V)) :
  q <> k -> get eqb q (set eqb k v m) = get eqb q m.
Proof.
  intros Hq. induction m as [|[k' v'] tl IH]; simpl.
  - now rewrite (eqb_neq _ _ Hq).
  - destruct (eqb k k') eqn:E; simpl.
    + apply eqb_eq in E. subst k'. now rewrite (eqb_neq _ _ Hq).
    + now rewrite IH.
Qed.

Lemma keys_modify (k : K) (f : V -> V) (m : list (K * V)) :
  keys (modify eqb k f m) = keys m.
Proof.
  unfold keys. induction m as [|[k' v'] tl IH]; simpl; trivial.
  destruct (eqb k k'); simpl; [reflexivity|now rewrite IH].
Qed.

Lemma get_modify_same (k : K) (f : V -> V) (m : list (K * V)) :
  get eqb k (modify eqb k f m) = option_map f (get eqb k m).
Proof.
  induction m as [|[k' v'] tl IH]; simpl; trivial.
  destruct (eqb k k') eqn:E; simpl; now rewrite E.
Qed.

Lemma get_modify_other (k q : K) (f : V -> V) (m : list (K * V)) :
  q <> k -> get eqb q (modify eqb k f m) = get eqb q m.
Proof.
  intros Hq. induction m as [|[k' v'] tl IH]; simpl; trivial.
  destruct (eqb k k') eqn:E; simpl.
  - apply eqb_eq in E. subst k'. now rewrite (eqb_neq _ _ Hq).
  - now rewrite IH.
Qed.

Lemma modify_app_new (k : K) (f : V -> V) (v : V) (m : list (K * V)) :
  get eqb k m = None ->
  modify eqb k f (m ++ [(k, v)]) = m ++ [(k, f v)].
Proof.
  induction m as [|[k' v'] tl IH]; simpl.
  - now rewrite eqb_refl.
  - destruct (eqb k k'); [discriminate|]. intros H. now rewrite IH.
Qed.

Lemma modify_map (A : Type) (g : K * V -> A) (k : K) (f : V -> V)
    (m : list (K * V)) :
  (forall k' v, g (k', f v) = g (k', v)) ->
  map g (modify eqb k f m) = map g m.
Proof.
  intros Hg. induction m as [|[k' v'] tl IH]; simpl; trivial.
  destruct (eqb k k'); simpl; [now rewrite Hg|now rewrite IH].
Qed.

Lemma In_delete (k : K) (x : K * V) (m : list (K * V)) :
  In x (delete eqb k m) -> In x m.
Proof.
  induction m as [|[k' v'] tl IH]; simpl; trivial.
  destruct (eqb k k'); simpl; [tauto|]. intros [H|H]; [now left|right; auto].
Qed.

Lemma NoDup_map_delete (A : Type) (g : K * V -> A) (k : K)
    (m : list (K * V)) :
  NoDup (map g m) -> NoDup (map g (delete eqb k m)).
Proof.
  induction m as [|[k' v'] tl IH]; simpl; trivial.
  intros H. inversion H as [|? ? Hn Hd]; subst.
  destruct (eqb k k'); simpl; trivial.
  constructor; [|now apply IH].
  intros Hin. apply Hn. apply in_map_iff in Hin as (x & Hx & Hin).
  apply in_map_iff. exists x. split; trivial. now apply In_delete in Hin.
Qed.

Lemma get_delete_other (k q : K) (m : list (K * V)) :
  q <> k -> get eqb q (delete eqb k m) = get eqb q m.
Proof.
  intros Hq. induction m as [|[k' v'] tl IH]; simpl; trivial.
  destruct (eqb k k') eqn:E; simpl.
  - apply eqb_eq in E. subst k'. now rewrite (eqb_neq _ _ Hq).
  - now rewrite IH.
Qed.

End Facts.

(** A property kept by every step of a loop holds after the loop. *)
Lemma fold_left_keeps {A S : Type} (P : S -> Prop) (f : S -> A -> S)
    (l : list A) (s : S) :
  (forall s' a, P s' -> P (f s' a)) -> P s -> P (fold_left f l s).
Proof.
  intros Hf. revert s. induction l as [|a l IH]; simpl; auto.
Qed.

End JsMapFacts.

(** ** The subscription manager *)

Module ManagerProofs.
Import Json Router Manager ManagerViews JsMap JsMapFacts.
#[local] Open Scope list_scope.

Lemma shape_modify (id : string) (f : SubscriptionState -> SubscriptionState)
    (subs : list (string * SubscriptionState)) :
  (forall sub, entry_shape (f sub) = entry_shape sub) ->
  shape (modify String.eqb id f subs) = shape subs.
Proof.
  intros Hf. unfold shape. apply modify_map. intros k v. simpl. now rewrite Hf.
Qed.

Lemma promises_of_modify (id : string)
    (f : SubscriptionState -> SubscriptionState)
    (subs : list (string * SubscriptionState)) :
  (forall sub, promise (f sub) = promise sub) ->
  promises_of (modify String.eqb id f subs) = promises_of subs.
Proof.
  intros Hf. unfold promises_of. apply modify_map. intros k v. simpl.
  now rewrite Hf.
Qed.

(** *** Settling a promise *)

Lemma abort_view (ctrl : nat) (e : WebSocketRequestError) (s : State) :
  settle_view (abort ctrl e s) = settle_view s.
Proof. unfold abort. now destruct (has _ _ _). Qed.

Lemma run_reaction_view (st : Settled) (r : Reaction) (s : State) :
  settle_view (run_reaction st r s) = settle_view s.
Proof.
  destruct r as [id|ctrl]; simpl.
  - destruct (get String.eqb id (_subscriptions s)); trivial.
    unfold settle_view; simpl.
    rewrite shape_modify, promises_of_modify; trivial.
  - destruct st; trivial. apply abort_view.
Qed.

Lemma run_reaction_promises (st : Settled) (r : Reaction) (s : State) :
  promises (run_reaction st r s) = promises s.
Proof.
  destruct r as [id|ctrl]; simpl.
  - now destruct (get String.eqb id (_subscriptions s)).
  - destruct st; trivial. unfold abort. now destruct (has _ _ _).
Qed.

Lemma settle_view_eq (p : nat) (st : Settled) (s : State) :
  settle_view (settle p st s) = settle_view s.
Proof.
  unfold settle.
  destruct (get Nat.eqb p (promises s)) as [[[] rs]|] eqn:E; trivial.
  apply (fold_left_keeps (fun s' => settle_view s' = _)).
  - intros s' r H. now rewrite run_reaction_view.
  - unfold settle_view; simpl.
    change (map fst (set Nat.eqb p ?v ?m)) with (keys (set Nat.eqb p v m)).
    now rewrite (keys_set_old Nat.eqb Nat.eqb_eq _ _ _ _ E).
Qed.

(** Only the promise that is settled changes state. *)
Lemma settle_other (p q : nat) (st : Settled) (s : State) :
  q <> p -> request_state (settle p st s) q = request_state s q.
Proof.
  intros Hq. unfold settle.
  destruct (get Nat.eqb p (promises s)) as [[[] rs]|] eqn:E; trivial.
  apply (fold_left_keeps (fun s' => request_state s' q = _)).
  - intros s' r H. unfold request_state in *.
    now rewrite run_reaction_promises.
  - unfold request_state; simpl.
    now rewrite (get_set_other Nat.eqb Nat.eqb_eq).
Qed.

(** A pending promise takes the state it is settled with. *)
Lemma settle_pending (p : nat) (st : Settled) (s : State) :
  In p (map fst (promises s)) -> request_state s p = Pending ->
  request_state (settle p st s) p = st.
Proof.
  intros Hin Hp. unfold settle, request_state in *.
  destruct (get Nat.eqb p (promises s)) as [[ps rs]|] eqn:E.
  - simpl in Hp. subst ps.
    apply (fold_left_keeps
             (fun s' => match get Nat.eqb p (promises s') with
                        | Some pr => p_state pr
                        | None => Pending
                        end = st)).
    + intros s' r H. now rewrite run_reaction_promises.
    + simpl. now rewrite (get_set_same Nat.eqb Nat.eqb_eq).
  - apply (get_None Nat.eqb Nat.eqb_eq) in E. contradiction.
Qed.

(** A settled promise stays as it is. *)
Lemma settle_settled (p q : nat) (st : Settled) (s : State) :
  request_state s q <> Pending ->
  request_state (settle p st s) q = request_state s q.
Proof.
  intros Hq. destruct (Nat.eq_dec q p) as [->|Hn]; [|now apply settle_other].
  unfold settle, request_state in *.
  destruct (get Nat.eqb p (promises s)) as [[[] rs]|] eqn:E;
    rewrite ?E; trivial.
  now elim Hq.
Qed.

(** *** Views derived from one another *)

Lemma settle_view_static (s s' : State) :
  settle_view s' = settle_view s -> static_view s' = static_view s.
Proof.
  unfold settle_view, static_view. intros H. injection H. intros. congruence.
Qed.

(** [wf] reads only these fields. *)
Lemma wf_same (s s' : State) :
  issued s' = issued s -> _requestId s' = _requestId s ->
  _pendingRequests s' = _pendingRequests s -> timers s' = timers s ->
  uid s' = uid s -> map fst (promises s') = map fst (promises s) ->
  wf s -> wf s'.
Proof.
  intros H1 H2 H3 H4 H5 H6 [A B C D E F G].
  constructor; rewrite ?H1, ?H2, ?H3, ?H4, ?H5, ?H6; trivial.
Qed.

Lemma settle_view_wf (s s' : State) :
  settle_view s' = settle_view s -> wf s -> wf s'.
Proof.
  unfold settle_view. intros H. injection H. intros.
  apply (wf_same s); trivial. unfold issued. congruence.
Qed.

Lemma settle_wf (p : nat) (st : Settled) (s : State) :
  wf s -> wf (settle p st s).
Proof. apply settle_view_wf, settle_view_eq. Qed.

Lemma settle_static (p : nat) (st : Settled) (s : State) :
  static_view (settle p st s) = static_view s.
Proof. apply settle_view_static, settle_view_eq. Qed.

Lemma settle_pendingRequests (p : nat) (st : Settled) (s : State) :
  _pendingRequests (settle p st s) = _pendingRequests s.
Proof.
  pose proof (settle_view_eq p st s) as H. unfold settle_view in H.
  injection H. intros. assumption.
Qed.

Lemma settle_invoked (p : nat) (st : Settled) (s : State) :
  invoked (settle p st s) = invoked s.
Proof.
  pose proof (settle_view_eq p st s) as H. unfold settle_view in H.
  injection H. intros. assumption.
Qed.

Lemma settle_timers (p : nat) (st : Settled) (s : State) :
  timers (settle p st s) = timers s.
Proof.
  pose proof (settle_view_eq p st s) as H. unfold settle_view in H.
  injection H. intros. assumption.
Qed.

Lemma settle_clock (p : nat) (st : Settled) (s : State) :
  clock (settle p st s) = clock s.
Proof.
  pose proof (settle_view_eq p st s) as H. unfold settle_view in H.
  injection H. intros. assumption.
Qed.

(** Removing a pending request keeps the state well formed. *)
Lemma delete_pending_wf (k : N) (s : State) :
  wf s ->
  wf (set__pendingRequests (delete N.eqb k (_pendingRequests s)) s).
Proof.
  intros [A B C D E F G]. constructor; simpl; trivial.
  - rewrite Forall_forall in *. intros x Hx. apply C.
    now apply In_delete in Hx.
  - now apply NoDup_map_delete.
  - now apply NoDup_map_delete.
Qed.

(** *** Inbound frames *)

Lemma set_invoked_eta (s : State) : set_invoked (invoked s) s = s.
Proof. now destruct s. Qed.

Lemma call_wrappers_eq (d : Dispatch) (ls : list (string * Wrapper))
    (s : State) :
  fold_left
    (fun acc tw =>
       if String.eqb (fst tw) (ev_type d)
       then call_wrapper (ev_detail d) (snd tw) acc else acc) ls s =
  set_invoked (invoked s ++ deliveries d ls) s.
Proof.
  unfold deliveries. revert s.
  induction ls as [|[t w] tl IH]; intros s; simpl.
  - destruct (ev_detail d); rewrite app_nil_r; symmetry;
      apply set_invoked_eta.
  - rewrite IH. destruct (String.eqb t (ev_type d)); simpl; trivial.
    destruct (ev_detail d) as [msg|]; simpl; trivial.
    unfold set_invoked; simpl. now rewrite <- app_assoc.
Qed.


Lemma onSubscriptionResponse_settles : settles_found onSubscriptionResponse.
Proof.
  intros [response|] s; simpl; [|now left].
  unfold frame_id, pending_get.
  destruct (Json.get "request_id" response) as [rid|]; [|now left].
  destruct (pending_key rid) as [k|]; [|now left].
  destruct (get N.eqb k (_pendingRequests s)) as [p|] eqn:E; [|now left].
  right. exists k, p, (Resolved (Some response)). repeat split; trivial.
Qed.

Lemma onError_settles : settles_found onError.
Proof.
  intros [error|] s; simpl; [|now left].
  unfold frame_id, pending_get.
  destruct (Json.get "request_id" error) as [rid|]; [|now left].
  destruct (pending_key rid) as [k|]; [|now left].
  destruct (get N.eqb k (_pendingRequests s)) as [p|] eqn:E; [|now left].
  right. exists k, p, (Rejected (WsError (Json.get "message" error))).
  repeat split; trivial.
Qed.

Section Handler.
Variable handler : option json -> State -> State.
Hypothesis Hh : settles_found handler.

Lemma handler_static (detail : option json) (s : State) :
  static_view (handler detail s) = static_view s.
Proof.
  destruct (Hh detail s) as [->|(k & p & st & _ & _ & ->)]; trivial.
  rewrite <- (settle_static p st s). reflexivity.
Qed.

Lemma handler_wf (detail : option json) (s : State) :
  wf s -> wf (handler detail s).
Proof.
  intros W. destruct (Hh detail s) as [->|(k & p & st & _ & _ & ->)]; trivial.
  apply delete_pending_wf. now apply settle_wf.
Qed.

Lemma handler_invoked (detail : option json) (s : State) :
  invoked (handler detail s) = invoked s.
Proof.
  destruct (Hh detail s) as [->|(k & p & st & _ & _ & ->)]; trivial.
  simpl. apply settle_invoked.
Qed.

Lemma handler_timers (detail : option json) (s : State) :
  timers (handler detail s) = timers s /\ clock (handler detail s) = clock s.
Proof.
  destruct (Hh detail s) as [->|(k & p & st & _ & _ & ->)]; [tauto|].
  simpl. now rewrite settle_timers, settle_clock.
Qed.


End Handler.


Lemma manager_listeners_settles (d : Dispatch) :
  settles_found (fun detail s =>
    manager_listeners {| ev_type := ev_type d; ev_detail := detail |} s).
Proof.
  intros detail s. unfold manager_listeners; simpl.
  destruct (String.eqb (ev_type d) "subscriptionResponse") eqn:E1.
  - apply String.eqb_eq in E1. rewrite E1. simpl.
    apply onSubscriptionResponse_settles.
  - destruct (String.eqb (ev_type d) "error"); [|now left].
    apply onError_settles.
Qed.

Lemma manager_listeners_same (d : Dispatch) (s : State) :
  manager_listeners d s =
  manager_listeners {| ev_type := ev_type d; ev_detail := ev_detail d |} s.
Proof. now destruct d. Qed.

Lemma dispatchEvent_eq (d : Dispatch) (s : State) :
  dispatchEvent d s =
  set_invoked
    (invoked s ++ deliveries d (evListeners s)) (manager_listeners d s).
Proof.
  unfold dispatchEvent. fold (manager_listeners d s).
  rewrite call_wrappers_eq. rewrite manager_listeners_same.
  rewrite (handler_invoked _ (manager_listeners_settles d)).
  pose proof (handler_static _ (manager_listeners_settles d)
                (ev_detail d) s) as H.
  unfold static_view in H. injection H. intros. congruence.
Qed.

Lemma socket_message_static (data : option json) (s : State) :
  static_view (socket_message data s) = static_view s.
Proof.
  unfold socket_message. destruct (onMessage data) as [d|]; trivial.
  rewrite dispatchEvent_eq, manager_listeners_same.
  rewrite <- (handler_static _ (manager_listeners_settles d) (ev_detail d) s).
  reflexivity.
Qed.

Lemma socket_message_wf (data : option json) (s : State) :
  wf s -> wf (socket_message data s).
Proof.
  intros W. unfold socket_message. destruct (onMessage data) as [d|]; trivial.
  rewrite dispatchEvent_eq, manager_listeners_same.
  apply (handler_wf _ (manager_listeners_settles d) (ev_detail d)) in W.
  revert W. apply wf_same; reflexivity.
Qed.

(** The calls a frame makes to callers' listeners. *)
Lemma socket_message_invoked (data : option json) (s : State) :
  invoked (socket_message data s) =
  invoked s ++
  match onMessage data with
  | Some d => deliveries d (evListeners s)
  | None => []
  end.
Proof.
  unfold socket_message. destruct (onMessage data) as [d|].
  - now rewrite dispatchEvent_eq.
  - now rewrite app_nil_r.
Qed.

Lemma socket_message_timers (data : option json) (s : State) :
  timers (socket_message data s) = timers s /\
  clock (socket_message data s) = clock s.
Proof.
  unfold socket_message. destruct (onMessage data) as [d|]; [|tauto].
  rewrite dispatchEvent_eq, manager_listeners_same. simpl.
  apply (handler_timers _ (manager_listeners_settles d)).
Qed.

(** The [detail] of a dispatched event that is not a pong is the frame. *)
Lemma onMessage_detail (data : option json) (d : Dispatch) :
  onMessage data = Some d -> ev_detail d = None \/ ev_detail d = data.
Proof.
  unfold onMessage. destruct data as [msg|]; [|discriminate].
  destruct (isPong msg); [intros [= <-]; now left|].
  destruct (isErrorMessage msg); [intros [= <-]; now right|].
  destruct (isSubscriptionResponse msg && negb (isDataMessage msg));
    [intros [= <-]; now right|].
  destruct (isDataMessage msg); [intros [= <-]; now right|discriminate].
Qed.


(** *** Allocation of correlation ids *)

Lemma NoDup_snoc {A : Type} (l : list A) (x : A) :
  NoDup l -> ~ In x l -> NoDup (l ++ [x]).
Proof.
  intros Hl Hx. apply (Permutation_NoDup (l := x :: l)).
  - rewrite <- (app_nil_r (x :: l)). simpl.
    rewrite (Permutation_middle l [] x). reflexivity.
  - now constructor.
Qed.

Lemma NoDup_insert {A : Type} (a b : list A) (x : A) :
  NoDup (a ++ b) -> ~ In x (a ++ b) -> NoDup ((a ++ [x]) ++ b).
Proof.
  intros Hl Hx. rewrite <- app_assoc. simpl.
  apply (Permutation_NoDup (l := x :: a ++ b)).
  - apply Permutation_middle.
  - now constructor.
Qed.

Lemma fresh_id (n : N) (l : list Frame) :
  Forall (fun f => (request_id f <= n)%N) l ->
  ~ In (n + 1)%N (map request_id l).
Proof.
  intros H Hin. apply in_map_iff in Hin as (f & Hf & Hin).
  rewrite Forall_forall in H. apply H in Hin. lia.
Qed.

Lemma fresh_key (n : N) (u : nat) (l : list (N * nat)) :
  Forall (fun kp => (fst kp <= n)%N /\ snd kp < u) l ->
  ~ In (n + 1)%N (map fst l) /\ ~ In u (map snd l).
Proof.
  intros H. rewrite Forall_forall in H.
  split; intros Hin; apply in_map_iff in Hin as (f & Hf & Hin);
    apply H in Hin; lia.
Qed.

Lemma sendSubscribe_eq (stream feed : string) (s : State) :
  _sendSubscribe stream feed s =
  (Build_State (resubscribe s) (isOpen s)
     (if isOpen s then onOpen s
      else onOpen s ++ [subscribe_frame (_requestId s + 1) stream feed])
     (if isOpen s
      then sent s ++ [subscribe_frame (_requestId s + 1) stream feed]
      else sent s)
     (evListeners s) (invoked s) (_subscriptions s) (_requestId s + 1)%N
     (set N.eqb (_requestId s + 1)%N (uid s) (_pendingRequests s))
     (promises s ++ [(uid s, {| p_state := Pending; p_reactions := [] |})])
     (timers s ++
      [{| tm_due := (clock s + 10000)%Z;
          tm_requestId := (_requestId s + 1)%N; tm_reject := uid s |}])
     (clock s) (aborted s) (S (uid s)) (calls s),
   uid s).
Proof.
  unfold _sendSubscribe, fresh, subscribe_frame. simpl.
  destruct (isOpen s) eqn:E;
    unfold socket_send, set_timers, set_onOpen, set_sent,
      set__pendingRequests, set_promises, set_uid, set__requestId; simpl;
    now rewrite E.
Qed.

Lemma sendUnsubscribe_eq (stream feed : string) (s : State) :
  _sendUnsubscribe stream feed s =
  set_sent (sent s ++ [unsubscribe_frame (_requestId s + 1) stream feed])
    (set__requestId (_requestId s + 1)%N s).
Proof. reflexivity. Qed.

Lemma Forall_le_weaken (n : N) (l : list Frame) :
  Forall (fun f => (request_id f <= n)%N) l ->
  Forall (fun f => (request_id f <= n + 1)%N) l.
Proof. apply Forall_impl. intros f. lia. Qed.

Lemma Forall_pending_weaken (n m : N) (u v : nat) (l : list (N * nat)) :
  (n <= m)%N -> u <= v ->
  Forall (fun kp => (fst kp <= n)%N /\ snd kp < u) l ->
  Forall (fun kp => (fst kp <= m)%N /\ snd kp < v) l.
Proof. intros Hn Hu. apply Forall_impl. intros kp. lia. Qed.

Lemma Forall_timers_weaken (n m : N) (u v : nat) (l : list Timer) :
  (n <= m)%N -> u <= v ->
  Forall (fun t => (tm_requestId t <= n)%N /\ tm_reject t < u) l ->
  Forall (fun t => (tm_requestId t <= m)%N /\ tm_reject t < v) l.
Proof. intros Hn Hu. apply Forall_impl. intros kp. lia. Qed.

Lemma Forall_lt_weaken (u v : nat) (l : list nat) :
  u <= v -> Forall (fun p => p < u) l -> Forall (fun p => p < v) l.
Proof. intros Hu. apply Forall_impl. intros kp. lia. Qed.

Lemma sendSubscribe_wf (stream feed : string) (s : State) :
  wf s -> wf (fst (_sendSubscribe stream feed s)).
Proof.
  intros [A B C D E F G]. rewrite sendSubscribe_eq. simpl.
  pose proof (fresh_id _ _ A) as Hid.
  destruct (fresh_key _ _ _ C) as [Hk Hp].
  assert (Hget : get N.eqb (_requestId s + 1)%N (_pendingRequests s) = None)
    by now apply (get_None N.eqb N.eqb_eq).
  constructor; unfold issued in *; simpl.
  - destruct (isOpen s).
    + rewrite <- app_assoc. simpl. apply Forall_app. apply Forall_app in A.
      destruct A as [A1 A2]. split; [now apply Forall_le_weaken|].
      constructor; [simpl; lia|now apply Forall_le_weaken].
    + rewrite app_assoc. apply Forall_app. split.
      * now apply Forall_le_weaken.
      * constructor; [simpl; lia|constructor].
  - destruct (isOpen s).
    + rewrite !map_app. simpl. rewrite map_app in B, Hid.
      now apply NoDup_insert.
    + rewrite app_assoc, map_app. simpl. now apply NoDup_snoc.
  - rewrite (set_new N.eqb _ _ _ Hget). apply Forall_app. split.
    + revert C. apply Forall_pending_weaken; lia.
    + constructor; [simpl; lia|constructor].
  - rewrite (set_new N.eqb _ _ _ Hget), map_app. simpl. now apply NoDup_snoc.
  - rewrite (set_new N.eqb _ _ _ Hget), map_app. simpl. now apply NoDup_snoc.
  - apply Forall_app. split.
    + revert F. apply Forall_timers_weaken; lia.
    + constructor; [simpl; lia|constructor].
  - rewrite map_app. apply Forall_app. split.
    + revert G. apply Forall_lt_weaken; lia.
    + constructor; [simpl; lia|constructor].
Qed.

Lemma sendUnsubscribe_wf (stream feed : string) (s : State) :
  wf s -> wf (_sendUnsubscribe stream feed s).
Proof.
  intros [A B C D E F G]. rewrite sendUnsubscribe_eq.
  pose proof (fresh_id _ _ A) as Hid.
  constructor; unfold issued in *; simpl; trivial.
  - rewrite <- app_assoc. simpl. apply Forall_app. apply Forall_app in A.
    destruct A as [A1 A2]. split; [now apply Forall_le_weaken|].
    constructor; [simpl; lia|now apply Forall_le_weaken].
  - rewrite !map_app. simpl. rewrite map_app in B, Hid.
    now apply NoDup_insert.
  - revert C. apply Forall_pending_weaken; lia.
  - revert F. apply Forall_timers_weaken; lia.
Qed.

(** A fresh identity keeps the state well formed. *)
Lemma fresh_wf (s : State) : wf s -> wf (snd (fresh s)).
Proof.
  intros [A B C D E F G]. constructor; simpl; trivial.
  - revert C. apply Forall_pending_weaken; lia.
  - revert F. apply Forall_timers_weaken; lia.
  - revert G. apply Forall_lt_weaken; lia.
Qed.

Lemma then_wf (p : nat) (r : Reaction) (s : State) : wf s -> wf (then_ p r s).
Proof.
  apply wf_same; trivial. unfold then_; simpl.
  apply (keys_modify Nat.eqb).
Qed.

(** *** Well-formedness is kept by every operation *)

(** Changes to fields that [wf] does not read. *)
Ltac wf_unread := apply wf_same; reflexivity.

Lemma subscribe_wf (stream feed : string) (l : Listener) (s : State) :
  wf s -> wf (subscribe stream feed l s).
Proof.
  intros W. unfold subscribe.
  destruct (get String.eqb (subscription_id stream feed) (_subscriptions s))
    as [sub|].
  - apply fresh_wf in W. simpl in *.
    destruct (get Nat.eqb l (listeners sub)); revert W; wf_unread.
  - apply (sendSubscribe_wf stream feed) in W.
    destruct (_sendSubscribe stream feed s) as [s1 p]. simpl in W.
    apply (then_wf p (FinallyMark (subscription_id stream feed))) in W.
    apply fresh_wf in W. apply fresh_wf in W. simpl in *.
    revert W. wf_unread.
Qed.

Lemma run_unsubscribe_wf (u : Unsubscribe) (s : State) :
  wf s -> wf (run_unsubscribe u s).
Proof.
  intros W. unfold run_unsubscribe.
  assert (W1 : wf (removeEventListener (u_stream u) (u_wrapper u) s))
    by (revert W; wf_unread).
  destruct (get String.eqb (u_id u) _) as [sub|]; trivial.
  destruct (Nat.eqb _ 0); [|revert W1; wf_unread].
  match goal with |- wf (if isOpen ?x then _ else _) =>
    assert (W2 : wf x) by (revert W1; wf_unread); destruct (isOpen x) end;
    trivial.
  now apply sendUnsubscribe_wf.
Qed.

Lemma replay_wf (entry : string * SubscriptionState) (s : State) :
  wf s -> wf (replay entry s).
Proof.
  intros W. destruct entry as [id sub]. unfold replay.
  destruct (promiseFinished sub); trivial.
  apply (sendSubscribe_wf (stream sub) (feed sub)) in W.
  destruct (_sendSubscribe (stream sub) (feed sub) s) as [s1 p]. simpl in W.
  apply (then_wf p (CatchAbort (failureController sub))) in W.
  apply (then_wf p (FinallyMark id)) in W.
  revert W. wf_unread.
Qed.

Lemma handleOpen_wf (s : State) : wf s -> wf (_handleOpen s).
Proof.
  intros W. unfold _handleOpen. destruct (resubscribe s); trivial.
  apply fold_left_keeps; trivial. intros s' e. apply replay_wf.
Qed.

Lemma socket_open_wf (s : State) : wf s -> wf (socket_open s).
Proof.
  intros W. unfold socket_open.
  assert (W1 : wf (_handleOpen (set_isOpen true s)))
    by (apply handleOpen_wf; revert W; wf_unread).
  revert W1. apply wf_same; trivial.
  unfold issued; simpl. now rewrite app_nil_r.
Qed.

Lemma handleClose_wf (s : State) : wf s -> wf (_handleClose s).
Proof.
  intros W. unfold _handleClose.
  match goal with |- wf (set__pendingRequests [] (fold_left _ _ ?x)) =>
    assert (W1 : wf x) end.
  { destruct (negb (resubscribe s)); trivial.
    match goal with |- wf (set__subscriptions [] ?x) =>
      assert (W1 : wf x); [|revert W1; wf_unread] end.
    apply fold_left_keeps; trivial. intros s' e W'.
    apply fold_left_keeps; trivial. intros s'' lu. apply run_unsubscribe_wf. }
  match goal with |- wf (set__pendingRequests [] ?x) =>
    assert (W2 : wf x) end.
  { apply fold_left_keeps; trivial. intros s' kp. apply settle_wf. }
  destruct W2 as [A B C D E F G]. constructor; simpl; trivial; constructor.
Qed.

Lemma socket_close_wf (s : State) : wf s -> wf (socket_close s).
Proof.
  intros W. apply handleClose_wf. revert W. wf_unread.
Qed.

Lemma timer_callback_wf (t : Timer) (s : State) :
  wf s -> wf (timer_callback t s).
Proof.
  intros W. unfold timer_callback. destruct (has _ _ _); trivial.
  apply settle_wf. now apply delete_pending_wf.
Qed.

Lemma advance_wf (ms : N) (s : State) : wf s -> wf (advance ms s).
Proof.
  intros W. unfold advance. apply fold_left_keeps.
  - intros s' t. apply timer_callback_wf.
  - destruct W as [A B C D E F G]. constructor; simpl; trivial.
    rewrite Forall_forall in *. intros t Ht. apply F.
    now apply filter_In in Ht.
Qed.

Lemma call_unsubscribe_wf (n : nat) (s : State) :
  wf s -> wf (call_unsubscribe n s).
Proof.
  intros W. unfold call_unsubscribe.
  destruct (nth_error (calls s) n) as [c|]; trivial.
  destruct (promise_state s (c_promise c)); trivial.
  now apply run_unsubscribe_wf.
Qed.

Lemma step_wf (s : State) (e : Event) : wf s -> wf (step s e).
Proof.
  intros W. destruct e; simpl.
  - now apply subscribe_wf.
  - now apply call_unsubscribe_wf.
  - now apply socket_open_wf.
  - now apply socket_close_wf.
  - now apply socket_message_wf.
  - now apply advance_wf.
  - revert W. wf_unread.
Qed.

Lemma new_wf (resub : bool) : wf (new resub).
Proof. constructor; simpl; constructor. Qed.

(** *** Pending requests have unsettled promises *)

Lemma live_same (s s' : State) :
  _pendingRequests s' = _pendingRequests s -> timers s' = timers s ->
  (forall q, request_state s' q = request_state s q) ->
  map fst (promises s') = map fst (promises s) ->
  live s -> live s'.
Proof.
  intros H1 H2 H3 H4 [A B]. constructor; rewrite ?H1, ?H2; trivial.
  revert A. apply Forall_impl. intros kp. now rewrite H3, H4.
Qed.

(** Changes to fields that [live] does not read. *)
Ltac live_unread := apply live_same; reflexivity.

Lemma corr_incl (t : Timer) (l l' : list (N * nat)) :
  incl l' l -> corr t l -> corr t l'.
Proof. unfold corr. intros H. now apply incl_Forall. Qed.

Lemma delete_incl (k : N) (m : list (N * nat)) : incl (delete N.eqb k m) m.
Proof. intros x. apply In_delete. Qed.

Lemma delete_key_gone (k : N) (x : N * nat) (m : list (N * nat)) :
  NoDup (map fst m) -> In x (delete N.eqb k m) -> fst x <> k.
Proof.
  induction m as [|[k' v'] tl IH]; simpl; [tauto|].
  intros Hnd. inversion Hnd as [|? ? Hk Hnd']; subst.
  destruct (N.eqb k k') eqn:E.
  - apply N.eqb_eq in E. subst k'. intros Hin Heq. apply Hk.
    apply in_map_iff. now exists x.
  - apply N.eqb_neq in E. intros [<-|Hin]; [simpl; congruence|now apply IH].
Qed.

Lemma NoDup_snd_inj (m : list (N * nat)) (k k' : N) (p : nat) :
  NoDup (map snd m) -> In (k, p) m -> In (k', p) m -> k = k'.
Proof.
  induction m as [|[k0 p0] tl IH]; simpl; [tauto|].
  intros Hnd. inversion Hnd as [|? ? Hp Hnd']; subst.
  intros [H1|H1] [H2|H2].
  - congruence.
  - injection H1 as -> ->. elim Hp. apply in_map_iff. now exists (k', p).
  - injection H2 as -> ->. elim Hp. apply in_map_iff. now exists (k, p).
  - now apply IH.
Qed.

(** Settle the promise of one pending request and delete the request. *)
Lemma settle_delete_live (k : N) (p q : nat) (st : Settled) (s : State) :
  wf s -> live s ->
  (forall kp, In kp (delete N.eqb k (_pendingRequests s)) -> snd kp <> q) ->
  live (settle q st
          (set__pendingRequests (delete N.eqb k (_pendingRequests s)) s)).
Proof.
  intros W [A B] Hq. constructor.
  - rewrite settle_pendingRequests. simpl.
    rewrite Forall_forall in *. intros kp Hin.
    pose proof (Hq kp Hin) as Hn.
    apply In_delete in Hin. destruct (A kp Hin) as [A1 A2].
    rewrite settle_other; trivial. split; trivial.
    pose proof (settle_view_eq q st
      (set__pendingRequests (delete N.eqb k (_pendingRequests s)) s)) as V.
    unfold settle_view in V. injection V. intros. simpl in *. congruence.
  - rewrite settle_timers, settle_pendingRequests. simpl.
    revert B. apply Forall_impl. intros t. apply corr_incl, delete_incl.
Qed.

Lemma set_pending_reaction (m : list (N * nat)) (st : Settled)
    (r : Reaction) (s : State) :
  run_reaction st r (set__pendingRequests m s) =
  set__pendingRequests m (run_reaction st r s).
Proof.
  destruct r as [id|ctrl]; simpl.
  - now destruct (get String.eqb id (_subscriptions s)).
  - destruct st; trivial. unfold abort. simpl.
    now destruct (has Nat.eqb ctrl (aborted s)).
Qed.

Lemma set_pending_reactions (m : list (N * nat)) (st : Settled)
    (rs : list Reaction) (s : State) :
  fold_left (fun acc r => run_reaction st r acc) rs
    (set__pendingRequests m s) =
  set__pendingRequests m
    (fold_left (fun acc r => run_reaction st r acc) rs s).
Proof.
  revert s. induction rs as [|r rs IH]; intros s; simpl; trivial.
  now rewrite set_pending_reaction, IH.
Qed.

Lemma set_pending_settle (m : list (N * nat)) (p : nat) (st : Settled)
    (s : State) :
  set__pendingRequests m (settle p st s) =
  settle p st (set__pendingRequests m s).
Proof.
  unfold settle. simpl.
  destruct (get Nat.eqb p (promises s)) as [[[] rs]|]; trivial.
  now rewrite <- set_pending_reactions.
Qed.

Lemma handler_live (handler : option json -> State -> State)
    (detail : option json) (s : State) :
  settles_found handler -> wf s -> live s -> live (handler detail s).
Proof.
  intros Hh W L.
  destruct (Hh detail s) as [->|(k & p & st & _ & Hp & ->)]; trivial.
  rewrite settle_pendingRequests, set_pending_settle.
  apply (settle_delete_live k p); trivial.
  intros [k' p'] Hin. simpl. intros ->.
  pose proof (delete_key_gone _ _ _ (wf_pending_keys s W) Hin) as Hk.
  apply In_delete in Hin. apply (get_In N.eqb N.eqb_eq) in Hp.
  apply Hk. simpl.
  now apply (NoDup_snd_inj _ _ _ _ (wf_pending_promises s W) Hin Hp).
Qed.

Lemma socket_message_live (data : option json) (s : State) :
  wf s -> live s -> live (socket_message data s).
Proof.
  intros W L. unfold socket_message.
  destruct (onMessage data) as [d|]; trivial.
  rewrite dispatchEvent_eq, manager_listeners_same.
  apply (handler_live _ (ev_detail d) s (manager_listeners_settles d) W) in L.
  revert L. live_unread.
Qed.

Lemma timer_callback_live (t : Timer) (s : State) :
  wf s -> live s -> corr t (_pendingRequests s) ->
  live (timer_callback t s).
Proof.
  intros W L C. unfold timer_callback. destruct (has _ _ _); trivial.
  apply (settle_delete_live _ (tm_reject t)); trivial.
  intros kp Hin Heq.
  pose proof (delete_key_gone _ _ _ (wf_pending_keys s W) Hin) as Hk.
  apply In_delete in Hin. unfold corr in C. rewrite Forall_forall in C.
  apply Hk. symmetry. now apply (C kp Hin).
Qed.

Lemma timer_callback_incl (t : Timer) (s : State) :
  incl (_pendingRequests (timer_callback t s)) (_pendingRequests s).
Proof.
  unfold timer_callback. destruct (has _ _ _); [|apply incl_refl].
  unfold reject. rewrite settle_pendingRequests. simpl. apply delete_incl.
Qed.

Lemma timer_callbacks_live (due : list Timer) (s : State) :
  wf s -> live s -> Forall (fun t => corr t (_pendingRequests s)) due ->
  live (fold_left (fun acc t => timer_callback t acc) due s).
Proof.
  revert s. induction due as [|t due IH]; intros s W L C; simpl; trivial.
  inversion C as [|? ? Ct Cd]; subst.
  apply IH.
  - now apply timer_callback_wf.
  - now apply timer_callback_live.
  - revert Cd. apply Forall_impl. intros t'.
    apply corr_incl, timer_callback_incl.
Qed.

Lemma Forall_filter {A : Type} (P : A -> Prop) (f : A -> bool) (l : list A) :
  Forall P l -> Forall P (filter f l).
Proof.
  rewrite !Forall_forall. intros H x Hx. apply H.
  now apply filter_In in Hx.
Qed.

Lemma advance_live (ms : N) (s : State) : wf s -> live s -> live (advance ms s).
Proof.
  intros W L. unfold advance. apply timer_callbacks_live.
  - destruct W as [A B C D E F G]. constructor; simpl; trivial.
    now apply Forall_filter.
  - destruct L as [A B]. constructor; simpl; trivial.
    now apply Forall_filter.
  - simpl. apply Forall_filter. apply (live_timers s L).
Qed.

Lemma request_state_app_old (s : State) (q : nat)
    (ps ps' : list (nat * Promise)) :
  In q (map fst ps) ->
  match get Nat.eqb q (ps ++ ps') with
  | Some pr => p_state pr
  | None => Pending
  end =
  match get Nat.eqb q ps with Some pr => p_state pr | None => Pending end.
Proof.
  intros Hin. rewrite get_app.
  destruct (get Nat.eqb q ps) eqn:E; trivial.
  apply (get_None Nat.eqb Nat.eqb_eq) in E. contradiction.
Qed.

Lemma sendSubscribe_live (stream feed : string) (s : State) :
  wf s -> live s -> live (fst (_sendSubscribe stream feed s)).
Proof.
  intros [A B C D E F G] [LA LB]. rewrite sendSubscribe_eq. simpl.
  destruct (fresh_key _ _ _ C) as [Hk Hp].
  assert (Hget : get N.eqb (_requestId s + 1)%N (_pendingRequests s) = None)
    by now apply (get_None N.eqb N.eqb_eq).
  assert (Hnew : get Nat.eqb (uid s) (promises s) = None).
  { apply (get_None Nat.eqb Nat.eqb_eq). intros Hin.
    rewrite Forall_forall in G. apply G in Hin. lia. }
  constructor; simpl; rewrite (set_new N.eqb _ _ _ Hget).
  - apply Forall_app. split.
    + revert LA. apply Forall_impl. intros kp [H1 H2].
      unfold request_state in *. simpl.
      rewrite (request_state_app_old s); trivial. split; trivial.
      rewrite map_app. apply in_or_app. now left.
    + constructor; [|constructor]. simpl. unfold request_state. simpl.
      rewrite get_app, Hnew. simpl. rewrite Nat.eqb_refl. split; trivial.
      rewrite map_app. apply in_or_app. right. now left.
  - apply Forall_app. split.
    + rewrite Forall_forall in *. intros t Ht. unfold corr.
      apply Forall_app. split; [apply (LB t Ht)|].
      constructor; [|constructor]. simpl. apply F in Ht. lia.
    + constructor; [|constructor]. unfold corr. simpl.
      apply Forall_app. split.
      * rewrite Forall_forall in *. intros kp Hkp. apply C in Hkp. lia.
      * constructor; [tauto|constructor].
Qed.

Lemma then_request_state (p : nat) (r : Reaction) (s : State) (q : nat) :
  request_state (then_ p r s) q = request_state s q.
Proof.
  unfold request_state, then_. simpl.
  destruct (Nat.eq_dec q p) as [->|Hn].
  - rewrite (get_modify_same Nat.eqb).
    now destruct (get Nat.eqb p (promises s)).
  - now rewrite (get_modify_other Nat.eqb Nat.eqb_eq).
Qed.

Lemma then_live (p : nat) (r : Reaction) (s : State) :
  live s -> live (then_ p r s).
Proof.
  apply live_same; trivial.
  - apply then_request_state.
  - unfold then_; simpl. apply (keys_modify Nat.eqb).
Qed.

Lemma subscribe_live (stream feed : string) (l : Listener) (s : State) :
  wf s -> live s -> live (subscribe stream feed l s).
Proof.
  intros W L. unfold subscribe.
  destruct (get String.eqb (subscription_id stream feed) (_subscriptions s))
    as [sub|].
  - simpl. destruct (get Nat.eqb l (listeners sub)); revert L; live_unread.
  - apply (sendSubscribe_live stream feed) in L; trivial.
    destruct (_sendSubscribe stream feed s) as [s1 p]. simpl in L.
    apply (then_live p (FinallyMark (subscription_id stream feed))) in L.
    simpl. revert L. live_unread.
Qed.

Lemma run_unsubscribe_live (u : Unsubscribe) (s : State) :
  live s -> live (run_unsubscribe u s).
Proof.
  intros L. unfold run_unsubscribe.
  destruct (get String.eqb (u_id u) _) as [sub|]; [|revert L; live_unread].
  destruct (Nat.eqb _ 0); [|revert L; live_unread].
  match goal with |- live (if isOpen ?x then _ else _) =>
    destruct (isOpen x) end; revert L; live_unread.
Qed.

Lemma replay_live (entry : string * SubscriptionState) (s : State) :
  wf s -> live s -> live (replay entry s).
Proof.
  intros W L. destruct entry as [id sub]. unfold replay.
  destruct (promiseFinished sub); trivial.
  apply (sendSubscribe_live (stream sub) (feed sub)) in L; trivial.
  destruct (_sendSubscribe (stream sub) (feed sub) s) as [s1 p]. simpl in L.
  apply (then_live p (CatchAbort (failureController sub))) in L.
  apply (then_live p (FinallyMark id)) in L.
  revert L. live_unread.
Qed.

Lemma fold_left_keeps2 {A S : Type} (P Q : S -> Prop) (f : S -> A -> S)
    (l : list A) (s : S) :
  (forall s' a, P s' -> P (f s' a)) ->
  (forall s' a, P s' -> Q s' -> Q (f s' a)) ->
  P s -> Q s -> Q (fold_left f l s).
Proof.
  intros Hp Hq. revert s. induction l as [|a l IH]; simpl; auto.
Qed.

Lemma handleOpen_live (s : State) : wf s -> live s -> live (_handleOpen s).
Proof.
  intros W L. unfold _handleOpen. destruct (resubscribe s); trivial.
  apply (fold_left_keeps2 wf live); trivial.
  - intros s' e. apply replay_wf.
  - intros s' e. apply replay_live.
Qed.

Lemma socket_open_live (s : State) : wf s -> live s -> live (socket_open s).
Proof.
  intros W L. unfold socket_open.
  assert (L1 : live (_handleOpen (set_isOpen true s))).
  { apply handleOpen_live; [revert W; wf_unread|revert L; live_unread]. }
  revert L1. live_unread.
Qed.

Lemma socket_close_live (s : State) : live (socket_close s).
Proof.
  unfold socket_close, _handleClose. constructor; simpl; [constructor|].
  apply Forall_forall. intros t _. constructor.
Qed.

Lemma step_live (s : State) (e : Event) : wf s -> live s -> live (step s e).
Proof.
  intros W L. destruct e; simpl.
  - now apply subscribe_live.
  - unfold call_unsubscribe.
    destruct (nth_error (calls s) call) as [c|]; trivial.
    destruct (promise_state s (c_promise c)); trivial.
    now apply run_unsubscribe_live.
  - now apply socket_open_live.
  - apply socket_close_live.
  - now apply socket_message_live.
  - now apply advance_live.
  - revert L. live_unread.
Qed.

Lemma new_live (resub : bool) : live (new resub).
Proof. constructor; simpl; constructor. Qed.

(** Every state the manager can reach is well formed and live. *)
Lemma run_inv (s : State) (es : list Event) :
  wf s /\ live s -> wf (run s es) /\ live (run s es).
Proof.
  intros H. unfold run.
  apply (fold_left_keeps (fun x => wf x /\ live x)); trivial.
  intros s' e [W L]. split.
  - now apply step_wf.
  - now apply step_live.
Qed.

Lemma reachable_inv (resub : bool) (es : list Event) :
  wf (run (new resub) es) /\ live (run (new resub) es).
Proof. apply run_inv. split; [apply new_wf|apply new_live]. Qed.

(** *** Correlation of requests and frames *)


Lemma manager_listeners_hit (type : string) (msg : json) (s : State)
    (k : N) (p : nat) :
  live s -> get N.eqb k (_pendingRequests s) = Some p ->
  frame_id (Some msg) = Some k ->
  request_state
    (manager_listeners {| ev_type := type; ev_detail := Some msg |} s) p =
  if String.eqb type "subscriptionResponse" then Resolved (Some msg)
  else if String.eqb type "error"
       then Rejected (WsError (Json.get "message" msg))
       else request_state s p.
Proof.
  intros L Hp Hk. unfold manager_listeners; simpl.
  unfold frame_id in Hk.
  destruct (Json.get "request_id" msg) as [rid|] eqn:Er; [|discriminate].
  pose proof (live_pending s L) as LP. rewrite Forall_forall in LP.
  destruct (LP _ (get_In N.eqb N.eqb_eq _ _ _ Hp)) as [P1 P2]. simpl in *.
  destruct (String.eqb type "subscriptionResponse") eqn:E1.
  - apply String.eqb_eq in E1. subst type. simpl.
    unfold onSubscriptionResponse, pending_get. rewrite ?Er, Hk, Hp.
    now apply settle_pending.
  - destruct (String.eqb type "error"); trivial.
    unfold onError, pending_get. rewrite ?Er, Hk, Hp.
    now apply settle_pending.
Qed.

Lemma socket_message_hit (type : string) (msg : json) (s : State)
    (k : N) (p : nat) :
  live s -> get N.eqb k (_pendingRequests s) = Some p ->
  frame_id (Some msg) = Some k ->
  onMessage (Some msg) = Some {| ev_type := type; ev_detail := Some msg |} ->
  request_state (socket_message (Some msg) s) p =
  if String.eqb type "subscriptionResponse" then Resolved (Some msg)
  else if String.eqb type "error"
       then Rejected (WsError (Json.get "message" msg))
       else request_state s p.
Proof.
  intros L Hp Hk E. unfold socket_message. rewrite E, dispatchEvent_eq.
  now apply (manager_listeners_hit type msg s k p).
Qed.


(** *** Time *)

Lemma timer_callback_static (t : Timer) (s : State) :
  static_view (timer_callback t s) = static_view s.
Proof.
  unfold timer_callback. destruct (has _ _ _); trivial.
  unfold reject. now rewrite settle_static.
Qed.

Lemma advance_static (ms : N) (s : State) :
  static_view (advance ms s) = static_view s.
Proof.
  unfold advance.
  apply (fold_left_keeps (fun s' => static_view s' = static_view s)); trivial.
  intros s' t H. now rewrite timer_callback_static.
Qed.

Lemma quiet_static (e : Event) (s : State) :
  is_quiet e = true -> static_view (step s e) = static_view s.
Proof.
  destruct e; try discriminate; intros _; simpl.
  - apply socket_message_static.
  - apply advance_static.
Qed.

Lemma run_quiet_static (es : list Event) (s : State) :
  forallb is_quiet es = true -> static_view (run s es) = static_view s.
Proof.
  revert s. induction es as [|e es IH]; intros s H; simpl in *; trivial.
  apply andb_prop in H as [H1 H2].
  change (static_view (run (step s e) es) = static_view s).
  rewrite IH; trivial. now apply quiet_static.
Qed.

(** *** [subscribe] *)

Lemma get_shape (id : string) (subs : list (string * SubscriptionState)) :
  get String.eqb id (shape subs) =
  option_map entry_shape (get String.eqb id subs).
Proof.
  induction subs as [|[k v] tl IH]; simpl; trivial.
  now destruct (String.eqb id k).
Qed.

Lemma get_promises_of (id : string)
    (subs : list (string * SubscriptionState)) :
  get String.eqb id (promises_of subs) =
  option_map promise (get String.eqb id subs).
Proof.
  induction subs as [|[k v] tl IH]; simpl; trivial.
  now destruct (String.eqb id k).
Qed.


(** [subscribe] for a key that has no entry. *)
Lemma subscribe_new_eq (stream feed : string) (l : Listener) (s : State) :
  wf s ->
  get String.eqb (subscription_id stream feed) (_subscriptions s) = None ->
  subscribe stream feed l s =
  Build_State (resubscribe s) (isOpen s)
    (if isOpen s then onOpen s
     else onOpen s ++ [subscribe_frame (_requestId s + 1) stream feed])
    (if isOpen s
     then sent s ++ [subscribe_frame (_requestId s + 1) stream feed]
     else sent s)
    (evListeners s ++ [(stream, new_wrapper (uid s) l)]) (invoked s)
    (_subscriptions s ++
     [(subscription_id stream feed, new_entry (uid s) stream feed l)])
    (_requestId s + 1)%N
    (_pendingRequests s ++ [((_requestId s + 1)%N, uid s)])
    (promises s ++
     [(uid s, {| p_state := Pending;
                 p_reactions :=
                   [FinallyMark (subscription_id stream feed)] |})])
    (timers s ++
     [{| tm_due := (clock s + 10000)%Z;
         tm_requestId := (_requestId s + 1)%N; tm_reject := uid s |}])
    (clock s) (aborted s) (S (S (S (uid s))))
    (calls s ++ [new_call (uid s) stream feed l]).
Proof.
  intros [A B C D E F G] Hget. unfold subscribe. rewrite Hget.
  rewrite sendSubscribe_eq.
  destruct (fresh_key _ _ _ C) as [Hk Hp].
  assert (Hpend : get N.eqb (_requestId s + 1)%N (_pendingRequests s) = None)
    by now apply (get_None N.eqb N.eqb_eq).
  assert (Hnew : get Nat.eqb (uid s) (promises s) = None).
  { apply (get_None Nat.eqb Nat.eqb_eq). intros Hin.
    rewrite Forall_forall in G. apply G in Hin. lia. }
  unfold then_, fresh, addEventListener. simpl.
  rewrite (set_new N.eqb _ _ _ Hpend).
  rewrite (modify_app_new Nat.eqb Nat.eqb_eq _ _ _ _ Hnew).
  rewrite (set_new String.eqb _ _ _ Hget).
  rewrite (modify_app_new String.eqb String.eqb_eq _ _ _ _ Hget).
  reflexivity.
Qed.

(** [subscribe] for a key whose entry already has the listener. *)
Lemma subscribe_joined_eq (stream feed : string) (l : Listener) (s : State)
    (sub : SubscriptionState) (u : Unsubscribe) :
  get String.eqb (subscription_id stream feed) (_subscriptions s) = Some sub ->
  get Nat.eqb l (listeners sub) = Some u ->
  subscribe stream feed l s =
  set_calls
    (calls s ++
     [{| c_promise := promise sub; c_unsubscribe := u;
         c_signal := failureController sub |}])
    (set_uid (S (uid s)) s).
Proof.
  intros Hget Hl. unfold subscribe, fresh. rewrite Hget. simpl.
  now rewrite Hl.
Qed.

Lemma get_snoc_new {V : Type} (id : string) (v : V)
    (m : list (string * V)) :
  get String.eqb id m = None -> get String.eqb id (m ++ [(id, v)]) = Some v.
Proof.
  intros H. rewrite get_app, H. simpl. now rewrite String.eqb_refl.
Qed.

(** The entry found under [id] after frames and time, given the entry
    that was there before. *)
Lemma entry_after_quiet (id : string) (s s' : State)
    (sub : SubscriptionState) :
  static_view s' = static_view s ->
  get String.eqb id (_subscriptions s) = Some sub ->
  exists sub',
    get String.eqb id (_subscriptions s') = Some sub' /\
    entry_shape sub' = entry_shape sub /\ promise sub' = promise sub.
Proof.
  intros V Hget. unfold static_view in V. injection V as _ _ _ _ _ _ _ _ _ Hs Hp.
  pose proof (get_shape id (_subscriptions s')) as H1.
  pose proof (get_promises_of id (_subscriptions s')) as H2.
  rewrite Hs, get_shape, Hget in H1. rewrite Hp, get_promises_of, Hget in H2.
  destruct (get String.eqb id (_subscriptions s')) as [sub'|]; [|discriminate].
  exists sub'. simpl in *. split; trivial. split; congruence.
Qed.

(** C2: from any state the manager reaches in which the key has no
    entry, two [subscribe] calls with the same stream, feed and listener,
    with nothing but inbound frames and the passing of time between them,
    issue one subscribe frame in all (sent when the socket is open, left
    for its [open] event otherwise), advance the correlation counter by
    one, add one entry to the index, with that listener alone, register
    one wrapper for the listener on the event target, and both calls wait
    on the same request promise, pending under the id of that frame. *)
Theorem C2_subscribe_twice_one_frame (resub : bool) (es quiet : list Event)
    (stream feed : string) (l : Listener) :
  let s := run (new resub) es in
  let s1 := subscribe stream feed l s in
  let s2 := subscribe stream feed l (run s1 quiet) in
  let id := subscription_id stream feed in
  let frame := subscribe_frame (_requestId s + 1) stream feed in
  let call := new_call (uid s) stream feed l in
  get String.eqb id (_subscriptions s) = None ->
  forallb is_quiet quiet = true ->
  sent s2 = (if isOpen s then sent s ++ [frame] else sent s) /\
  onOpen s2 = (if isOpen s then onOpen s else onOpen s ++ [frame]) /\
  _requestId s2 = (_requestId s + 1)%N /\
  shape (_subscriptions s2) =
    shape (_subscriptions s) ++
    [(id, entry_shape (new_entry (uid s) stream feed l))] /\
  evListeners s2 = evListeners s ++ [(stream, new_wrapper (uid s) l)] /\
  calls s2 = calls s ++ [call; call] /\
  get N.eqb (_requestId s + 1)%N (_pendingRequests s1) = Some (uid s) /\
  request_state s1 (fst (c_promise call)) = Pending.
Proof.
  intros s s1 s2 id frame call Hget Hq.
  destruct (reachable_inv resub es) as [W L]. fold s in W, L.
  pose proof (subscribe_new_eq stream feed l s W Hget) as E1. fold s1 in E1.
  pose proof (run_quiet_static quiet s1 Hq) as V.
  assert (G1 : get String.eqb id (_subscriptions s1) =
               Some (new_entry (uid s) stream feed l)).
  { rewrite E1. simpl. now apply get_snoc_new. }
  destruct (entry_after_quiet id s1 (run s1 quiet) _ V G1)
    as (sub' & G2 & Hshape & Hprom).
  unfold entry_shape in Hshape. injection Hshape as Hs1 Hs2 Hs3 Hs4.
  simpl in Hs3, Hs4, Hprom.
  assert (E2 : s2 = set_calls (calls (run s1 quiet) ++ [call])
                      (set_uid (S (uid (run s1 quiet))) (run s1 quiet))).
  { unfold s2. rewrite (subscribe_joined_eq stream feed l _ sub'
                          (new_unsubscribe (uid s) stream feed l) G2).
    - unfold call, new_call. now rewrite Hprom, Hs4.
    - rewrite Hs3. simpl. now rewrite Nat.eqb_refl. }
  unfold static_view in V.
  injection V as V1 V2 V3 V4 V5 V6 V7 V8 V9 V10 V11.
  rewrite E2. simpl. rewrite V3, V4, V5, V6, V8, V10. rewrite E1. simpl.
  repeat split; trivial.
  - unfold shape. rewrite map_app. reflexivity.
  - now rewrite <- app_assoc.
  - pose proof (wf_pending s W) as C.
    destruct (fresh_key _ _ _ C) as [Hk Hp].
    rewrite get_app.
    assert (Hn : get N.eqb (_requestId s + 1)%N (_pendingRequests s) = None)
      by now apply (get_None N.eqb N.eqb_eq).
    rewrite Hn. simpl. now rewrite N.eqb_refl.
  - unfold request_state. simpl. rewrite get_app.
    assert (Hnew : get Nat.eqb (uid s) (promises s) = None).
    { apply (get_None Nat.eqb Nat.eqb_eq). intros Hin.
      pose proof (wf_promises s W) as G.
      rewrite Forall_forall in G. apply G in Hin. lia. }
    rewrite Hnew. simpl. now rewrite Nat.eqb_refl.
Qed.

(** C2 at the first call on a fresh manager whose socket has opened. *)
Lemma C2_subscribe_twice_witness :
  let s2 :=
    subscribe "ticker.s" "BTC_USDT_Perp@500" 0
      (run (subscribe "ticker.s" "BTC_USDT_Perp@500" 0
              (run (new true) [EOpen])) [EAdvance 5]) in
  sent s2 = [subscribe_frame 1 "ticker.s" "BTC_USDT_Perp@500"] /\
  evListeners s2 = [("ticker.s"%string, new_wrapper 0 0)].
Proof.
  pose proof (C2_subscribe_twice_one_frame true [EOpen] [EAdvance 5]
                "ticker.s" "BTC_USDT_Perp@500" 0 eq_refl eq_refl) as H.
  destruct H as (H1 & _ & _ & _ & H5 & _).
  split; [exact H1|exact H5].
Defined.

(** *** Settled promises stay settled *)

Lemma grows_refl (s : State) : grows s s.
Proof. intros q H. tauto. Qed.

Lemma grows_trans (s1 s2 s3 : State) :
  grows s1 s2 -> grows s2 s3 -> grows s1 s3.
Proof.
  intros H12 H23 q H1. destruct (H12 q H1) as [H2 E12].
  destruct (H23 q H2) as [H3 E23]. split; trivial.
  intros Hn. rewrite E23, E12; trivial. rewrite E12; trivial.
Qed.

Lemma grows_same (s s' : State) : promises s' = promises s -> grows s s'.
Proof.
  intros H q Hq. unfold request_state. rewrite H. tauto.
Qed.

Lemma grows_fold {A : Type} (f : State -> A -> State) (l : list A)
    (s : State) :
  (forall s' a, grows s' (f s' a)) -> grows s (fold_left f l s).
Proof.
  intros Hf. apply (fold_left_keeps (fun s' => grows s s')).
  - intros s' a H. apply (grows_trans _ _ _ H), Hf.
  - apply grows_refl.
Qed.

Lemma settle_grows (p : nat) (st : Settled) (s : State) :
  grows s (settle p st s).
Proof.
  intros q Hq. split.
  - pose proof (settle_view_eq p st s) as V. unfold settle_view in V.
    injection V. intros. congruence.
  - apply settle_settled.
Qed.

Lemma then_grows (p : nat) (r : Reaction) (s : State) : grows s (then_ p r s).
Proof.
  intros q Hq. split.
  - unfold then_; simpl.
    change (In q (keys (modify Nat.eqb p
                          (fun pr => {| p_state := p_state pr;
                                        p_reactions := p_reactions pr ++ [r] |})
                          (promises s)))).
    now rewrite (keys_modify Nat.eqb).
  - intros _. apply then_request_state.
Qed.

Lemma sendSubscribe_grows (stream feed : string) (s : State) :
  grows s (fst (_sendSubscribe stream feed s)).
Proof.
  intros q Hq. rewrite sendSubscribe_eq. simpl. split.
  - rewrite map_app. apply in_or_app. now left.
  - intros _. unfold request_state. simpl.
    now apply (request_state_app_old s).
Qed.

Lemma subscribe_grows (stream feed : string) (l : Listener) (s : State) :
  grows s (subscribe stream feed l s).
Proof.
  unfold subscribe.
  destruct (get String.eqb (subscription_id stream feed) (_subscriptions s))
    as [sub|].
  - simpl. destruct (get Nat.eqb l (listeners sub)); now apply grows_same.
  - pose proof (sendSubscribe_grows stream feed s) as H.
    destruct (_sendSubscribe stream feed s) as [s1 p]. simpl in *.
    apply (grows_trans _ _ _ H).
    apply (grows_trans _ _ _
             (then_grows p (FinallyMark (subscription_id stream feed)) s1)).
    now apply grows_same.
Qed.

Lemma run_unsubscribe_promises (u : Unsubscribe) (s : State) :
  promises (run_unsubscribe u s) = promises s.
Proof.
  unfold run_unsubscribe.
  destruct (get String.eqb (u_id u) _) as [sub|]; trivial.
  destruct (Nat.eqb _ 0); trivial.
  match goal with |- promises (if isOpen ?x then _ else _) = _ =>
    destruct (isOpen x) end; trivial.
Qed.

Lemma replay_grows (entry : string * SubscriptionState) (s : State) :
  grows s (replay entry s).
Proof.
  destruct entry as [id sub]. unfold replay.
  destruct (promiseFinished sub); [|apply grows_refl].
  pose proof (sendSubscribe_grows (stream sub) (feed sub) s) as H.
  destruct (_sendSubscribe (stream sub) (feed sub) s) as [s1 p]. simpl in *.
  apply (grows_trans _ _ _ H).
  apply (grows_trans _ _ _
           (then_grows p (CatchAbort (failureController sub)) s1)).
  apply (grows_trans _ _ _
           (then_grows p (FinallyMark id)
              (then_ p (CatchAbort (failureController sub)) s1))).
  now apply grows_same.
Qed.

Lemma socket_open_grows (s : State) : grows s (socket_open s).
Proof.
  unfold socket_open. apply (grows_trans _ (_handleOpen (set_isOpen true s))).
  - unfold _handleOpen. simpl. destruct (resubscribe s).
    + apply (grows_trans _ (set_isOpen true s)); [now apply grows_same|].
      apply grows_fold. intros s' e. apply replay_grows.
    + now apply grows_same.
  - now apply grows_same.
Qed.

Lemma handleClose_grows (s : State) : grows s (_handleClose s).
Proof.
  unfold _handleClose.
  match goal with |- grows s (set__pendingRequests [] (fold_left ?f ?l ?x)) =>
    apply (grows_trans _ x);
      [|apply (grows_trans _ (fold_left f l x)); [|now apply grows_same]] end.
  - destruct (negb (resubscribe s)); [|apply grows_refl].
    match goal with |- grows s (set__subscriptions [] ?x) =>
      apply (grows_trans _ x); [|now apply grows_same] end.
    apply grows_fold. intros s' e. apply grows_fold. intros s'' lu.
    apply grows_same, run_unsubscribe_promises.
  - apply grows_fold. intros s' kp. apply settle_grows.
Qed.

Lemma socket_message_grows (data : option json) (s : State) :
  grows s (socket_message data s).
Proof.
  unfold socket_message. destruct (onMessage data) as [d|];
    [|apply grows_refl].
  rewrite dispatchEvent_eq, manager_listeners_same.
  match goal with |- grows s (set_invoked _ ?x) =>
    apply (grows_trans _ x); [|now apply grows_same] end.
  destruct (manager_listeners_settles d (ev_detail d) s)
    as [->|(k & p & st & _ & _ & ->)]; [apply grows_refl|].
  apply (grows_trans _ (settle p st s)); [apply settle_grows|].
  now apply grows_same.
Qed.

Lemma advance_grows (ms : N) (s : State) : grows s (advance ms s).
Proof.
  unfold advance.
  match goal with |- grows s (fold_left _ _ ?x) =>
    apply (grows_trans _ x); [now apply grows_same|] end.
  apply grows_fold. intros s' t. unfold timer_callback.
  destruct (has _ _ _); [|apply grows_refl].
  match goal with |- grows s' (reject _ _ ?x) =>
    apply (grows_trans _ x); [now apply grows_same|] end.
  apply settle_grows.
Qed.

Lemma step_grows (s : State) (e : Event) : grows s (step s e).
Proof.
  destruct e; simpl.
  - apply subscribe_grows.
  - unfold call_unsubscribe.
    destruct (nth_error (calls s) call) as [c|]; [|apply grows_refl].
    destruct (promise_state s (c_promise c)); try apply grows_refl.
    apply grows_same, run_unsubscribe_promises.
  - apply socket_open_grows.
  - unfold socket_close.
    apply (grows_trans _ (set_isOpen false s)); [now apply grows_same|].
    apply handleClose_grows.
  - apply socket_message_grows.
  - apply advance_grows.
  - now apply grows_same.
Qed.

Lemma run_grows (s : State) (es : list Event) : grows s (run s es).
Proof. unfold run. apply grows_fold. intros s' e. apply step_grows. Qed.

(** *** What the environment leaves of the listeners *)

Lemma static_env_view (s s' : State) :
  static_view s' = static_view s -> env_view s' = env_view s.
Proof.
  unfold static_view, env_view. intros H. injection H. intros. congruence.
Qed.

Lemma replay_env_view (entry : string * SubscriptionState) (s : State) :
  env_view (replay entry s) = env_view s.
Proof.
  destruct entry as [id sub]. unfold replay.
  destruct (promiseFinished sub); trivial.
  rewrite sendSubscribe_eq. unfold env_view. simpl.
  now rewrite shape_modify.
Qed.

Lemma socket_open_env_view (s : State) :
  env_view (socket_open s) = env_view s.
Proof.
  unfold socket_open.
  change (env_view (_handleOpen (set_isOpen true s)) = env_view s).
  unfold _handleOpen. simpl. destruct (resubscribe s); trivial.
  apply (fold_left_keeps (fun s' => env_view s' = env_view s)); trivial.
  intros s' e H. now rewrite replay_env_view.
Qed.

Lemma socket_close_env_view (s : State) :
  resubscribe s = true -> env_view (socket_close s) = env_view s.
Proof.
  intros H. unfold socket_close, _handleClose. simpl. rewrite H. simpl.
  match goal with |- env_view (set__pendingRequests [] ?x) = _ =>
    change (env_view x = env_view s) end.
  apply (fold_left_keeps (fun s' => env_view s' = env_view s)); trivial.
  intros s' kp E. rewrite <- E. apply static_env_view, settle_static.
Qed.

Lemma environment_env_view (e : Event) (s : State) :
  resubscribe s = true -> is_environment e = true ->
  env_view (step s e) = env_view s.
Proof.
  intros Hr. destruct e; try discriminate; intros _; simpl.
  - apply socket_open_env_view.
  - now apply socket_close_env_view.
  - apply static_env_view, socket_message_static.
  - apply static_env_view, advance_static.
Qed.

Lemma run_environment_env_view (es : list Event) (s : State) :
  resubscribe s = true -> forallb is_environment es = true ->
  env_view (run s es) = env_view s.
Proof.
  revert s. induction es as [|e es IH]; intros s Hr H; simpl in *; trivial.
  apply andb_prop in H as [H1 H2].
  pose proof (environment_env_view e s Hr H1) as E.
  change (env_view (run (step s e) es) = env_view s).
  rewrite IH; trivial. unfold env_view in E. injection E. intros. congruence.
Qed.

(** An event that keeps the entries keeps the resubscribe flag, the
    wrappers and the listeners. *)
Lemma keeps_entries_env_view (e : Event) (s : State) :
  keeps_entries (resubscribe s) e = true -> env_view (step s e) = env_view s.
Proof.
  unfold keeps_entries. intros H. apply andb_prop in H as [He Hc].
  destruct (resubscribe s) eqn:Hr; [now apply environment_env_view|].
  destruct e; try discriminate; simpl.
  - apply socket_open_env_view.
  - apply static_env_view, socket_message_static.
  - apply static_env_view, advance_static.
Qed.

Lemma run_keeps_entries_env_view (es : list Event) (s : State) :
  forallb (keeps_entries (resubscribe s)) es = true ->
  env_view (run s es) = env_view s.
Proof.
  revert s. induction es as [|e es IH]; intros s H; simpl in *; trivial.
  apply andb_prop in H as [H1 H2].
  pose proof (keeps_entries_env_view e s H1) as E.
  change (env_view (run (step s e) es) = env_view s).
  assert (Hr : resubscribe (step s e) = resubscribe s)
    by (unfold env_view in E; now injection E).
  rewrite IH; [exact E|]. now rewrite Hr.
Qed.

(** *** The three ways a pending request is rejected *)

(** Timers of other requests leave a pending request as it is. *)
Lemma timer_callbacks_other (due : list Timer) (s : State) (k : N) (p : nat) :
  Forall (fun t => tm_requestId t <> k /\ tm_reject t <> p) due ->
  get N.eqb k (_pendingRequests s) = Some p ->
  request_state s p = Pending -> In p (map fst (promises s)) ->
  let s' := fold_left (fun acc t => timer_callback t acc) due s in
  get N.eqb k (_pendingRequests s') = Some p /\
  request_state s' p = Pending /\ In p (map fst (promises s')).
Proof.
  revert s. induction due as [|t due IH]; intros s Hd Hk Hp Hin; simpl;
    [tauto|].
  inversion Hd as [|? ? [Ht1 Ht2] Hd']; subst.
  apply IH; trivial; unfold timer_callback; destruct (has _ _ _); trivial.
  - unfold reject. rewrite settle_pendingRequests. simpl.
    rewrite (get_delete_other N.eqb N.eqb_eq); auto.
  - unfold reject. rewrite settle_other; auto.
  - apply (settle_grows (tm_reject t) (Rejected timed_out)
             (set__pendingRequests
                (delete N.eqb (tm_requestId t) (_pendingRequests s)) s)).
    exact Hin.
Qed.

(** A timer rejects the request pending under its id. *)
Lemma timer_callback_hit (t : Timer) (s : State) :
  get N.eqb (tm_requestId t) (_pendingRequests s) = Some (tm_reject t) ->
  request_state s (tm_reject t) = Pending ->
  In (tm_reject t) (map fst (promises s)) ->
  request_state (timer_callback t s) (tm_reject t) = Rejected timed_out.
Proof.
  intros Hk Hp Hin. unfold timer_callback, has. rewrite Hk.
  unfold reject. now apply settle_pending.
Qed.

(** Closing rejects every pending request. *)
Lemma reject_all (kps : list (N * nat)) (s : State) (p : nat) :
  In p (map snd kps) -> In p (map fst (promises s)) ->
  request_state s p = Pending ->
  request_state
    (fold_left (fun acc kp => reject (snd kp) connection_closed acc) kps s) p =
  Rejected connection_closed.
Proof.
  revert s. induction kps as [|[k' p'] tl IH]; intros s Hin Hk Hp; simpl in *;
    [tauto|].
  destruct (Nat.eq_dec p' p) as [->|Hn].
  - assert (H1 : request_state (reject p connection_closed s) p =
                 Rejected connection_closed) by now apply settle_pending.
    assert (H2 : In p (map fst (promises (reject p connection_closed s))))
      by now apply (settle_grows p (Rejected connection_closed) s).
    pose proof (grows_fold
                  (fun acc kp => reject (snd kp) connection_closed acc) tl
                  (reject p connection_closed s)
                  (fun s' kp => settle_grows _ _ s') p H2) as [_ G].
    rewrite G; trivial. rewrite H1. discriminate.
  - destruct Hin as [Hin|Hin]; [contradiction|].
    apply IH; trivial.
    + now apply (settle_grows p' (Rejected connection_closed) s).
    + unfold reject. now rewrite settle_other.
Qed.

Lemma run_unsubscribe_closed (u : Unsubscribe) (s : State) :
  isOpen s = false -> closed_view (run_unsubscribe u s) = closed_view s.
Proof.
  intros Ho. unfold run_unsubscribe.
  destruct (get String.eqb (u_id u) _) as [sub|]; [|reflexivity].
  destruct (Nat.eqb _ 0); [|reflexivity]. simpl. rewrite Ho. reflexivity.
Qed.

Lemma unsubscribe_all_closed (entries : list (string * SubscriptionState))
    (s : State) :
  isOpen s = false ->
  closed_view
    (fold_left
       (fun acc entry =>
          fold_left (fun acc' lu => run_unsubscribe (snd lu) acc')
            (listeners (snd entry)) acc) entries s) =
  closed_view s.
Proof.
  intros Ho.
  apply (fold_left_keeps (fun x => closed_view x = closed_view s)); trivial.
  intros s' entry Hs'.
  apply (fold_left_keeps (fun x => closed_view x = closed_view s)); trivial.
  intros s'' lu Hs''. rewrite <- Hs''. apply run_unsubscribe_closed.
  unfold closed_view in Hs''. injection Hs'' as Hi _ _ _ _ _ _.
  now rewrite Hi.
Qed.

(** The socket closing rejects every pending request, whatever
    [resubscribe] is. *)
Lemma socket_close_rejects (s : State) (k : N) (p : nat) :
  live s -> get N.eqb k (_pendingRequests s) = Some p ->
  request_state (socket_close s) p = Rejected connection_closed.
Proof.
  intros [Lp _] Hk. unfold socket_close, _handleClose.
  set (m := if negb (resubscribe (set_isOpen false s))
            then set__subscriptions []
                   (fold_left
                      (fun acc entry =>
                         fold_left
                           (fun acc' lu => run_unsubscribe (snd lu) acc')
                           (listeners (snd entry)) acc)
                      (_subscriptions (set_isOpen false s))
                      (set_isOpen false s))
            else set_isOpen false s).
  assert (Hm : closed_view m = closed_view (set_isOpen false s)).
  { unfold m. destruct (negb (resubscribe (set_isOpen false s)));
      [|reflexivity].
    now rewrite <- (unsubscribe_all_closed
                      (_subscriptions (set_isOpen false s))
                      (set_isOpen false s) eq_refl). }
  unfold closed_view in Hm. simpl in Hm.
  injection Hm as _ _ _ _ Hp Hpr _.
  apply (get_In N.eqb N.eqb_eq) in Hk.
  rewrite Forall_forall in Lp. destruct (Lp _ Hk) as [Hpend Hin].
  simpl in Hpend, Hin.
  change (request_state
            (fold_left (fun acc kp => reject (snd kp) connection_closed acc)
               (_pendingRequests m) m) p = Rejected connection_closed).
  apply reject_all.
  - rewrite Hp. change p with (snd (k, p)). now apply in_map.
  - now rewrite Hpr.
  - unfold request_state in *. now rewrite Hpr.
Qed.

(** The request of a [subscribe] call for a new key stays pending for
    less than 10000 ms and is rejected by its timer at 10000 ms. *)
Lemma subscribe_timeout (stream feed : string) (l : Listener) (s : State)
    (ms : N) :
  wf s ->
  get String.eqb (subscription_id stream feed) (_subscriptions s) = None ->
  request_state (advance ms (subscribe stream feed l s)) (uid s) =
  if (ms <? 10000)%N then Pending else Rejected timed_out.
Proof.
  intros W Hget. rewrite (subscribe_new_eq stream feed l s W Hget).
  pose proof W as [A B C D E F G].
  destruct (fresh_key _ _ _ C) as [Hk Hp].
  assert (Hpend : get N.eqb (_requestId s + 1)%N (_pendingRequests s) = None)
    by now apply (get_None N.eqb N.eqb_eq).
  assert (Hnew : get Nat.eqb (uid s) (promises s) = None).
  { apply (get_None Nat.eqb Nat.eqb_eq). intros Hin.
    rewrite Forall_forall in G. apply G in Hin. lia. }
  unfold advance. simpl. rewrite filter_app, fold_left_app. simpl.
  match goal with |- request_state (fold_left ?f ?rest (fold_left ?f ?due ?x)) _ = _ =>
    destruct (timer_callbacks_other due x (_requestId s + 1)%N (uid s))
      as (K1 & K2 & K3) end.
  - apply Forall_filter. revert F. apply Forall_impl. intros t. lia.
  - simpl. rewrite get_app, Hpend. simpl. now rewrite N.eqb_refl.
  - unfold request_state. simpl. rewrite get_app, Hnew. simpl.
    now rewrite Nat.eqb_refl.
  - simpl. rewrite map_app. apply in_or_app. right. now left.
  - unfold is_due at 1. simpl.
    destruct (ms <? 10000)%N eqn:Ems.
    + apply N.ltb_lt in Ems.
      replace (clock s + 10000 <=? clock s + Z.of_N ms)%Z with false
        by (symmetry; apply Z.leb_gt; lia).
      simpl. exact K2.
    + apply N.ltb_ge in Ems.
      replace (clock s + 10000 <=? clock s + Z.of_N ms)%Z with true
        by (symmetry; apply Z.leb_le; lia).
      simpl. now apply timer_callback_hit.
Qed.

Lemma onMessage_data (msg : json) :
  is_data_frame msg = true ->
  onMessage (Some msg) =
  Some {| ev_type := strip_v1 (stream_of msg); ev_detail := Some msg |}.
Proof.
  unfold is_data_frame, onMessage. intros H.
  apply andb_prop in H as [H H3]. apply andb_prop in H as [H1 H2].
  apply negb_true_iff in H1, H2. rewrite H1, H2, H3. simpl.
  now rewrite andb_false_r.
Qed.

(** A wrapper registered under the type of an event is called with the
    [feed] of its detail. *)
Lemma deliveries_In (type : string) (msg : json) (w : Wrapper)
    (ls : list (string * Wrapper)) :
  In (type, w) ls ->
  In (w_listener w, Json.get "feed" msg)
    (deliveries {| ev_type := type; ev_detail := Some msg |} ls).
Proof.
  intros H. unfold deliveries. simpl. apply in_map_iff.
  exists (type, w). split; trivial. apply filter_In. split; trivial.
  simpl. apply String.eqb_refl.
Qed.

(** C10 (amended): let a [subscribe] call create a new entry.  The call
    is suspended on the new request; it throws, returning no handle, when
    the request times out, when an error frame carries its id, and when
    the socket closes.  Whatever frames, timers and open events follow,
    and whatever close events too while resubscribe is enabled, the entry
    stays in the index with the caller's listener, the listener's wrapper
    stays on the event target and is called with the feed of every data
    frame dispatched under the stream name, and a call that has thrown
    never returns. *)
Theorem C10_rejected_subscribe_keeps_entry (resub : bool)
    (es env : list Event) (stream feed : string) (l : Listener) :
  let s := run (new resub) es in
  let s1 := subscribe stream feed l s in
  let s2 := run s1 env in
  let id := subscription_id stream feed in
  let call := new_call (uid s) stream feed l in
  get String.eqb id (_subscriptions s) = None ->
  forallb (keeps_entries (resubscribe s)) env = true ->
  nth_error (calls s1) (List.length (calls s)) = Some call /\
  outcome s1 call = Suspended /\
  (forall ms, (10000 <= ms)%N -> outcome (advance ms s1) call = Threw timed_out) /\
  (forall msg,
     frame_id (Some msg) = Some (_requestId s + 1)%N ->
     onMessage (Some msg) =
       Some {| ev_type := "error"; ev_detail := Some msg |} ->
     outcome (socket_message (Some msg) s1) call =
       Threw (WsError (Json.get "message" msg))) /\
  outcome (socket_close s1) call = Threw connection_closed /\
  (exists sub,
     get String.eqb id (_subscriptions s2) = Some sub /\
     listeners sub = [(l, new_unsubscribe (uid s) stream feed l)]) /\
  In (stream, new_wrapper (uid s) l) (evListeners s2) /\
  (forall msg,
     is_data_frame msg = true -> strip_v1 (stream_of msg) = stream ->
     In (l, Json.get "feed" msg) (delivered (Some msg) s2) /\
     invoked (socket_message (Some msg) s2) =
       invoked s2 ++ delivered (Some msg) s2) /\
  (forall e later,
     outcome s2 call = Threw e -> outcome (run s2 later) call = Threw e).
Proof.
  intros s s1 s2 id call Hget Henv.
  destruct (reachable_inv resub es) as [W L]. fold s in W, L.
  pose proof (subscribe_new_eq stream feed l s W Hget) as E1. fold s1 in E1.
  pose proof (subscribe_wf stream feed l s W) as W1. fold s1 in W1.
  pose proof (subscribe_live stream feed l s W L) as L1. fold s1 in L1.
  pose proof W as [A B C D E F G].
  destruct (fresh_key _ _ _ C) as [Hk Hp].
  assert (Hpend : get N.eqb (_requestId s + 1)%N (_pendingRequests s) = None)
    by now apply (get_None N.eqb N.eqb_eq).
  assert (Hnew : get Nat.eqb (uid s) (promises s) = None).
  { apply (get_None Nat.eqb Nat.eqb_eq). intros Hin.
    rewrite Forall_forall in G. apply G in Hin. lia. }
  assert (P1 : get N.eqb (_requestId s + 1)%N (_pendingRequests s1) =
               Some (uid s)).
  { rewrite E1. simpl. rewrite get_app, Hpend. simpl. now rewrite N.eqb_refl. }
  assert (P2 : request_state s1 (uid s) = Pending).
  { rewrite E1. unfold request_state. simpl. rewrite get_app, Hnew. simpl.
    now rewrite Nat.eqb_refl. }
  assert (P3 : In (uid s) (map fst (promises s1))).
  { rewrite E1. simpl. rewrite map_app. apply in_or_app. right. now left. }
  assert (R1 : resubscribe s1 = resubscribe s) by now rewrite E1.
  rewrite <- R1 in Henv.
  pose proof (run_keeps_entries_env_view env s1 Henv) as V. fold s2 in V.
  unfold env_view in V. injection V as V1 V2 V3.
  split; [|split; [|split; [|split; [|split; [|split; [|split; [|split]]]]]]].
  - rewrite E1. simpl. rewrite nth_error_app2, Nat.sub_diag; trivial.
  - unfold outcome, promise_state. simpl. now rewrite P2.
  - intros ms Hms. unfold outcome, promise_state. simpl. unfold s1.
    rewrite subscribe_timeout; trivial.
    apply N.ltb_ge in Hms. now rewrite Hms.
  - intros msg Hk' Hd. unfold outcome, promise_state. simpl.
    now rewrite (socket_message_hit _ _ _ _ _ L1 P1 Hk' Hd).
  - unfold outcome, promise_state. simpl.
    now rewrite (socket_close_rejects s1 _ _ L1 P1).
  - pose proof (get_shape id (_subscriptions s2)) as H.
    rewrite V3, E1 in H. simpl in H. unfold shape in H.
    rewrite map_app in H. simpl in H.
    rewrite get_snoc_new in H.
    + destruct (get String.eqb id (_subscriptions s2)) as [sub|];
        [|discriminate].
      exists sub. split; trivial. simpl in H. injection H. intros. congruence.
    + change (get String.eqb id (shape (_subscriptions s)) = None).
      now rewrite get_shape, Hget.
  - rewrite V2, E1. simpl. apply in_or_app. right. now left.
  - intros msg Hd Hs. split; [|apply socket_message_invoked].
    unfold delivered. rewrite (onMessage_data msg Hd), Hs.
    apply (deliveries_In stream msg (new_wrapper (uid s) l)).
    rewrite V2, E1. simpl. apply in_or_app. right. now left.
  - intros e later. unfold outcome, promise_state. simpl.
    destruct (run_grows s1 env (uid s) P3) as [P4 _]. fold s2 in P4.
    destruct (run_grows s2 later (uid s) P4) as [_ P5].
    destruct (request_state s2 (uid s)) eqn:E2; try discriminate.
    intros [= <-]. rewrite P5; [reflexivity|discriminate].
Qed.

(** C10, witness: a manager with resubscribe disabled whose socket has
    opened, one [subscribe] call, and no answer for 10000 ms. *)
Lemma C10_rejected_subscribe_witness :
  let s := run (new false) [EOpen] in
  let s1 := subscribe "ticker.s" "BTC_USDT_Perp@500" 0 s in
  let s2 := run s1 [EAdvance 10000] in
  outcome (socket_close s1) (new_call (uid s) "ticker.s" "BTC_USDT_Perp@500" 0) =
    Threw connection_closed /\
  In ("ticker.s"%string, new_wrapper (uid s) 0) (evListeners s2).
Proof.
  pose proof (C10_rejected_subscribe_keeps_entry false [EOpen]
                [EAdvance 10000] "ticker.s" "BTC_USDT_Perp@500" 0
                eq_refl eq_refl) as H.
  destruct H as (_ & _ & _ & _ & H5 & _ & H7 & _).
  split; [exact H5|exact H7].
Defined.

(** C10 as stated fails when resubscribe is disabled: the close that
    rejects the request also removes the entry and the listener, and a
    data frame for the stream then calls nobody. *)
Lemma C10_close_without_resubscribe_rolls_back :
  let s1 :=
    run (new false) [EOpen; ESubscribe "ticker.s" "BTC_USDT_Perp@500" 0] in
  let s2 := run s1 [EClose] in
  let frame :=
    JObj [("stream", JStr "v1.ticker.s"); ("feed", JStr "tick")] in
  map fst (_subscriptions s1) = ["ticker.s:BTC_USDT_Perp@500"%string] /\
  map (outcome s1) (calls s1) = [Suspended] /\
  map (outcome s2) (calls s2) = [Threw connection_closed] /\
  _subscriptions s2 = [] /\
  evListeners s2 = [] /\
  is_data_frame frame = true /\
  delivered (Some frame) s1 = [(0, Some (JStr "tick"))] /\
  delivered (Some frame) s2 = [].
Proof. vm_compute. repeat split. Qed.

(** C1 (the code departs from the claim): with resubscribe enabled, a
    request still pending when the socket closes is rejected by the
    close; the rejection sets [promiseFinished], the entry stays in the
    index, and the next [open] event sends a second subscribe frame for
    it. *)
Theorem C1_pending_entry_is_replayed_on_reopen :
  let s1 :=
    run (new true) [EOpen; ESubscribe "ticker.s" "BTC_USDT_Perp@500" 0] in
  let s2 := run s1 [EClose] in
  let s3 := run s2 [EOpen] in
  sent s1 = [subscribe_frame 1 "ticker.s" "BTC_USDT_Perp@500"] /\
  map (fun e => promiseFinished (snd e)) (_subscriptions s1) = [false] /\
  map (outcome s1) (calls s1) = [Suspended] /\
  map (outcome s2) (calls s2) = [Threw connection_closed] /\
  map (fun e => promiseFinished (snd e)) (_subscriptions s2) = [true] /\
  sent s3 = [subscribe_frame 1 "ticker.s" "BTC_USDT_Perp@500";
             subscribe_frame 2 "ticker.s" "BTC_USDT_Perp@500"] /\
  map (fun e => promise (snd e)) (_subscriptions s3) = [(3, Replayed)] /\
  _pendingRequests s3 = [(2%N, 3)].
Proof. vm_compute. repeat split. Qed.

(** *** Stream names with the version prefix *)

Import RouterProofs.



Lemma deliveries_app (d : Dispatch) (a b : list (string * Wrapper)) :
  deliveries d (a ++ b) = deliveries d a ++ deliveries d b.
Proof.
  unfold deliveries. destruct (ev_detail d); trivial.
  now rewrite filter_app, map_app.
Qed.







(** *** The composite key *)

Lemma key_injective (s1 f1 s2 f2 : string) :
  has_colon s1 = false -> has_colon s2 = false ->
  subscription_id s1 f1 = subscription_id s2 f2 -> s1 = s2 /\ f1 = f2.
Proof.
  unfold subscription_id. revert s2.
  induction s1 as [|c r IH]; intros [|c' r'] H1 H2 E; simpl in *.
  - injection E as ->. tauto.
  - injection E as <- _. discriminate.
  - injection E as -> _. discriminate.
  - injection E as -> E. apply orb_false_elim in H1 as [_ H1].
    apply orb_false_elim in H2 as [_ H2].
    destruct (IH r' H1 H2 E) as [-> ->]. tauto.
Qed.

(** [subscribe] leaves the entries of other keys as they are. *)
Lemma subscribe_other_entry (id : string) (stream feed : string)
    (l : Listener) (s : State) :
  id <> subscription_id stream feed ->
  get String.eqb id (_subscriptions (subscribe stream feed l s)) =
  get String.eqb id (_subscriptions s).
Proof.
  intros Hid. unfold subscribe.
  destruct (get String.eqb (subscription_id stream feed) (_subscriptions s))
    as [sub|].
  - simpl. destruct (get Nat.eqb l (listeners sub)); simpl; trivial.
    now apply (get_modify_other String.eqb String.eqb_eq).
  - rewrite sendSubscribe_eq. simpl.
    rewrite (get_modify_other String.eqb String.eqb_eq); trivial.
    now apply (get_set_other String.eqb String.eqb_eq).
Qed.

(** How far the defect of the composite key goes: for two distinct
    (stream, feed) pairs whose stream names contain no [":"] the keys
    differ, and a [subscribe] call for one pair leaves the entry of the
    other as it is. *)
Lemma keys_differ_without_colon (resub : bool) (es : list Event)
    (stream1 feed1 stream2 feed2 : string) (l : Listener) :
  let s := run (new resub) es in
  has_colon stream1 = false -> has_colon stream2 = false ->
  (stream1, feed1) <> (stream2, feed2) ->
  subscription_id stream1 feed1 <> subscription_id stream2 feed2 /\
  get String.eqb (subscription_id stream1 feed1)
    (_subscriptions (subscribe stream2 feed2 l s)) =
  get String.eqb (subscription_id stream1 feed1) (_subscriptions s).
Proof.
  intros s H1 H2 Hne.
  assert (Hid : subscription_id stream1 feed1 <>
                subscription_id stream2 feed2).
  { intros E. apply Hne.
    destruct (key_injective _ _ _ _ H1 H2 E) as [-> ->]. reflexivity. }
  split; trivial. now apply subscribe_other_entry.
Qed.

(** C5 (the code departs from the claim): the identifier [subscribe]
    builds, which its comment calls unique, is the stream, [":"] and the
    feed, with no check on either.  The distinct pairs ("a:b", "c") and
    ("a", "b:c") have the same key, and subscribing to both gives one
    entry and one subscribe frame, with both listeners in that entry. *)
Theorem C5_keys_collide :
  let s :=
    run (new true) [EOpen; ESubscribe "a:b" "c" 0; ESubscribe "a" "b:c" 1] in
  ("a:b"%string, "c"%string) <> ("a"%string, "b:c"%string) /\
  subscription_id "a:b" "c" = subscription_id "a" "b:c" /\
  map fst (_subscriptions s) = ["a:b:c"%string] /\
  map (fun e => map fst (listeners (snd e))) (_subscriptions s) = [[0; 1]] /\
  sent s = [subscribe_frame 1 "a:b" "c"].
Proof. vm_compute. repeat split. discriminate. Qed.

End ManagerProofs.

(** ** The [timeout] option of the WebSocket transport *)

Module TransportProofs.
Import Json Router Manager ManagerViews ManagerProofs.
#[local] Open Scope list_scope.

Lemma run_manager (t : Transport.WebSocketTransport)
    (acts : list Transport.Action) :
  Transport._subscriptionManager (Transport.run t acts) =
  run (Transport._subscriptionManager t) (Transport.events acts).
Proof.
  revert t. induction acts as [|a acts IH]; intros t; trivial.
  change (Transport.run t (a :: acts))
    with (Transport.run (Transport.act t a) acts).
  rewrite IH. now destruct a.
Qed.

(** C8: two transports built from options that differ at most in
    [timeout], and then driven by the same socket events and calls while
    their [timeout] fields are assigned at will, have the same manager
    state; and on either, the request of a [subscribe] call for a new key
    is still pending after less than 10000 ms and rejected as timed out
    at 10000 ms, whatever the [timeout] field holds. *)
Theorem C8_timeout_option_is_not_used
    (o1 o2 : Transport.WebSocketTransportOptions)
    (acts1 acts2 : list Transport.Action)
    (stream feed : string) (l : Listener) (ms : N) :
  let t1 := Transport.run (Transport.new (Some o1)) acts1 in
  let t2 := Transport.run (Transport.new (Some o2)) acts2 in
  let m := Transport._subscriptionManager t1 in
  let subscribed :=
    Transport._subscriptionManager
      (Transport.act t1 (Transport.Do (ESubscribe stream feed l))) in
  Transport.opt_resubscribe o1 = Transport.opt_resubscribe o2 ->
  Transport.events acts1 = Transport.events acts2 ->
  JsMap.get String.eqb (subscription_id stream feed) (_subscriptions m) =
    None ->
  Transport._subscriptionManager t1 = Transport._subscriptionManager t2 /\
  last (timers subscribed)
    {| tm_due := 0; tm_requestId := 0; tm_reject := 0 |} =
    {| tm_due := (clock m + 10000)%Z;
       tm_requestId := (_requestId m + 1)%N; tm_reject := uid m |} /\
  request_state (advance ms subscribed) (uid m) =
    (if (ms <? 10000)%N then Pending else Rejected timed_out).
Proof.
  intros t1 t2 m subscribed Hr He Hget.
  assert (Em : m = run (new (Transport.nullish
                               (Transport.opt_resubscribe o1) true))
                     (Transport.events acts1)).
  { unfold m, t1. now rewrite run_manager. }
  assert (W : wf m) by (rewrite Em; apply reachable_inv).
  split; [|split].
  - unfold t1, t2. rewrite !run_manager. simpl. now rewrite Hr, He.
  - unfold subscribed. simpl. fold m.
    rewrite (subscribe_new_eq stream feed l m W Hget). simpl.
    apply last_last.
  - unfold subscribed. simpl. fold m. now apply subscribe_timeout.
Qed.

(** C8, witness: timeouts of 1 ms and of an hour. *)
Lemma C8_timeout_option_witness :
  let o1 :=
    {| Transport.opt_timeout := Some 1%Z; Transport.opt_resubscribe := None;
       Transport.opt_debug := None |} in
  let o2 :=
    {| Transport.opt_timeout := Some 3600000%Z;
       Transport.opt_resubscribe := None; Transport.opt_debug := None |} in
  let acts1 := [Transport.Do EOpen; Transport.SetTimeout 5] in
  let acts2 := [Transport.SetTimeout 7; Transport.Do EOpen] in
  Transport.timeout (Transport.run (Transport.new (Some o1)) acts1) = 5%Z /\
  Transport.timeout (Transport.run (Transport.new (Some o2)) acts2) = 7%Z /\
  Transport._subscriptionManager
    (Transport.run (Transport.new (Some o1)) acts1) =
  Transport._subscriptionManager
    (Transport.run (Transport.new (Some o2)) acts2).
Proof.
  split; [reflexivity|]. split; [reflexivity|].
  exact (proj1 (C8_timeout_option_is_not_used
                  {| Transport.opt_timeout := Some 1%Z;
                     Transport.opt_resubscribe := None;
                     Transport.opt_debug := None |}
                  {| Transport.opt_timeout := Some 3600000%Z;
                     Transport.opt_resubscribe := None;
                     Transport.opt_debug := None |}
                  [Transport.Do EOpen; Transport.SetTimeout 5]
                  [Transport.SetTimeout 7; Transport.Do EOpen]
                  "ticker.s" "BTC_USDT_Perp@500" 0 10000
                  eq_refl eq_refl eq_refl)).
Defined.

End TransportProofs.

(** ** The HTTP cookie session *)

Module HttpProofs.
Import Json Http Samples.
#[local] Open Scope list_scope.


Lemma logins_app (a b : list Fetch) : logins (a ++ b) = logins a + logins b.
Proof. unfold logins. now rewrite filter_app, length_app. Qed.

(** With an API key configured [_getCookie] makes one call, the login. *)
Lemma getCookie_calls (t : HttpTransport) (w : World) :
  no_apiKey t = false -> logins (snd (_getCookie t w)) = 1.
Proof.
  unfold no_apiKey, _getCookie. destruct (apiKey t) as [k|]; [|discriminate].
  intros H. now rewrite H.
Qed.

(** What a [request] call that needs no refresh does. *)
Lemma request_without_refresh (t : HttpTransport) (w : World)
    (endpointType : GrvtEndpointType) (path : string) :
  _refreshCookie t w = (t, [], Ok tt) ->
  fst (fst (request t w endpointType path true)) = t /\
  logins (snd (fst (request t w endpointType path true))) = 0.
Proof.
  intros H. unfold request. rewrite H.
  destruct (reply w) as [cause|status ok isJson text body]; simpl;
    [tauto|].
  destruct (negb ok || negb isJson); simpl; [tauto|].
  destruct body; simpl; tauto.
Qed.

(** What a [request] call whose refresh obtains a cookie does. *)
Lemma request_with_refresh (t : HttpTransport) (w : World)
    (endpointType : GrvtEndpointType) (path : string) :
  no_apiKey t = false ->
  _shouldRefreshCookie t w = Ok true ->
  logins (snd (fst (request t w endpointType path true))) = 1 /\
  (forall c,
     fst (_getCookie t w) = Some c ->
     fst (fst (request t w endpointType path true)) =
       {| apiKey := apiKey t; _cookie := Some c |}).
Proof.
  intros Hk Hs. unfold request, _refreshCookie. rewrite Hs.
  pose proof (getCookie_calls t w Hk) as Hl.
  destruct (_getCookie t w) as [[c|] calls]; simpl in *.
  - destruct (expires c); simpl; [|split; trivial; now intros c' [= ->]].
    destruct (reply w) as [cause|status ok isJson text body]; simpl.
    + rewrite logins_app, Hl. split; [reflexivity|]. now intros c' [= ->].
    + destruct (negb ok || negb isJson); simpl.
      * rewrite logins_app, Hl. split; [reflexivity|]. now intros c' [= ->].
      * destruct body; simpl; rewrite logins_app, Hl;
          (split; [reflexivity|]); now intros c' [= ->].
  - split; trivial. discriminate.
Qed.

(** While the cookie's expiry is more than the buffer away, the refresh
    check does nothing. *)
Lemma refresh_noop (k : option string) (c : GrvtCookie) (e : Z) (w : World) :
  no_apiKey {| apiKey := k; _cookie := Some c |} = false ->
  expires c = Some e -> (_cookieRefreshBuffer < e - now_check w)%Z ->
  _refreshCookie {| apiKey := k; _cookie := Some c |} w =
  ({| apiKey := k; _cookie := Some c |}, [], Ok tt).
Proof.
  intros Hk He Hw. unfold _refreshCookie, _shouldRefreshCookie.
  rewrite Hk. simpl. rewrite He.
  replace (e - now_check w <=? _cookieRefreshBuffer)%Z with false; trivial.
  symmetry. apply Z.leb_gt. exact Hw.
Qed.

Lemma requests_without_refresh (k : option string) (c : GrvtCookie) (e : Z)
    (ws : list World) (endpointType : GrvtEndpointType) (path : string) :
  no_apiKey {| apiKey := k; _cookie := Some c |} = false ->
  expires c = Some e ->
  Forall (fun w => (_cookieRefreshBuffer < e - now_check w)%Z) ws ->
  fst (requests {| apiKey := k; _cookie := Some c |} ws endpointType path) =
    {| apiKey := k; _cookie := Some c |} /\
  logins
    (snd (requests {| apiKey := k; _cookie := Some c |} ws endpointType path))
    = 0.
Proof.
  intros Hk He. induction ws as [|w ws IH]; intros Hws; simpl; [tauto|].
  inversion Hws as [|? ? Hw Hws']; subst.
  destruct (request_without_refresh _ w endpointType path
              (refresh_noop k c e w Hk He Hw)) as [R1 R2].
  destruct (request {| apiKey := k; _cookie := Some c |} w endpointType path
              true) as [[t1 calls] r]. simpl in R1, R2. subst t1.
  destruct (IH Hws') as [I1 I2].
  destruct (requests {| apiKey := k; _cookie := Some c |} ws endpointType
              path) as [t2 calls']. simpl in *.
  split; trivial. rewrite logins_app. lia.
Qed.

(** C7: with an API key configured and no cookie held, let the first
    authenticated request obtain a cookie.  It and any number of further
    authenticated requests, each made while the cookie's expiry is more
    than the 5000 ms buffer away, make one login round-trip in all (the
    refresh check of each later call does nothing) and leave that cookie
    held; one more request made once the expiry is within the buffer
    makes exactly one more login round-trip. *)
Theorem C7_cookie_refresh_idempotence (t : HttpTransport) (first : World)
    (later : list World) (late : World) (c : GrvtCookie) (e : Z)
    (endpointType : GrvtEndpointType) (path : string) :
  let session := requests t (first :: later) endpointType path in
  no_apiKey t = false ->
  _cookie t = None ->
  fst (_getCookie t first) = Some c ->
  expires c = Some e ->
  Forall (fun w => (_cookieRefreshBuffer < e - now_check w)%Z) later ->
  (e - now_check late <= _cookieRefreshBuffer)%Z ->
  _cookieRefreshBuffer = 5000%Z /\
  logins (snd session) = 1 /\
  _cookie (fst session) = Some c /\
  Forall (fun w => _refreshCookie (fst session) w = (fst session, [], Ok tt))
    later /\
  logins (snd (fst (request (fst session) late endpointType path true))) = 1.
Proof.
  intros session Hk Hc Hg He Hlater Hlate.
  assert (Hs : _shouldRefreshCookie t first = Ok true).
  { unfold _shouldRefreshCookie. now rewrite Hk, Hc. }
  destruct (request_with_refresh t first endpointType path Hk Hs) as [R1 R2].
  specialize (R2 c Hg).
  assert (Hk' : no_apiKey {| apiKey := apiKey t; _cookie := Some c |} = false)
    by exact Hk.
  destruct (requests_without_refresh (apiKey t) c e later endpointType path
              Hk' He Hlater) as [I1 I2].
  assert (Es : fst session = {| apiKey := apiKey t; _cookie := Some c |} /\
               logins (snd session) = 1).
  { unfold session. simpl.
    destruct (request t first endpointType path true) as [[t1 calls] r].
    simpl in R1, R2. subst t1.
    destruct (requests {| apiKey := apiKey t; _cookie := Some c |} later
                endpointType path) as [t2 calls']. simpl in *.
    split; trivial. rewrite logins_app. lia. }
  destruct Es as [Es1 Es2]. rewrite Es1.
  split; [reflexivity|]. split; trivial. split; [reflexivity|]. split.
  - revert Hlater. apply Forall_impl. intros w Hw.
    now apply (refresh_noop _ _ e).
  - apply request_with_refresh; trivial.
    unfold _shouldRefreshCookie. rewrite Hk'. simpl. rewrite He.
    f_equal. apply Z.leb_le. exact Hlate.
Qed.


(** C7, witness: a cookie that expires at 60000; requests at 0, 1000 and
    54999, then one at 55000. *)
Lemma C7_cookie_refresh_witness :
  let t := {| apiKey := Some "key"; _cookie := None |} in
  let session :=
    requests t [world_at 0; world_at 1000; world_at 54999] EDGE "path" in
  logins (snd session) = 1 /\
  logins (snd (fst (request (fst session) (world_at 55000) EDGE "path" true)))
    = 1.
Proof.
  assert (Hlater : Forall
            (fun w => (_cookieRefreshBuffer < 60000 - now_check w)%Z)
            [world_at 1000; world_at 54999]).
  { repeat constructor. }
  assert (Hlate : (60000 - now_check (world_at 55000)
                   <= _cookieRefreshBuffer)%Z).
  { unfold _cookieRefreshBuffer. simpl. lia. }
  pose proof (C7_cookie_refresh_idempotence
                {| apiKey := Some "key"; _cookie := None |}
                (world_at 0) [world_at 1000; world_at 54999]
                (world_at 55000)
                {| gravity := "abc123"; expires := Some 60000%Z |} 60000
                EDGE "path" eq_refl eq_refl eq_refl eq_refl Hlater Hlate)
    as (_ & H2 & _ & _ & H5).
  split; [exact H2|exact H5].
Defined.

(** C6 (amended): an authenticated request on a transport with no API
    key makes no call to [fetch] and leaves the transport as it is; the
    promise it returns is rejected with an [HttpRequestError], the
    transport error that also reports network failures, whose [cause] is
    the error raised by the refresh check. *)
Theorem C6_request_without_api_key (t : HttpTransport) (w : World)
    (endpointType : GrvtEndpointType) (path : string) :
  no_apiKey t = true ->
  request t w endpointType path true =
    (t, [], Throw (HttpRequestError None None
                     (Some (Error no_api_key_message)))) /\
  instanceof_TransportError
    (HttpRequestError None None (Some (Error no_api_key_message))) = true.
Proof.
  intros H. split; trivial.
  unfold request, _refreshCookie, _shouldRefreshCookie. now rewrite H.
Qed.

(** C6, witness: a transport built without an API key. *)
Lemma C6_request_without_api_key_witness :
  request {| apiKey := None; _cookie := None |} (world_at 0) TRADE_DATA
    "full/v1/create_order" true =
  ({| apiKey := None; _cookie := None |}, [],
   Throw (HttpRequestError None None (Some (Error no_api_key_message)))).
Proof.
  exact (proj1 (C6_request_without_api_key
                  {| apiKey := None; _cookie := None |} (world_at 0)
                  TRADE_DATA "full/v1/create_order" eq_refl)).
Defined.

(** C6 as stated fails: the error the caller receives is an instance of
    [TransportError], of the same class and shape as the one a network
    failure gives, and differs from it only in its [cause]. *)
Lemma C6_error_is_a_transport_error :
  let t := {| apiKey := None; _cookie := None |} in
  let offline :=
    {| now_check := 0; login := LoginThrows; now_login := 0;
       reply := FetchThrows "fetch failed" |} in
  snd (request t offline TRADE_DATA "full/v1/create_order" true) =
    Throw (HttpRequestError None None (Some (Error no_api_key_message))) /\
  snd (request t offline MARKET_DATA "full/v1/ticker" false) =
    Throw (HttpRequestError None None (Some (Error "fetch failed"))) /\
  instanceof_TransportError
    (HttpRequestError None None (Some (Error no_api_key_message))) = true /\
  instanceof_TransportError (Error no_api_key_message) = false.
Proof. repeat split. Qed.

End HttpProofs.

(** ** The HTTP transport: further properties *)

Module HttpFacts.
Import Json Http Samples HttpProofs.
#[local] Open Scope list_scope.





Lemma refreshCookie_cases (t : HttpTransport) (w : World) :
  (exists e, _refreshCookie t w = (t, [], Throw e)) \/
  (_refreshCookie t w = (t, [], Ok tt) /\ no_apiKey t = false /\
   _shouldRefreshCookie t w = Ok false) \/
  (exists k,
     apiKey t = Some k /\ no_apiKey t = false /\
     _shouldRefreshCookie t w = Ok true /\
     match fst (_getCookie t w) with
     | Some c =>
         _refreshCookie t w =
         ({| apiKey := apiKey t; _cookie := Some c |}, [LoginCall k],
          match toISOString_throws (expires c) with
          | Some e => Throw e
          | None => Ok tt
          end)
     | None =>
         _refreshCookie t w =
         (t, [LoginCall k],
          Throw (HttpRequestError None
                   (Some "Failed to obtain authentication cookie"%string)
                   None))
     end).
Proof.
  unfold _refreshCookie, _shouldRefreshCookie, _getCookie, no_apiKey.
  destruct (apiKey t) as [k|] eqn:Ek; [|left; eauto].
  destruct (String.eqb k "") eqn:Ee; [left; eauto|].
  destruct (_cookie t) as [c|] eqn:Ec.
  - destruct (expires c) as [e|] eqn:Ex.
    + destruct ((e - now_check w <=? _cookieRefreshBuffer)%Z) eqn:Hd.
      * right; right. exists k. repeat split.
        simpl. destruct (match login w with
                         | LoginThrows => None
                         | LoginResponse _ _ => _ end) as [c'|];
          [destruct (toISOString_throws (expires c'))|]; reflexivity.
      * right; left. auto.
    + right; left. auto.
  - right; right. exists k. repeat split.
    simpl. destruct (match login w with
                     | LoginThrows => None
                     | LoginResponse _ _ => _ end) as [c'|];
      [destruct (toISOString_throws (expires c'))|]; reflexivity.
Qed.


(** X2: an authenticated request reaches the API only with a [Cookie]
    header, made of the cookie the transport holds after the call; that
    cookie was held before and not yet due, or was obtained by the login
    of this very call.  (The headers are those [request] sets: no custom
    [fetchOptions] replace them.) *)
Theorem authenticated_request_carries_cookie (t : HttpTransport) (w : World)
    (endpointType endpointType' : GrvtEndpointType) (path path' : string)
    (header : option string) :
  let t1 := fst (fst (request t w endpointType path true)) in
  In (RequestCall endpointType' path' header)
     (snd (fst (request t w endpointType path true))) ->
  exists c,
    _cookie t1 = Some c /\
    header = Some ("gravity=" ++ gravity c)%string /\
    endpointType' = endpointType /\ path' = path /\
    no_apiKey t = false /\
    ((_cookie t = Some c /\ _shouldRefreshCookie t w = Ok false) \/
     (fst (_getCookie t w) = Some c /\ _shouldRefreshCookie t w = Ok true)).
Proof.
  cbv zeta. unfold request.
  destruct (refreshCookie_cases t w)
    as [[e He]|[[He [Hk Hs]]|[k [Hk [Hn [Hs He]]]]]].
  - rewrite He. simpl. intros [].
  - rewrite He.
    assert (Hc : exists c, _cookie t = Some c).
    { unfold _shouldRefreshCookie in Hs. rewrite Hk in Hs.
      destruct (_cookie t) as [c|]; [eauto|discriminate]. }
    destruct Hc as [c Hc]. rewrite Hc.
    destruct (reply w) as [cause|status ok isJson text body]; simpl;
      [|destruct (negb ok || negb isJson); simpl; [|destruct body; simpl]];
      (intros [H|[]]; inversion H; subst;
       exists c; repeat split; auto).
  - destruct (fst (_getCookie t w)) as [c|] eqn:Eg; rewrite He.
    + destruct (toISOString_throws (expires c));
        [simpl; intros [H|[]]; discriminate|].
      simpl _cookie.
      destruct (reply w) as [cause|status ok isJson text body]; simpl;
        [|destruct (negb ok || negb isJson); simpl; [|destruct body; simpl]];
        (intros [H|[H|[]]]; [discriminate|]; inversion H; subst;
         exists c; repeat split; auto).
    + simpl. intros [H|[]]. discriminate.
Qed.

Lemma authenticated_request_carries_cookie_witness :
  In (RequestCall TRADE_DATA "full/v1/positions" (Some "gravity=abc123"))
     (snd (fst (request {| apiKey := Some "key"; _cookie := None |}
                  (world_at 0) TRADE_DATA "full/v1/positions" true))) /\
  exists c,
    _cookie
      (fst (fst (request {| apiKey := Some "key"; _cookie := None |}
                   (world_at 0) TRADE_DATA "full/v1/positions" true))) =
      Some c /\
    Some "gravity=abc123"%string = Some ("gravity=" ++ gravity c)%string.
Proof.
  assert (H : In (RequestCall TRADE_DATA "full/v1/positions"
                    (Some "gravity=abc123"))
                (snd (fst (request {| apiKey := Some "key"; _cookie := None |}
                             (world_at 0) TRADE_DATA "full/v1/positions"
                             true)))).
  { vm_compute. right. left. reflexivity. }
  split; [exact H|].
  destruct (authenticated_request_carries_cookie
              {| apiKey := Some "key"; _cookie := None |} (world_at 0)
              TRADE_DATA TRADE_DATA "full/v1/positions" "full/v1/positions"
              (Some "gravity=abc123"%string) H)
    as [c [Hc [Hh _]]].
  exists c. split; assumption.
Defined.



(** The first login of a transport that has a key. *)
Lemma first_login (k g : string) (h : SetCookie) (w : World) :
  k <> ""%string ->
  login w = LoginResponse true (Some h) -> gravityMatch h = Some g ->
  _refreshCookie {| apiKey := Some k; _cookie := None |} w =
  ({| apiKey := Some k;
      _cookie :=
        Some {| gravity := g;
                expires :=
                  match expiresMatch h with
                  | Some d => d
                  | None => Some (now_login w + 24 * 60 * 60 * 1000)%Z
                  end |} |},
   [LoginCall k],
   match
     toISOString_throws
       (match expiresMatch h with
        | Some d => d
        | None => Some (now_login w + 24 * 60 * 60 * 1000)%Z
        end)
   with
   | Some e => Throw e
   | None => Ok tt
   end).
Proof.
  intros Hk Hl Hg.
  assert (Hn : String.eqb k "" = false) by now apply String.eqb_neq.
  unfold _refreshCookie, _shouldRefreshCookie, _getCookie, no_apiKey.
  cbn [apiKey _cookie]. rewrite Hn, Hl. cbn [negb]. rewrite Hg.
  cbn [expires].
  destruct (toISOString_throws _); reflexivity.
Qed.

(** What [request] does once the refresh has gone through. *)
Lemma request_after_refresh (t t1 : HttpTransport) (calls1 : list Fetch)
    (c : GrvtCookie) (w : World) (endpointType : GrvtEndpointType)
    (path : string) :
  _refreshCookie t w = (t1, calls1, Ok tt) -> _cookie t1 = Some c ->
  fst (request t w endpointType path true) =
  (t1, calls1 ++ [RequestCall endpointType path
                    (Some ("gravity=" ++ gravity c)%string)]).
Proof.
  intros Hr Hc. unfold request. rewrite Hr, Hc.
  destruct (reply w) as [cause|status ok isJson text body]; simpl;
    [|destruct (negb ok || negb isJson); simpl; [|destruct body; simpl]];
    reflexivity.
Qed.





(** X5: a login without an [expires] attribute gives a cookie that
    expires 24 hours after the login returned, so that the next
    authenticated request logs in again exactly when it is made
    86,395,000 ms or more after that time. *)
Theorem default_expiry_is_one_day (k g : string) (w next : World)
    (endpointType : GrvtEndpointType) (path : string) :
  let t0 := {| apiKey := Some k; _cookie := None |} in
  let t1 := fst (fst (request t0 w endpointType path true)) in
  k <> ""%string ->
  login w =
    LoginResponse true
      (Some {| gravityMatch := Some g; expiresMatch := None |}) ->
  _cookie t1 =
    Some {| gravity := g; expires := Some (now_login w + 86400000)%Z |} /\
  logins (snd (fst (request t1 next endpointType path true))) =
    (if (now_login w + 86395000 <=? now_check next)%Z then 1 else 0).
Proof.
  cbv zeta. intros Hk Hl.
  assert (Hn : String.eqb k "" = false) by now apply String.eqb_neq.
  pose proof (first_login k g _ w Hk Hl eq_refl) as Hf.
  cbn [expiresMatch toISOString_throws] in Hf.
  rewrite (request_after_refresh _ _ _ _ w endpointType path Hf eq_refl).
  cbn [fst _cookie]. split; [reflexivity|].
  set (c := {| gravity := g;
               expires := Some (now_login w + 24 * 60 * 60 * 1000)%Z |}).
  set (t1 := {| apiKey := Some k; _cookie := Some c |}).
  destruct (now_login w + 86395000 <=? now_check next)%Z eqn:Hd.
  - apply (request_with_refresh t1 next endpointType path).
    + unfold no_apiKey. simpl. exact Hn.
    + unfold _shouldRefreshCookie, no_apiKey, _cookieRefreshBuffer.
      cbn [apiKey _cookie t1 c expires]. rewrite Hn. f_equal.
      apply Z.leb_le. apply Z.leb_le in Hd. lia.
  - apply (request_without_refresh t1 next endpointType path).
    apply (refresh_noop (Some k) c (now_login w + 24 * 60 * 60 * 1000)%Z next).
    + unfold no_apiKey. simpl. exact Hn.
    + reflexivity.
    + unfold _cookieRefreshBuffer. apply Z.leb_gt in Hd. lia.
Qed.

Lemma default_expiry_is_one_day_witness :
  let w :=
    {| now_check := 0;
       login :=
         LoginResponse true
           (Some {| gravityMatch := Some "abc123"; expiresMatch := None |});
       now_login := 10;
       reply := FetchResponse 200 true true None (Some JNull) |} in
  let t1 :=
    fst (fst (request {| apiKey := Some "key"; _cookie := None |} w
                TRADE_DATA "full/v1/positions" true)) in
  logins (snd (fst (request t1 (world_at 86395009) TRADE_DATA
                      "full/v1/positions" true))) = 0 /\
  logins (snd (fst (request t1 (world_at 86395010) TRADE_DATA
                      "full/v1/positions" true))) = 1.
Proof.
  cbv zeta.
  pose (w := {| now_check := 0;
                login :=
                  LoginResponse true
                    (Some {| gravityMatch := Some "abc123";
                             expiresMatch := None |});
                now_login := 10;
                reply := FetchResponse 200 true true None (Some JNull) |}).
  split.
  - exact (proj2 (default_expiry_is_one_day "key" "abc123" w
                    (world_at 86395009) TRADE_DATA "full/v1/positions"
                    ltac:(discriminate) eq_refl)).
  - exact (proj2 (default_expiry_is_one_day "key" "abc123" w
                    (world_at 86395010) TRADE_DATA "full/v1/positions"
                    ltac:(discriminate) eq_refl)).
Defined.

End HttpFacts.

(** ** API responses and the raw client *)

Module RawClientFacts.
Import Json Router Http Base RawClient Config Samples.
#[local] Open Scope list_scope.





Ltac find_method :=
  first
    [ exists getInstrument; reflexivity
    | exists getAllInstruments; reflexivity
    | exists getFilteredInstruments; reflexivity
    | exists getMiniTicker; reflexivity
    | exists getTicker; reflexivity
    | exists getOrderbookLevels; reflexivity
    | exists getTrades; reflexivity
    | exists getTradeHistory; reflexivity
    | exists getCandlestick; reflexivity
    | exists getFundingRate; reflexivity
    | exists createOrder; reflexivity
    | exists cancelOrder; reflexivity
    | exists cancelAllOrders; reflexivity
    | exists getOrder; reflexivity
    | exists getOpenOrders; reflexivity
    | exists getOrderHistory; reflexivity
    | exists getFillHistory; reflexivity
    | exists getPositions; reflexivity
    | exists getSubAccountSummary; reflexivity
    | exists getSubAccountHistory; reflexivity
    | exists getAggregatedAccountSummary; reflexivity
    | exists getFundingAccountSummary; reflexivity
    | exists deposit; reflexivity
    | exists getDepositHistory; reflexivity
    | exists transfer; reflexivity
    | exists getTransferHistory; reflexivity
    | exists withdrawal; reflexivity
    | exists getWithdrawalHistory; reflexivity ].

(** X8: the raw client and the endpoint tables agree: every path the
    tables list for trade data or market data is requested by a method of
    the client, from the endpoint type of that table, with authentication
    exactly for trade data. *)
Theorem listed_endpoints_have_methods (endpointType : GrvtEndpointType)
    (endpoints : list (string * string)) (name path : string) :
  In (endpointType, endpoints) GRVT_ENDPOINTS ->
  In (name, path) endpoints ->
  endpointType <> EDGE ->
  exists m,
    arguments m =
    (endpointType, path,
     match endpointType with TRADE_DATA => true | _ => false end).
Proof.
  intros Hg Hn He.
  destruct Hg as [Hg|[Hg|[Hg|[]]]]; injection Hg as <- <-;
    [congruence| |];
    cbv [TRADE_DATA_ENDPOINTS MARKET_DATA_ENDPOINTS] in Hn;
    repeat (destruct Hn as [Hn|Hn]; [injection Hn as <- <-; find_method|]);
    destruct Hn.
Qed.

Lemma listed_endpoints_have_methods_witness :
  exists m, arguments m = (TRADE_DATA, "full/v1/open_orders"%string, true).
Proof.
  apply (listed_endpoints_have_methods TRADE_DATA TRADE_DATA_ENDPOINTS
           "GET_OPEN_ORDERS" "full/v1/open_orders").
  - right. left. reflexivity.
  - do 3 right. left. reflexivity.
  - discriminate.
Defined.

(** X9: every method of the client requires authentication exactly
    when it calls the trade-data endpoint; none calls the edge endpoint,
    and no two methods request the same path. *)
Theorem methods_table (m m' : RawMethod) :
  (snd (arguments m) = true <-> fst (fst (arguments m)) = TRADE_DATA) /\
  fst (fst (arguments m)) <> EDGE /\
  (snd (fst (arguments m)) = snd (fst (arguments m')) -> m = m').
Proof.
  split; [|split].
  - destruct m; simpl; split; intros H; try reflexivity; discriminate.
  - destruct m; discriminate.
  - destruct m; destruct m'; simpl; intros H;
      solve [reflexivity | discriminate H].
Qed.

End RawClientFacts.

(** ** Environments and endpoints *)

Module ConfigFacts.
Import Http Config Connection.
#[local] Open Scope list_scope.

(** X10: in every environment the trade-data and market-data endpoints
    have a WebSocket URL, which is the host of their HTTP URL under [wss]
    with the path [/ws]; the edge endpoint has none. *)
Theorem ws_endpoint_of_rpc_endpoint (environment : GrvtEnv)
    (endpointType : GrvtEndpointType) :
  match endpointType with
  | EDGE => getWsEndpoint environment endpointType = None
  | _ =>
      exists host,
        getEndpointDomains environment endpointType =
          ("https://" ++ host)%string /\
        getWsEndpoint environment endpointType =
          Some ("wss://" ++ host ++ "/ws")%string
  end.
Proof.
  destruct environment, endpointType; try reflexivity;
    eexists; split; vm_compute; reflexivity.
Qed.

Ltac by_names name :=
  repeat match goal with
         | |- context [String.eqb name ?k] =>
             destruct (String.eqb name k); [reflexivity|]
         end;
  reflexivity.

(** X11: [getEndpoint] and [getAllEndpoints] agree on every name that
    the tables do not inherit from [Object.prototype]: the URL
    [getEndpoint] finds by search is the one the record built by
    [getAllEndpoints] holds under that name, and both have none exactly
    for the names that are in no table.  For an inherited name that the
    edge table does not define itself ([toString], say, which is in no
    table) [getEndpoint] still returns a string: the edge domain followed
    by the text of the inherited property. *)
Theorem getEndpoint_agrees_with_getAllEndpoints (proto : Prototype)
    (environment : GrvtEnv) (endpointName : string) :
  (proto endpointName = None ->
   JsMap.get String.eqb endpointName (getAllEndpoints environment) =
     getEndpoint proto environment endpointName /\
   (match getEndpoint proto environment endpointName with
    | Some _ => true
    | None => false
    end) = is_EndpointName endpointName) /\
  (forall text,
     proto endpointName = Some text ->
     JsMap.get String.eqb endpointName EDGE_ENDPOINTS = None ->
     getEndpoint proto environment endpointName =
       Some (getEndpointDomains environment EDGE ++ "/" ++ text)%string).
Proof.
  split.
  - intros H.
    split; destruct environment;
      try match goal with
          | |- context [getAllEndpoints ?e] =>
              let all := eval vm_compute in (getAllEndpoints e) in
              change (getAllEndpoints e) with all
          end;
      cbv -[String.eqb]; rewrite ?H; by_names endpointName.
  - intros text H Hown. unfold getEndpoint, GRVT_ENDPOINTS.
    cbn [getEndpoint_in]. unfold lookup. now rewrite Hown, H.
Qed.

(** X12: without a custom URL, or with an empty one, the WebSocket
    transport connects to the WebSocket URL the environment configures:
    that of market data for the market-data endpoint type, that of trade
    data for the two others (the edge endpoint type included); the
    rewriting of the HTTP URL is never used.  A custom URL that is not
    empty is used as it is. *)
Theorem wsUrl_choice (options : Options) :
  match url options with
  | Some (String c u) => wsUrl options = String c u
  | _ =>
      Some (wsUrl options) =
      getWsEndpoint (ws_env options)
        (match ws_endpointType options with
         | MARKET_DATA => MARKET_DATA
         | _ => TRADE_DATA
         end)
  end.
Proof.
  destruct options as [e t u]. unfold wsUrl, ws_env, ws_endpointType.
  cbn [url env endpointType].
  destruct u as [[|c u]|]; [| reflexivity |];
    destruct e as [[]|], t as [[]|]; reflexivity.
Qed.

(** X13: the two transports compute [isTestnet] differently, with the
    same result for every environment; they differ when no environment
    is given, as the HTTP transport then takes production and the
    WebSocket transport the testnet. *)
Theorem isTestnet_of_both_transports (options : Options) :
  (http_isTestnet options = ws_isTestnet options <-> env options <> None) /\
  (env options = None ->
   http_env options = PROD /\ ws_env options = TESTNET).
Proof.
  destruct options as [[[]|] t u]; cbv; repeat split;
    try congruence; try discriminate.
Qed.

End ConfigFacts.

(** ** The message router: further properties *)

Module RouterFacts.
Import Json Router.
#[local] Open Scope list_scope.

(** X14: a frame that parses to anything but an object (a number, a
    boolean, [null], an array, a string other than ["pong"]) is dropped:
    no event is dispatched for it. *)
Theorem frames_that_are_not_objects_are_dropped (msg : json) :
  (forall fields, msg <> JObj fields) -> msg <> JStr "pong" ->
  onMessage (Some msg) = None.
Proof.
  intros Hobj Hpong.
  destruct msg as [|b|z|lit|s|items|fields]; try reflexivity.
  - unfold onMessage, isPong. simpl.
    destruct (String.eqb s "pong") eqn:E; [|reflexivity].
    apply String.eqb_eq in E. congruence.
  - now contradiction (Hobj fields).
Qed.

Lemma frames_that_are_not_objects_are_dropped_witness :
  onMessage (Some (JArr [JObj [("code", JNum 1); ("message", JStr "x")]]))
  = None.
Proof.
  apply frames_that_are_not_objects_are_dropped; discriminate.
Defined.

End RouterFacts.

(** ** The subscription manager: further properties *)

Module ManagerFacts.
Import Json Router Manager ManagerViews ManagerNotions JsMap JsMapFacts.
Import RouterProofs ManagerProofs.
#[local] Open Scope list_scope.

(** *** More on maps *)

Section MapInvariants.
Context {K V : Type} (eqb : K -> K -> bool).
Hypothesis eqb_eq : forall a b, eqb a b = true <-> a = b.

Lemma NoDup_keys_set (k : K) (v : V) (m : list (K * V)) :
  NoDup (keys m) -> NoDup (keys (set eqb k v m)).
Proof.
  intros H. destruct (get eqb k m) as [v0|] eqn:E.
  - now rewrite (keys_set_old eqb eqb_eq k v v0 m E).
  - rewrite (set_new eqb k v m E). unfold keys. rewrite map_app. simpl.
    apply NoDup_snoc; trivial. now apply (get_None eqb eqb_eq).
Qed.

Lemma Forall_set (P : K * V -> Prop) (k : K) (v : V) (m : list (K * V)) :
  Forall P m -> P (k, v) -> Forall P (set eqb k v m).
Proof.
  intros H Hv. induction m as [|[k' v'] m IH]; simpl.
  - constructor; trivial.
  - inversion H; subst. destruct (eqb k k'); constructor; auto.
Qed.

Lemma Forall_modify (P : K * V -> Prop) (k : K) (f : V -> V)
    (m : list (K * V)) :
  Forall P m -> (forall v, In (k, v) m -> P (k, v) -> P (k, f v)) ->
  Forall P (modify eqb k f m).
Proof.
  intros H Hf. induction m as [|[k' v'] m IH]; simpl; [constructor|].
  inversion H as [|x y Hx Hy]; subst.
  destruct (eqb k k') eqn:E.
  - apply eqb_eq in E. subst k'. constructor; trivial.
    apply Hf; trivial. now left.
  - constructor; trivial. apply IH; trivial.
    intros v Hin. apply Hf. now right.
Qed.

Lemma Forall_delete (P : K * V -> Prop) (k : K) (m : list (K * V)) :
  Forall P m -> Forall P (delete eqb k m).
Proof.
  rewrite !Forall_forall. intros H x Hx. apply H.
  now apply (In_delete eqb k).
Qed.

Lemma get_delete_same (k : K) (m : list (K * V)) :
  NoDup (keys m) -> get eqb k (delete eqb k m) = None.
Proof.
  induction m as [|[k' v'] m IH]; simpl; [reflexivity|]. intros H.
  inversion H as [|x y Hx Hy]; subst.
  destruct (eqb k k') eqn:E.
  - apply eqb_eq in E. subst k'. now apply (get_None eqb eqb_eq).
  - simpl. rewrite E. now apply IH.
Qed.

Lemma delete_absent (k : K) (m : list (K * V)) :
  get eqb k m = None -> delete eqb k m = m.
Proof.
  induction m as [|[k' v'] m IH]; simpl; [reflexivity|].
  destruct (eqb k k'); [discriminate|]. intros H. now rewrite IH.
Qed.

Lemma modify_modify (k : K) (f : V -> V) (m : list (K * V)) :
  (forall v, f (f v) = f v) ->
  modify eqb k f (modify eqb k f m) = modify eqb k f m.
Proof.
  intros Hf. induction m as [|[k' v'] m IH]; simpl; [reflexivity|].
  destruct (eqb k k') eqn:E; simpl; rewrite E; [now rewrite Hf|].
  now rewrite IH.
Qed.

Lemma delete_modify_same (k : K) (f : V -> V) (m : list (K * V)) :
  delete eqb k (modify eqb k f m) = delete eqb k m.
Proof.
  induction m as [|[k' v] m IH]; simpl; [reflexivity|].
  destruct (eqb k k') eqn:E; simpl; rewrite E; [reflexivity|].
  now rewrite IH.
Qed.

End MapInvariants.

(** X16: a pong (the string ["pong"], or an object whose [type] is
    ["pong"], whatever else it holds) changes nothing in the manager and
    reaches no listener, not even one subscribed to a stream named
    [pong]. *)
Theorem pong_changes_nothing (msg : json) (s : State) :
  isPong msg = true -> socket_message (Some msg) s = s.
Proof.
  intros H. unfold socket_message, onMessage. rewrite H.
  rewrite dispatchEvent_eq. unfold manager_listeners, deliveries. simpl.
  rewrite app_nil_r. apply set_invoked_eta.
Qed.

Lemma pong_changes_nothing_witness :
  let s := run (new true) [EOpen; ESubscribe "pong" "x" 0] in
  let msg :=
    JObj [("type", JStr "pong"); ("request_id", JNum 1); ("code", JNum 1000);
          ("message", JStr "rejected"); ("stream", JStr "pong");
          ("feed", JNum 7)] in
  JsMap.get N.eqb 1%N (_pendingRequests s) = Some 0 /\
  evListeners s = [("pong"%string, new_wrapper 0 0)] /\
  socket_message (Some msg) s = s.
Proof.
  cbv zeta. split; [reflexivity|]. split; [reflexivity|].
  apply pong_changes_nothing. reflexivity.
Defined.

(** X17: a frame whose [request_id] is not the id of a pending request
    (it is absent, not a number, negative, or names a request that was
    answered, timed out or never made) settles no promise: all the
    frame does is reach the listeners of its stream. *)
Theorem frame_without_pending_id_settles_nothing (data : option json)
    (s : State) :
  (forall k, frame_id data = Some k ->
             get N.eqb k (_pendingRequests s) = None) ->
  socket_message data s = set_invoked (invoked s ++ delivered data s) s.
Proof.
  intros Hid. unfold socket_message, delivered.
  destruct (onMessage data) as [d|] eqn:E.
  - rewrite dispatchEvent_eq. f_equal.
    destruct (manager_listeners_settles d (ev_detail d) s)
      as [Hs|[k [p [st [Hk [Hp _]]]]]].
    + now rewrite manager_listeners_same.
    + exfalso. destruct (onMessage_detail data d E) as [Hn|Hd].
      * rewrite Hn in Hk. discriminate.
      * rewrite Hd in Hk. rewrite (Hid k Hk) in Hp. discriminate.
  - rewrite app_nil_r. symmetry. apply set_invoked_eta.
Qed.

Lemma frame_without_pending_id_settles_nothing_witness :
  let s := run (new true) [EOpen; ESubscribe "ticker.s" "BTC_USDT_Perp@500" 0] in
  let late :=
    JObj [("request_id", JStr "1"); ("code", JNum 1000);
          ("message", JStr "rejected")] in
  _pendingRequests s = [(1%N, 0)] /\
  socket_message (Some late) s = set_invoked (invoked s ++ []) s.
Proof.
  cbv zeta. split; [reflexivity|].
  apply (frame_without_pending_id_settles_nothing
           (Some (JObj [("request_id", JStr "1"); ("code", JNum 1000);
                        ("message", JStr "rejected")]))).
  intros k H. discriminate H.
Defined.


(** X18: a data frame settles a pending request only when its stream is
    named like one of the two control events.  For a data frame that
    carries the id of a pending request, the request is resolved with
    the frame if the stream, without its [v1.] prefix, is
    [subscriptionResponse], rejected with the frame's [message] if it is
    [error], and left pending for every other stream. *)
Theorem data_frame_with_pending_id (resub : bool) (es : list Event)
    (msg : json) (k : N) (p : nat) :
  let s := run (new resub) es in
  is_data_frame msg = true ->
  get N.eqb k (_pendingRequests s) = Some p ->
  frame_id (Some msg) = Some k ->
  request_state (socket_message (Some msg) s) p =
    if String.eqb (strip_v1 (stream_of msg)) "subscriptionResponse"
    then Resolved (Some msg)
    else if String.eqb (strip_v1 (stream_of msg)) "error"
         then Rejected (WsError (Json.get "message" msg))
         else Pending.
Proof.
  cbv zeta. intros Hd Hk Hf.
  destruct (reachable_inv resub es) as [W L].
  rewrite (socket_message_hit (strip_v1 (stream_of msg)) msg _ k p L Hk Hf
             (onMessage_data msg Hd)).
  destruct (String.eqb _ "subscriptionResponse"); [reflexivity|].
  destruct (String.eqb _ "error"); [reflexivity|].
  destruct L as [Lp _]. rewrite Forall_forall in Lp.
  apply (get_In N.eqb N.eqb_eq) in Hk. now destruct (Lp _ Hk).
Qed.

Lemma data_frame_with_pending_id_witness :
  let s := run (new true) [EOpen; ESubscribe "ticker.s" "BTC_USDT_Perp@500" 0] in
  let msg :=
    JObj [("stream", JStr "v1.error"); ("request_id", JNum 1);
          ("feed", JNum 7)] in
  is_data_frame msg = true /\
  request_state (socket_message (Some msg) s) 0 = Rejected (WsError None).
Proof.
  cbv zeta. split; [reflexivity|].
  exact (data_frame_with_pending_id true
           [EOpen; ESubscribe "ticker.s" "BTC_USDT_Perp@500" 0]
           (JObj [("stream", JStr "v1.error"); ("request_id", JNum 1);
                  ("feed", JNum 7)]) 1%N 0 eq_refl eq_refl eq_refl).
Defined.

(** X19: inbound frames and the passing of time never make the manager
    send a frame or draw a correlation id, and never add or remove an
    entry, a listener, a listener wrapper or a suspended call: all they
    do is settle promises and call listeners. *)
Theorem frames_and_timers_only_settle (s : State) (quiet : list Event) :
  forallb is_quiet quiet = true ->
  let s' := run s quiet in
  sent s' = sent s /\ onOpen s' = onOpen s /\
  _requestId s' = _requestId s /\ isOpen s' = isOpen s /\
  evListeners s' = evListeners s /\ calls s' = calls s /\
  map (fun e => (fst e, listeners (snd e), promise (snd e)))
    (_subscriptions s') =
  map (fun e => (fst e, listeners (snd e), promise (snd e)))
    (_subscriptions s).
Proof.
  intros Hq. cbv zeta. pose proof (run_quiet_static quiet s Hq) as H.
  unfold static_view in H.
  injection H as _ Ho Hoo Hs He Hr _ Hc _ Hsh Hpr.
  repeat split; trivial.
  clear - Hsh Hpr. revert Hsh Hpr.
  generalize (_subscriptions (run s quiet)) as a, (_subscriptions s) as b.
  induction a as [|x a IH]; destruct b as [|y b]; simpl; try discriminate;
    trivial.
  unfold entry_shape. intros H1 H2.
  injection H1 as Hk _ _ Hl _ Ht. injection H2 as _ Hp Ht'.
  now rewrite (IH b Ht Ht'), Hk, Hl, Hp.
Qed.

Lemma frames_and_timers_only_settle_witness :
  let s := run (new true) [EOpen; ESubscribe "ticker.s" "BTC_USDT_Perp@500" 0] in
  let s' :=
    run s [EMessage (Some (ticker_ack 1)); EAdvance 60000;
           EMessage (Some (ticker_data (JNum 1)))] in
  sent s' = sent s /\ invoked s' = [(0, Some (JNum 1))].
Proof.
  cbv zeta. split; [|reflexivity].
  apply (frames_and_timers_only_settle
           (run (new true)
              [EOpen; ESubscribe "ticker.s" "BTC_USDT_Perp@500" 0])
           [EMessage (Some (ticker_ack 1)); EAdvance 60000;
            EMessage (Some (ticker_data (JNum 1)))]).
  reflexivity.
Defined.


(** *** Every id drawn is on a frame *)

Lemma tidy_same (s s' : State) :
  issued s' = issued s -> _requestId s' = _requestId s ->
  evListeners s' = evListeners s -> uid s <= uid s' ->
  tidy s -> tidy s'.
Proof.
  intros Hi Hr He Hu [A B C]. constructor.
  - now rewrite Hi, Hr.
  - now rewrite Hi.
  - rewrite He. revert C. apply Forall_impl. intros tw. lia.
Qed.

Ltac tidy_unread :=
  apply tidy_same; [reflexivity|reflexivity|reflexivity|simpl; lia].

Lemma static_tidy (s s' : State) :
  static_view s' = static_view s -> tidy s -> tidy s'.
Proof.
  unfold static_view. intros H.
  injection H as _ _ Hoo Hs He Hr Hu _ _ _ _.
  apply tidy_same; trivial; [|lia]. unfold issued. now rewrite Hs, Hoo.
Qed.

Lemma sendSubscribe_tidy (stream feed : string) (s : State) :
  tidy s -> tidy (fst (_sendSubscribe stream feed s)).
Proof.
  intros [A B C]. rewrite sendSubscribe_eq.
  constructor; unfold issued in *; simpl.
  - rewrite length_app in A.
    destruct (isOpen s); rewrite !length_app; simpl; lia.
  - apply Forall_app in B. destruct B as [B1 B2].
    destruct (isOpen s); rewrite ?Forall_app; repeat split; trivial;
      (constructor; [simpl; lia|constructor]).
  - revert C. apply Forall_impl. intros tw. lia.
Qed.

Lemma sendUnsubscribe_tidy (stream feed : string) (s : State) :
  tidy s -> tidy (_sendUnsubscribe stream feed s).
Proof.
  intros [A B C]. rewrite sendUnsubscribe_eq.
  constructor; unfold issued in *; simpl; trivial.
  - rewrite length_app in A. rewrite !length_app. simpl. lia.
  - apply Forall_app in B. destruct B as [B1 B2].
    rewrite !Forall_app. repeat split; trivial.
    constructor; [simpl; lia|constructor].
Qed.

Lemma subscribe_tidy (stream feed : string) (l : Listener) (s : State) :
  tidy s -> tidy (subscribe stream feed l s).
Proof.
  intros T. unfold subscribe.
  destruct (get String.eqb (subscription_id stream feed) (_subscriptions s))
    as [sub|].
  - simpl. destruct (get Nat.eqb l (listeners sub)).
    + revert T. tidy_unread.
    + destruct T as [A B C]. constructor; simpl; trivial.
      apply Forall_app. split.
      * revert C. apply Forall_impl. intros tw. lia.
      * constructor; [simpl; lia|constructor].
  - apply (sendSubscribe_tidy stream feed) in T.
    destruct (_sendSubscribe stream feed s) as [s1 p]. simpl in *.
    destruct T as [A B C]. constructor; simpl; trivial.
    apply Forall_app. split.
    + revert C. apply Forall_impl. intros tw. lia.
    + constructor; [simpl; lia|constructor].
Qed.

Lemma remove_listener_incl (type : string) (w : nat)
    (ls : list (string * Wrapper)) :
  incl (remove_listener type w ls) ls.
Proof.
  induction ls as [|[t w'] ls IH]; simpl; [apply incl_refl|].
  destruct (String.eqb type t && Nat.eqb w (w_uid w')).
  - apply incl_tl, incl_refl.
  - intros x [Hx|Hx]; [now left|right; now apply IH].
Qed.

Lemma removeEventListener_tidy (type : string) (w : Wrapper) (s : State) :
  tidy s -> tidy (removeEventListener type w s).
Proof.
  intros [A B C]. constructor; simpl; trivial.
  rewrite Forall_forall in *. intros x Hx. apply C.
  now apply (remove_listener_incl type (w_uid w)).
Qed.

Lemma run_unsubscribe_tidy (u : Unsubscribe) (s : State) :
  tidy s -> tidy (run_unsubscribe u s).
Proof.
  intros T. unfold run_unsubscribe.
  apply (removeEventListener_tidy (u_stream u) (u_wrapper u)) in T.
  destruct (get String.eqb (u_id u) _) as [sub|]; trivial.
  destruct (Nat.eqb _ 0); [|revert T; tidy_unread].
  match goal with |- tidy (if isOpen ?x then _ else _) =>
    assert (T2 : tidy x) by (revert T; tidy_unread); destruct (isOpen x) end;
    trivial.
  now apply sendUnsubscribe_tidy.
Qed.

Lemma replay_tidy (entry : string * SubscriptionState) (s : State) :
  tidy s -> tidy (replay entry s).
Proof.
  intros T. destruct entry as [id sub]. unfold replay.
  destruct (promiseFinished sub); trivial.
  apply (sendSubscribe_tidy (stream sub) (feed sub)) in T.
  destruct (_sendSubscribe (stream sub) (feed sub) s) as [s1 p]. simpl in T.
  revert T. tidy_unread.
Qed.

Lemma socket_open_tidy (s : State) : tidy s -> tidy (socket_open s).
Proof.
  intros T. unfold socket_open.
  assert (T1 : tidy (_handleOpen (set_isOpen true s))).
  { unfold _handleOpen. simpl resubscribe.
    assert (T0 : tidy (set_isOpen true s)) by (revert T; tidy_unread).
    destruct (resubscribe s); trivial.
    apply fold_left_keeps; trivial. intros s' e. apply replay_tidy. }
  revert T1. apply tidy_same; trivial.
  unfold issued; simpl. now rewrite app_nil_r.
Qed.

Lemma settle_tidy (p : nat) (st : Settled) (s : State) :
  tidy s -> tidy (settle p st s).
Proof. apply static_tidy, settle_static. Qed.

Lemma socket_close_tidy (s : State) : tidy s -> tidy (socket_close s).
Proof.
  intros T. unfold socket_close, _handleClose.
  assert (T0 : tidy (set_isOpen false s)) by (revert T; tidy_unread).
  match goal with |- tidy (set__pendingRequests [] (fold_left _ _ ?x)) =>
    assert (T1 : tidy x) end.
  { destruct (negb (resubscribe (set_isOpen false s))); trivial.
    match goal with |- tidy (set__subscriptions [] ?x) =>
      assert (T1 : tidy x); [|revert T1; tidy_unread] end.
    apply fold_left_keeps; trivial. intros s' e T'.
    apply fold_left_keeps; trivial. intros s'' lu.
    apply run_unsubscribe_tidy. }
  match goal with |- tidy (set__pendingRequests [] ?x) =>
    assert (T2 : tidy x); [|revert T2; tidy_unread] end.
  apply fold_left_keeps; trivial. intros s' kp. apply settle_tidy.
Qed.

Lemma step_tidy (s : State) (e : Event) : tidy s -> tidy (step s e).
Proof.
  intros T. destruct e; simpl.
  - now apply subscribe_tidy.
  - unfold call_unsubscribe.
    destruct (nth_error (calls s) call) as [c|]; trivial.
    destruct (promise_state s (c_promise c)); trivial.
    now apply run_unsubscribe_tidy.
  - now apply socket_open_tidy.
  - now apply socket_close_tidy.
  - revert T. apply static_tidy, socket_message_static.
  - revert T. apply static_tidy, advance_static.
  - revert T. tidy_unread.
Qed.

Lemma reachable_tidy (resub : bool) (es : list Event) :
  tidy (run (new resub) es).
Proof.
  unfold run. apply fold_left_keeps.
  - intros s e. apply step_tidy.
  - constructor; simpl; constructor.
Qed.

(** X20: the correlation ids in use are exactly 1, 2, ..., [_requestId]:
    every id drawn is on a frame that was sent or waits for the socket to
    open, and there are as many such frames as the counter says. *)
Theorem request_ids_are_consecutive (resub : bool) (es : list Event) :
  let s := run (new resub) es in
  List.length (issued s) = N.to_nat (_requestId s) /\
  forall k,
    In k (map request_id (issued s)) <-> (1 <= k <= _requestId s)%N.
Proof.
  cbv zeta. destruct (reachable_tidy resub es) as [A B _].
  destruct (reachable_inv resub es) as [[F D _ _ _ _ _] _].
  set (s := run (new resub) es) in *.
  split; [exact A|]. intros k. split.
  - intros Hk. apply in_map_iff in Hk. destruct Hk as [f [<- Hf]].
    rewrite Forall_forall in B, F. specialize (B f Hf). specialize (F f Hf).
    lia.
  - intros Hk.
    assert (Hincl : incl (map N.of_nat (seq 1 (N.to_nat (_requestId s))))
                      (map request_id (issued s))).
    { apply NoDup_length_incl; trivial.
      - rewrite !length_map, length_seq. lia.
      - intros x Hx. apply in_map_iff in Hx. destruct Hx as [f [<- Hf]].
        rewrite Forall_forall in B, F.
        specialize (B f Hf). specialize (F f Hf).
        apply in_map_iff. exists (N.to_nat (request_id f)). split; [lia|].
        apply in_seq. lia. }
    apply Hincl. apply in_map_iff. exists (N.to_nat k). split; [lia|].
    apply in_seq. lia.
Qed.


(** *** Subscribing to an entry that exists *)

(** [subscribe] with a listener the entry does not have yet. *)
Lemma subscribe_joined_new_eq (stream feed : string) (l : Listener)
    (s : State) (sub : SubscriptionState) :
  let id := subscription_id stream feed in
  let w := {| w_uid := uid s; w_listener := l |} in
  let u :=
    {| u_stream := stream; u_feed := feed; u_id := id; u_listener := l;
       u_wrapper := w |} in
  get String.eqb id (_subscriptions s) = Some sub ->
  get Nat.eqb l (listeners sub) = None ->
  subscribe stream feed l s =
  set_calls (calls s ++ [joined_call sub u])
    (set__subscriptions
       (modify String.eqb id
          (fun sub' => set_listeners (set Nat.eqb l u (listeners sub')) sub')
          (_subscriptions s))
       (set_evListeners (evListeners s ++ [(stream, w)])
          (set_uid (S (uid s)) s))).
Proof.
  cbv zeta. intros Hs Hl. unfold subscribe. rewrite Hs. simpl.
  rewrite Hl. reflexivity.
Qed.

(** What [subscribe] does, whatever the listener, when the entry exists:
    nothing is sent, and the call waits for the entry's promise. *)
Lemma subscribe_existing (stream feed : string) (l : Listener) (s : State)
    (sub : SubscriptionState) :
  get String.eqb (subscription_id stream feed) (_subscriptions s) = Some sub ->
  let s' := subscribe stream feed l s in
  sent s' = sent s /\ onOpen s' = onOpen s /\
  _requestId s' = _requestId s /\ promises s' = promises s /\
  exists u,
    calls s' = calls s ++ [joined_call sub u].
Proof.
  intros Hs. cbv zeta.
  destruct (get Nat.eqb l (listeners sub)) as [u|] eqn:Hl.
  - rewrite (subscribe_joined_eq stream feed l s sub u Hs Hl).
    repeat split. exists u. reflexivity.
  - rewrite (subscribe_joined_new_eq stream feed l s sub Hs Hl).
    repeat split. eexists. reflexivity.
Qed.

(** The state a quiet run leaves after a [subscribe] for a new key. *)
Lemma after_new_subscribe (resub : bool) (es quiet : list Event)
    (stream feed : string) (l : Listener) :
  let s := run (new resub) es in
  let s2 := run (subscribe stream feed l s) quiet in
  get String.eqb (subscription_id stream feed) (_subscriptions s) = None ->
  forallb is_quiet quiet = true ->
  static_view s2 = static_view (subscribe stream feed l s) /\
  exists sub,
    get String.eqb (subscription_id stream feed) (_subscriptions s2) =
      Some sub /\
    listeners sub = [(l, new_unsubscribe (uid s) stream feed l)] /\
    promise sub = (uid s, Initial) /\
    failureController sub = S (uid s) /\
    Manager.stream sub = stream /\ Manager.feed sub = feed.
Proof.
  cbv zeta. intros Hnew Hq.
  destruct (reachable_inv resub es) as [W _].
  pose proof (run_quiet_static quiet
                (subscribe stream feed l (run (new resub) es)) Hq) as Hst.
  split; [exact Hst|].
  destruct (entry_after_quiet (subscription_id stream feed) _ _
              (new_entry (uid (run (new resub) es)) stream feed l) Hst)
    as [sub [Hg [Hsh Hp]]].
  { rewrite (subscribe_new_eq stream feed l _ W Hnew). simpl.
    now apply get_snoc_new. }
  exists sub. split; [exact Hg|].
  unfold entry_shape in Hsh. simpl in Hsh.
  injection Hsh as H1 H2 H3 H4. auto.
Qed.

(** X21: several listeners share one server subscription.  A second
    [subscribe] for the same stream and feed with another listener sends
    nothing and draws no id; its call waits for the promise of the first
    and gets the same failure signal; and a data frame of the stream is
    then given to both listeners, in the order they subscribed. *)
Theorem second_listener_shares_subscription (resub : bool)
    (es quiet : list Event) (stream feed : string) (l1 l2 : Listener) :
  let s := run (new resub) es in
  let s1 := subscribe stream feed l1 s in
  let s2 := run s1 quiet in
  let s3 := subscribe stream feed l2 s2 in
  let id := subscription_id stream feed in
  let u2 :=
    {| u_stream := stream; u_feed := feed; u_id := id; u_listener := l2;
       u_wrapper := {| w_uid := uid s2; w_listener := l2 |} |} in
  get String.eqb id (_subscriptions s) = None ->
  forallb is_quiet quiet = true ->
  l2 <> l1 ->
  sent s3 = sent s1 /\ onOpen s3 = onOpen s1 /\
  _requestId s3 = (_requestId s + 1)%N /\
  calls s3 =
    calls s ++
    [new_call (uid s) stream feed l1;
     {| c_promise := (uid s, Initial); c_unsubscribe := u2;
        c_signal := S (uid s) |}] /\
  (exists sub,
     get String.eqb id (_subscriptions s3) = Some sub /\
     listeners sub = [(l1, new_unsubscribe (uid s) stream feed l1); (l2, u2)])
  /\
  (forall msg,
     is_data_frame msg = true -> strip_v1 (stream_of msg) = stream ->
     delivered (Some msg) s3 =
     delivered (Some msg) s ++
     [(l1, Json.get "feed" msg); (l2, Json.get "feed" msg)]).
Proof.
  cbv zeta. intros Hnew Hq Hl.
  destruct (reachable_inv resub es) as [W _].
  destruct (after_new_subscribe resub es quiet stream feed l1 Hnew Hq)
    as [Hst [sub [Hg [Hls [Hp [Hfc _]]]]]].
  set (s := run (new resub) es) in *.
  set (s2 := run (subscribe stream feed l1 s) quiet) in *.
  assert (Hget : get Nat.eqb l2 (listeners sub) = None).
  { rewrite Hls. simpl.
    now rewrite (eqb_neq Nat.eqb Nat.eqb_eq l2 l1 Hl). }
  rewrite (subscribe_joined_new_eq stream feed l2 s2 sub Hg Hget).
  unfold static_view in Hst.
  injection Hst as _ _ Hoo Hs He Hr _ Hc _ _ _.
  rewrite (subscribe_new_eq stream feed l1 s W Hnew) in Hoo, Hs, He, Hr, Hc.
  simpl in Hoo, Hs, He, Hr, Hc.
  rewrite (subscribe_new_eq stream feed l1 s W Hnew).
  simpl. repeat split; trivial.
  - rewrite Hc, <- app_assoc. simpl. unfold joined_call.
    now rewrite Hp, Hfc.
  - exists (set_listeners
              (set Nat.eqb l2
                 {| u_stream := stream; u_feed := feed;
                    u_id := subscription_id stream feed; u_listener := l2;
                    u_wrapper := {| w_uid := uid s2; w_listener := l2 |} |}
                 (listeners sub)) sub).
    split.
    + rewrite (get_modify_same String.eqb), Hg. reflexivity.
    + simpl. rewrite Hls. simpl.
      now rewrite (eqb_neq Nat.eqb Nat.eqb_eq l2 l1 Hl).
  - intros msg Hd Hn. unfold delivered.
    rewrite (onMessage_data msg Hd). simpl evListeners.
    rewrite He, <- app_assoc, deliveries_app. f_equal.
    unfold deliveries. simpl. rewrite Hn, String.eqb_refl. reflexivity.
Qed.

Lemma second_listener_shares_subscription_witness :
  let s := run (new true) [EOpen] in
  let s1 := subscribe "ticker.s" "BTC_USDT_Perp@500" 0 s in
  let s2 := run s1 [EMessage (Some (ticker_ack 1))] in
  let s3 := subscribe "ticker.s" "BTC_USDT_Perp@500" 1 s2 in
  sent s3 = sent s1 /\
  sent s1 = [subscribe_frame 1 "ticker.s" "BTC_USDT_Perp@500"] /\
  invoked (socket_message (Some (ticker_data (JNum 7))) s3) =
    [(0, Some (JNum 7)); (1, Some (JNum 7))].
Proof.
  cbv zeta. split; [|split; vm_compute; reflexivity].
  exact (proj1 (second_listener_shares_subscription true [EOpen]
                  [EMessage (Some (ticker_ack 1))]
                  "ticker.s" "BTC_USDT_Perp@500" 0 1
                  eq_refl eq_refl ltac:(discriminate))).
Defined.

(** X22: a key whose subscribe request was rejected (by the server or
    by the time-out) stays taken: the entry is kept, so a later
    [subscribe] for the same stream and feed, with any listener, sends
    nothing and throws the error of the first request. *)
Theorem rejected_key_rejects_later_subscribes (resub : bool)
    (es quiet : list Event) (stream feed : string) (l l' : Listener)
    (e : WebSocketRequestError) :
  let s := run (new resub) es in
  let s1 := subscribe stream feed l s in
  let s2 := run s1 quiet in
  let s3 := subscribe stream feed l' s2 in
  get String.eqb (subscription_id stream feed) (_subscriptions s) = None ->
  forallb is_quiet quiet = true ->
  outcome s2 (new_call (uid s) stream feed l) = Threw e ->
  sent s3 = sent s1 /\ onOpen s3 = onOpen s1 /\
  _requestId s3 = _requestId s1 /\
  exists c, calls s3 = calls s2 ++ [c] /\ outcome s3 c = Threw e.
Proof.
  cbv zeta. intros Hnew Hq Ho.
  destruct (after_new_subscribe resub es quiet stream feed l Hnew Hq)
    as [Hst [sub [Hg [_ [Hp _]]]]].
  set (s := run (new resub) es) in *.
  set (s2 := run (subscribe stream feed l s) quiet) in *.
  destruct (subscribe_existing stream feed l' s2 sub Hg)
    as [Hs [Hoo [Hr [Hpr [u Hc]]]]].
  unfold static_view in Hst.
  injection Hst as _ _ Hoo' Hs' _ Hr' _ _ _ _ _.
  repeat split; try congruence.
  exists (joined_call sub u). split; [exact Hc|].
  unfold outcome, promise_state, request_state in *. simpl in *.
  rewrite Hpr, Hp. simpl.
  destruct (match get Nat.eqb (uid s) (promises s2) with
            | Some pr => p_state pr
            | None => Pending
            end); try discriminate. exact Ho.
Qed.

Lemma rejected_key_rejects_later_subscribes_witness :
  let s := run (new true) [EOpen] in
  let s1 := subscribe "ticker.s" "BTC_USDT_Perp@500" 0 s in
  let s2 := run s1 [EAdvance 10000] in
  let s3 := subscribe "ticker.s" "BTC_USDT_Perp@500" 1 s2 in
  outcome s2 (new_call (uid s) "ticker.s" "BTC_USDT_Perp@500" 0) =
    Threw timed_out /\
  sent s3 = sent s1 /\
  exists c, calls s3 = calls s2 ++ [c] /\ outcome s3 c = Threw timed_out.
Proof.
  cbv zeta.
  assert (H : outcome
                (run (subscribe "ticker.s" "BTC_USDT_Perp@500" 0
                        (run (new true) [EOpen])) [EAdvance 10000])
                (new_call (uid (run (new true) [EOpen]))
                   "ticker.s" "BTC_USDT_Perp@500" 0) = Threw timed_out)
    by (vm_compute; reflexivity).
  split; [exact H|].
  destruct (rejected_key_rejects_later_subscribes true [EOpen]
              [EAdvance 10000] "ticker.s" "BTC_USDT_Perp@500" 0 1 timed_out
              eq_refl eq_refl H) as [Hs [_ [_ Hc]]].
  split; [exact Hs|exact Hc].
Defined.

(** *** The socket opens *)

Lemma replay_sent (entry : string * SubscriptionState) (s : State) :
  isOpen s = true ->
  let s' := replay entry s in
  sent s' =
    sent s ++
    (if finished entry
     then [subscribe_frame (_requestId s + 1) (stream (snd entry))
             (feed (snd entry))]
     else []) /\
  _requestId s' =
    (_requestId s + (if finished entry then 1 else 0))%N /\
  isOpen s' = true /\ onOpen s' = onOpen s.
Proof.
  intros Ho. destruct entry as [id sub]. unfold replay, finished.
  cbn [fst snd]. destruct (promiseFinished sub).
  - rewrite sendSubscribe_eq. simpl. rewrite Ho. repeat split.
  - rewrite app_nil_r, N.add_0_r. repeat split. exact Ho.
Qed.

Lemma replay_all (entries : list (string * SubscriptionState)) (s : State) :
  isOpen s = true ->
  let s' := fold_left (fun acc entry => replay entry acc) entries s in
  sent s' = sent s ++ replay_frames (_requestId s) (filter finished entries) /\
  _requestId s' =
    (_requestId s + N.of_nat (List.length (filter finished entries)))%N /\
  isOpen s' = true /\ onOpen s' = onOpen s.
Proof.
  revert s. induction entries as [|entry entries IH]; intros s Ho; simpl.
  - rewrite app_nil_r, N.add_0_r. repeat split. exact Ho.
  - destruct (replay_sent entry s Ho) as [H1 [H2 [H3 H4]]].
    destruct (IH (replay entry s) H3) as [I1 [I2 [I3 I4]]].
    rewrite I1, I2, I4, H1, H2, H4. split; [|split; [|split]]; trivial.
    + destruct (finished entry); simpl.
      * now rewrite <- app_assoc.
      * now rewrite app_nil_r, N.add_0_r.
    + destruct (finished entry); simpl List.length; lia.
Qed.

(** X23: what the manager sends when the socket opens.  With
    [resubscribe] on, one new subscribe request for each entry whose
    request had been answered, rejected or timed out, in the order of the
    entries and with the next correlation ids, and after them the
    requests that were waiting for the socket to open (whose ids are
    lower); with [resubscribe] off, only the latter.  Entries and
    listeners are as before. *)
Theorem open_replays_finished_entries (s : State) :
  let s' := socket_open s in
  let replayed :=
    if resubscribe s then filter finished (_subscriptions s) else [] in
  sent s' = sent s ++ replay_frames (_requestId s) replayed ++ onOpen s /\
  onOpen s' = [] /\ isOpen s' = true /\
  _requestId s' = (_requestId s + N.of_nat (List.length replayed))%N /\
  env_view s' = env_view s.
Proof.
  cbv zeta. split; [|split; [reflexivity|split; [|split]]].
  - unfold socket_open, _handleOpen. simpl. destruct (resubscribe s).
    + destruct (replay_all (_subscriptions s) (set_isOpen true s) eq_refl)
        as [H1 [_ [_ H4]]]. simpl in H1, H4.
      now rewrite H1, H4, app_assoc.
    + reflexivity.
  - unfold socket_open, _handleOpen. simpl. destruct (resubscribe s).
    + now destruct (replay_all (_subscriptions s) (set_isOpen true s) eq_refl)
        as [_ [_ [H3 _]]].
    + reflexivity.
  - unfold socket_open, _handleOpen. simpl. destruct (resubscribe s).
    + now destruct (replay_all (_subscriptions s) (set_isOpen true s) eq_refl)
        as [_ [H2 _]].
    + simpl. now rewrite N.add_0_r.
  - apply socket_open_env_view.
Qed.

(** *** The socket closes *)

Lemma reject_all_view (kps : list (N * nat)) (s : State) :
  settle_view
    (fold_left (fun acc kp => reject (snd kp) connection_closed acc) kps s) =
  settle_view s.
Proof.
  apply (fold_left_keeps (fun x => settle_view x = settle_view s)); trivial.
  intros s' kp Hs'. rewrite <- Hs'. apply settle_view_eq.
Qed.

Lemma timer_callbacks_idle (due : list Timer) (s : State) :
  _pendingRequests s = [] ->
  fold_left (fun acc t => timer_callback t acc) due s = s.
Proof.
  intros Hp. induction due as [|t due IH]; [reflexivity|]. simpl.
  unfold timer_callback at 2. unfold has. rewrite Hp. simpl. exact IH.
Qed.

(** X24: what happens when the socket closes.  Nothing is sent and no
    id is drawn; every request that was pending is rejected with
    "WebSocket connection closed" and none is pending afterwards, so that
    the time-outs still to come change no promise; and with [resubscribe]
    off no entry is left. *)
Theorem close_rejects_pending_requests (resub : bool) (es : list Event) :
  let s := run (new resub) es in
  let s' := socket_close s in
  sent s' = sent s /\ onOpen s' = onOpen s /\
  _requestId s' = _requestId s /\
  _pendingRequests s' = [] /\
  (forall k p,
     get N.eqb k (_pendingRequests s) = Some p ->
     request_state s' p = Rejected connection_closed) /\
  (forall ms, promises (advance ms s') = promises s') /\
  (resubscribe s = false -> _subscriptions s' = []).
Proof.
  cbv zeta. destruct (reachable_inv resub es) as [W L].
  set (s := run (new resub) es) in *.
  unfold socket_close, _handleClose.
  set (m := if negb (resubscribe (set_isOpen false s))
            then set__subscriptions []
                   (fold_left
                      (fun acc entry =>
                         fold_left
                           (fun acc' lu => run_unsubscribe (snd lu) acc')
                           (listeners (snd entry)) acc)
                      (_subscriptions (set_isOpen false s))
                      (set_isOpen false s))
            else set_isOpen false s).
  assert (Hm : closed_view m = closed_view (set_isOpen false s)).
  { unfold m. destruct (negb (resubscribe (set_isOpen false s)));
      [|reflexivity].
    now rewrite <- (unsubscribe_all_closed
                      (_subscriptions (set_isOpen false s))
                      (set_isOpen false s) eq_refl). }
  unfold closed_view in Hm. simpl in Hm.
  injection Hm as _ Hs Hoo Hr Hp Hpr _.
  pose proof (reject_all_view (_pendingRequests m) m) as Hv.
  unfold settle_view in Hv.
  injection Hv as _ _ Hoo' Hs' _ _ Hr' _ _ _ _ _ _ Hsh _.
  simpl. split; [congruence|]. split; [congruence|]. split; [congruence|].
  split; [reflexivity|]. split; [|split].
  - intros k p Hk. apply (get_In N.eqb N.eqb_eq) in Hk.
    destruct L as [Lp _]. rewrite Forall_forall in Lp.
    destruct (Lp _ Hk) as [Hpend Hin]. simpl in Hpend, Hin.
    change (request_state
              (fold_left (fun acc kp => reject (snd kp) connection_closed acc)
                 (_pendingRequests m) m) p = Rejected connection_closed).
    apply reject_all.
    + rewrite Hp. change p with (snd (k, p)). now apply in_map.
    + now rewrite Hpr.
    + unfold request_state in *. now rewrite Hpr.
  - intros ms. unfold advance.
    now rewrite timer_callbacks_idle.
  - intros Hres.
    assert (Hnil : shape (_subscriptions m) = []).
    { unfold m. simpl. rewrite Hres. reflexivity. }
    rewrite Hnil in Hsh. now apply map_eq_nil in Hsh.
Qed.

(** *** Unsubscribing *)







(** *** The table of entries is kept neat *)


Lemma neat_same (s s' : State) :
  _subscriptions s' = _subscriptions s -> evListeners s' = evListeners s ->
  neat s -> neat s'.
Proof.
  intros Hs He [A B C]. constructor; now rewrite ?Hs, ?He.
Qed.

Ltac neat_unread := apply neat_same; reflexivity.

Lemma shape_keys (subs : list (string * SubscriptionState)) :
  map fst (shape subs) = map fst subs.
Proof. unfold shape. rewrite map_map. reflexivity. Qed.

Lemma neat_env (s s' : State) :
  env_view s' = env_view s -> neat s -> neat s'.
Proof.
  unfold env_view. intros H [A B C]. injection H as _ He Hsh.
  constructor.
  - now rewrite <- shape_keys, Hsh, shape_keys.
  - assert (Hf : forall subs,
              Forall (fun e => entry_ok (fst e) (entry_shape (snd e))) subs <->
              Forall (fun x => entry_ok (fst x) (snd x)) (shape subs)).
    { intros subs. unfold shape. rewrite Forall_map. reflexivity. }
    apply Hf. rewrite Hsh. now apply Hf.
  - now rewrite He.
Qed.

Lemma remove_listener_NoDup {A : Type} (g : string * Wrapper -> A)
    (type : string) (w : nat) (ls : list (string * Wrapper)) :
  NoDup (map g ls) -> NoDup (map g (remove_listener type w ls)).
Proof.
  induction ls as [|[t w'] ls IH]; simpl; trivial. intros H.
  inversion H as [|x y Hx Hy]; subst.
  destruct (String.eqb type t && Nat.eqb w (w_uid w')); trivial.
  simpl. constructor; [|now apply IH].
  intros Hin. apply Hx. apply in_map_iff in Hin.
  destruct Hin as [z [Hz Hin]]. apply in_map_iff. exists z. split; trivial.
  now apply (remove_listener_incl type w).
Qed.

Lemma subscribe_neat (stream feed : string) (l : Listener) (s : State) :
  wf s -> tidy s -> neat s -> neat (subscribe stream feed l s).
Proof.
  intros W [_ _ Tw] [A B C].
  assert (Cw : NoDup
                 (map (fun tw => w_uid (snd tw))
                    (evListeners s ++
                     [(stream, {| w_uid := uid s; w_listener := l |})]))).
  { rewrite map_app. simpl. apply NoDup_snoc; trivial.
    intros Hin. apply in_map_iff in Hin. destruct Hin as [tw [Hu Hin]].
    rewrite Forall_forall in Tw. specialize (Tw tw Hin). lia. }
  destruct (get String.eqb (subscription_id stream feed) (_subscriptions s))
    as [sub|] eqn:Hg.
  - destruct (get Nat.eqb l (listeners sub)) as [u|] eqn:Hl.
    + rewrite (subscribe_joined_eq stream feed l s sub u Hg Hl).
      constructor; simpl; trivial.
    + rewrite (subscribe_joined_new_eq stream feed l s sub Hg Hl).
      constructor; simpl; trivial.
      * fold (keys (modify String.eqb (subscription_id stream feed)
                      (fun sub' =>
                         set_listeners
                           (set Nat.eqb l
                              {| u_stream := stream; u_feed := feed;
                                 u_id := subscription_id stream feed;
                                 u_listener := l;
                                 u_wrapper :=
                                   {| w_uid := uid s; w_listener := l |} |}
                              (listeners sub')) sub') (_subscriptions s))).
        now rewrite keys_modify.
      * apply (Forall_modify String.eqb String.eqb_eq); trivial.
        intros v Hin [H1 [H2 H3]]. simpl. split; [exact H1|]. split.
        -- apply (NoDup_keys_set Nat.eqb Nat.eqb_eq). exact H2.
        -- destruct (listeners v) as [|[l0 u0] ls]; simpl;
             [discriminate|].
           destruct (Nat.eqb l l0); discriminate.
  - rewrite (subscribe_new_eq stream feed l s W Hg).
    constructor; simpl.
    + rewrite map_app. simpl. apply NoDup_snoc; trivial.
      now apply (get_None String.eqb String.eqb_eq).
    + apply Forall_app. split; trivial.
      constructor; [|constructor]. simpl. split; [reflexivity|].
      split; [|discriminate]. constructor; [intros []|constructor].
    + rewrite map_app. simpl. apply NoDup_snoc; trivial.
      intros Hin. apply in_map_iff in Hin. destruct Hin as [tw [Hu Hin]].
      rewrite Forall_forall in Tw. specialize (Tw tw Hin). lia.
Qed.

Lemma run_unsubscribe_neat (u : Unsubscribe) (s : State) :
  neat s -> neat (run_unsubscribe u s).
Proof.
  intros [A B C]. unfold run_unsubscribe.
  assert (C1 : NoDup
                 (map (fun tw => w_uid (snd tw))
                    (remove_listener (u_stream u) (w_uid (u_wrapper u))
                       (evListeners s))))
    by now apply remove_listener_NoDup.
  simpl.
  destruct (get String.eqb (u_id u) (_subscriptions s)) as [sub|] eqn:Hg.
  - assert (Hsub : entry_ok (u_id u) (entry_shape sub)).
    { apply (get_In String.eqb String.eqb_eq) in Hg.
      rewrite Forall_forall in B. exact (B _ Hg). }
    destruct Hsub as [H1 [H2 _]].
    destruct (Nat.eqb
                (List.length (delete Nat.eqb (u_listener u) (listeners sub)))
                0) eqn:Hlen.
    + simpl. rewrite (delete_modify_same String.eqb).
      assert (N1 : neat
                (set__subscriptions
                   (delete String.eqb (u_id u) (_subscriptions s))
                   (set_evListeners
                      (remove_listener (u_stream u) (w_uid (u_wrapper u))
                         (evListeners s)) s))).
      { constructor; simpl; trivial.
        - now apply NoDup_map_delete.
        - now apply Forall_delete. }
      destruct (isOpen s); [|revert N1; neat_unread].
      rewrite sendUnsubscribe_eq. revert N1. neat_unread.
    + constructor; simpl; trivial.
      * fold (keys (modify String.eqb (u_id u)
                      (set_listeners
                         (delete Nat.eqb (u_listener u) (listeners sub)))
                      (_subscriptions s))).
        now rewrite keys_modify.
      * apply (Forall_modify String.eqb String.eqb_eq); trivial.
        intros v Hin [V1 _]. simpl. split; [exact V1|]. split.
        -- now apply NoDup_map_delete.
        -- intros E. rewrite E in Hlen. discriminate.
  - constructor; simpl; trivial.
Qed.

Lemma settle_neat (p : nat) (st : Settled) (s : State) :
  neat s -> neat (settle p st s).
Proof. apply neat_env, static_env_view, settle_static. Qed.

Lemma socket_close_neat (s : State) : neat s -> neat (socket_close s).
Proof.
  intros T. unfold socket_close, _handleClose.
  assert (T0 : neat (set_isOpen false s)) by (revert T; neat_unread).
  match goal with |- neat (set__pendingRequests [] (fold_left _ _ ?x)) =>
    assert (T1 : neat x) end.
  { destruct (negb (resubscribe (set_isOpen false s))); trivial.
    match goal with |- neat (set__subscriptions [] ?x) =>
      assert (T1 : neat x) end.
    { apply fold_left_keeps; trivial. intros s' e T'.
      apply fold_left_keeps; trivial. intros s'' lu.
      apply run_unsubscribe_neat. }
    destruct T1 as [A B C]. constructor; simpl; trivial; constructor. }
  match goal with |- neat (set__pendingRequests [] ?x) =>
    assert (T2 : neat x); [|revert T2; neat_unread] end.
  apply fold_left_keeps; trivial. intros s' kp. apply settle_neat.
Qed.

Lemma step_neat (s : State) (e : Event) :
  wf s -> tidy s -> neat s -> neat (step s e).
Proof.
  intros W T N. destruct e; simpl.
  - now apply subscribe_neat.
  - unfold call_unsubscribe.
    destruct (nth_error (calls s) call) as [c|]; trivial.
    destruct (promise_state s (c_promise c)); trivial.
    now apply run_unsubscribe_neat.
  - revert N. apply neat_env, socket_open_env_view.
  - now apply socket_close_neat.
  - revert N. apply neat_env, static_env_view, socket_message_static.
  - revert N. apply neat_env, static_env_view, advance_static.
  - revert N. neat_unread.
Qed.

Lemma reachable_neat (resub : bool) (es : list Event) :
  neat (run (new resub) es).
Proof.
  assert (H : wf (run (new resub) es) /\ tidy (run (new resub) es) /\
              neat (run (new resub) es)).
  { unfold run.
    apply (fold_left_keeps (fun x => wf x /\ tidy x /\ neat x)).
    - intros s e [W [T N]]. split; [now apply step_wf|].
      split; [now apply step_tidy|now apply step_neat].
    - split; [apply new_wf|]. split; constructor; simpl; constructor. }
  tauto.
Qed.

(** X26: the table of entries holds an entry only while it has a
    listener: in every state the manager can reach, no key is in the
    table twice, every entry is filed under [stream:feed] of its own
    stream and feed, and every entry has at least one listener and none
    twice. *)
Theorem entries_have_listeners (resub : bool) (es : list Event) :
  let s := run (new resub) es in
  NoDup (map fst (_subscriptions s)) /\
  forall id sub,
    get String.eqb id (_subscriptions s) = Some sub ->
    id = subscription_id (stream sub) (feed sub) /\
    listeners sub <> [] /\ NoDup (map fst (listeners sub)).
Proof.
  cbv zeta. destruct (reachable_neat resub es) as [A B _].
  split; [exact A|]. intros id sub Hg.
  apply (get_In String.eqb String.eqb_eq) in Hg.
  rewrite Forall_forall in B. destruct (B _ Hg) as [H1 [H2 H3]]. auto.
Qed.


(** *** Unsubscribing twice *)

Lemma remove_listener_absent (type : string) (w : nat)
    (ls : list (string * Wrapper)) :
  ~ In w (map (fun tw => w_uid (snd tw)) ls) ->
  remove_listener type w ls = ls.
Proof.
  induction ls as [|[t w'] ls IH]; simpl; [reflexivity|]. intros H.
  replace (Nat.eqb w (w_uid w')) with false
    by (symmetry; apply Nat.eqb_neq; intros E; apply H; now left).
  rewrite andb_false_r, IH; [reflexivity|]. intros Hin. apply H. now right.
Qed.

Lemma remove_listener_twice (type : string) (w : nat)
    (ls : list (string * Wrapper)) :
  NoDup (map (fun tw => w_uid (snd tw)) ls) ->
  remove_listener type w (remove_listener type w ls) =
  remove_listener type w ls.
Proof.
  induction ls as [|[t w'] ls IH]; simpl; [reflexivity|]. intros H.
  inversion H as [|x y Hx Hy]; subst.
  destruct (String.eqb type t && Nat.eqb w (w_uid w')) eqn:E.
  - apply andb_prop in E. destruct E as [_ E]. apply Nat.eqb_eq in E.
    apply remove_listener_absent. simpl in Hx. now rewrite E.
  - simpl. rewrite E. now rewrite IH.
Qed.

Lemma set_evListeners_eta (s : State) : set_evListeners (evListeners s) s = s.
Proof. now destruct s. Qed.

Lemma run_unsubscribe_eq (u : Unsubscribe) (s : State) :
  run_unsubscribe u s =
  let evs :=
    remove_listener (u_stream u) (w_uid (u_wrapper u)) (evListeners s) in
  match get String.eqb (u_id u) (_subscriptions s) with
  | None => set_evListeners evs s
  | Some sub =>
      let ls := delete Nat.eqb (u_listener u) (listeners sub) in
      if Nat.eqb (List.length ls) 0 then
        let s1 :=
          set__subscriptions (delete String.eqb (u_id u) (_subscriptions s))
            (set_evListeners evs s) in
        if isOpen s then _sendUnsubscribe (u_stream u) (u_feed u) s1 else s1
      else
        set__subscriptions
          (modify String.eqb (u_id u) (set_listeners ls) (_subscriptions s))
          (set_evListeners evs s)
  end.
Proof.
  unfold run_unsubscribe, removeEventListener. simpl.
  destruct (get String.eqb (u_id u) (_subscriptions s)) as [sub|];
    [|reflexivity].
  destruct (Nat.eqb _ 0); [|reflexivity]. simpl.
  now rewrite (delete_modify_same String.eqb).
Qed.

Lemma run_unsubscribe_twice (u : Unsubscribe) (s : State) :
  neat s -> run_unsubscribe u (run_unsubscribe u s) = run_unsubscribe u s.
Proof.
  intros [A B C].
  pose proof (remove_listener_twice (u_stream u) (w_uid (u_wrapper u))
                (evListeners s) C) as Hrm.
  remember (run_unsubscribe u s) as r eqn:Hr.
  rewrite run_unsubscribe_eq in Hr. cbv zeta in Hr.
  rewrite run_unsubscribe_eq. cbv zeta.
  destruct (get String.eqb (u_id u) (_subscriptions s)) as [sub|] eqn:Hg.
  - assert (Hsub : entry_ok (u_id u) (entry_shape sub)).
    { apply (get_In String.eqb String.eqb_eq) in Hg.
      rewrite Forall_forall in B. exact (B _ Hg). }
    destruct Hsub as [_ [H2 _]].
    destruct (Nat.eqb
                (List.length (delete Nat.eqb (u_listener u) (listeners sub)))
                0) eqn:Hlen.
    + assert (Hgone : get String.eqb (u_id u)
                        (delete String.eqb (u_id u) (_subscriptions s)) =
                      None)
        by now apply (get_delete_same String.eqb String.eqb_eq).
      destruct (isOpen s).
      * rewrite sendUnsubscribe_eq in Hr. subst r. simpl.
        rewrite Hgone, Hrm. reflexivity.
      * subst r. simpl. rewrite Hgone, Hrm. reflexivity.
    + subst r. simpl.
      rewrite (get_modify_same String.eqb), Hg. simpl.
      assert (Hd : delete Nat.eqb (u_listener u)
                     (delete Nat.eqb (u_listener u) (listeners sub)) =
                   delete Nat.eqb (u_listener u) (listeners sub)).
      { apply (delete_absent Nat.eqb).
        now apply (get_delete_same Nat.eqb Nat.eqb_eq). }
      rewrite Hd, Hlen, Hrm.
      now rewrite (modify_modify String.eqb).
  - subst r. simpl. rewrite Hg, Hrm. reflexivity.
Qed.

(** X27: calling the [unsubscribe] of a handle twice is the same as
    calling it once: the second call finds neither the wrapper nor the
    listener, changes nothing and sends nothing. *)
Theorem unsubscribe_twice_is_unsubscribe_once (resub : bool)
    (es : list Event) (n : nat) :
  let s := run (new resub) es in
  call_unsubscribe n (call_unsubscribe n s) = call_unsubscribe n s.
Proof.
  cbv zeta. pose proof (reachable_neat resub es) as N.
  set (s := run (new resub) es) in *.
  unfold call_unsubscribe at 2.
  destruct (nth_error (calls s) n) as [c|] eqn:Hn.
  - destruct (promise_state s (c_promise c)) eqn:Hp.
    + unfold call_unsubscribe. now rewrite Hn, Hp.
    + assert (Hc : calls (run_unsubscribe (c_unsubscribe c) s) = calls s).
      { unfold run_unsubscribe.
        destruct (get String.eqb _ _); [|reflexivity].
        destruct (Nat.eqb _ 0); [|reflexivity]. simpl.
        destruct (isOpen s); reflexivity. }
      unfold call_unsubscribe. rewrite Hc, Hn.
      unfold promise_state, request_state in *.
      rewrite run_unsubscribe_promises, Hp.
      now apply run_unsubscribe_twice.
    + unfold call_unsubscribe. now rewrite Hn, Hp.
  - unfold call_unsubscribe. now rewrite Hn.
Qed.

(** *** The failure signal *)

Lemma never_same (s s' : State) :
  signal_view s' = signal_view s -> never_aborts s -> never_aborts s'.
Proof.
  unfold signal_view, never_aborts. intros H. injection H as -> -> ->. trivial.
Qed.

Lemma marks_keep_signal_view (st : Settled) (rs : list Reaction) (s : State) :
  forallb is_mark rs = true ->
  signal_view (fold_left (fun acc r => run_reaction st r acc) rs s) =
  signal_view s.
Proof.
  revert s. induction rs as [|r rs IH]; intros s H; [reflexivity|].
  simpl in H. apply andb_prop in H. destruct H as [Hr Hrs]. simpl.
  rewrite (IH _ Hrs). destruct r as [id|ctrl]; [|discriminate].
  simpl. destruct (get String.eqb id (_subscriptions s)); reflexivity.
Qed.

Lemma settle_never (p : nat) (st : Settled) (s : State) :
  never_aborts s -> never_aborts (settle p st s).
Proof.
  intros [Hr [Ha Hp]]. unfold settle.
  destruct (get Nat.eqb p (promises s)) as [[[] rs]|] eqn:Hg;
    try (now repeat split).
  assert (Hrs : forallb is_mark rs = true).
  { apply (get_In Nat.eqb Nat.eqb_eq) in Hg.
    rewrite Forall_forall in Hp. exact (Hp _ Hg). }
  apply (never_same
           (set_promises
              (set Nat.eqb p {| p_state := st; p_reactions := rs |}
                 (promises s)) s)).
  - now apply marks_keep_signal_view.
  - repeat split; trivial. simpl.
    now apply (Forall_set Nat.eqb).
Qed.

Lemma run_unsubscribe_signal_view (u : Unsubscribe) (s : State) :
  signal_view (run_unsubscribe u s) = signal_view s.
Proof.
  unfold run_unsubscribe.
  destruct (get String.eqb (u_id u) _) as [sub|]; [|reflexivity].
  destruct (Nat.eqb _ 0); [|reflexivity]. simpl.
  destruct (isOpen s); reflexivity.
Qed.

Lemma subscribe_signal_view (stream feed : string) (l : Listener)
    (s : State) :
  signal_view (subscribe stream feed l s) =
  (resubscribe s, aborted s,
   match get String.eqb (subscription_id stream feed) (_subscriptions s) with
   | Some _ => promises s
   | None =>
       modify Nat.eqb (uid s)
         (fun pr =>
            {| p_state := p_state pr;
               p_reactions :=
                 p_reactions pr ++
                 [FinallyMark (subscription_id stream feed)] |})
         (promises s ++ [(uid s, {| p_state := Pending; p_reactions := [] |})])
   end).
Proof.
  destruct (get String.eqb (subscription_id stream feed) (_subscriptions s))
    as [sub|] eqn:Hg.
  - destruct (get Nat.eqb l (listeners sub)) as [u|] eqn:Hl.
    + now rewrite (subscribe_joined_eq stream feed l s sub u Hg Hl).
    + now rewrite (subscribe_joined_new_eq stream feed l s sub Hg Hl).
  - unfold subscribe. rewrite Hg, sendSubscribe_eq. reflexivity.
Qed.

Lemma subscribe_never (stream feed : string) (l : Listener) (s : State) :
  never_aborts s -> never_aborts (subscribe stream feed l s).
Proof.
  intros [Hr [Ha Hp]]. pose proof (subscribe_signal_view stream feed l s) as H.
  unfold signal_view in H. injection H as H1 H2 H3.
  unfold never_aborts. rewrite H1, H2, H3. repeat split; trivial.
  destruct (get String.eqb (subscription_id stream feed) (_subscriptions s));
    trivial.
  apply (Forall_modify Nat.eqb Nat.eqb_eq).
  - apply Forall_app. split; trivial. constructor; [reflexivity|constructor].
  - intros v Hin Hv. simpl in *. rewrite forallb_app, Hv. reflexivity.
Qed.

Lemma socket_close_never (s : State) :
  never_aborts s -> never_aborts (socket_close s).
Proof.
  intros T. unfold socket_close, _handleClose.
  assert (T0 : never_aborts (set_isOpen false s))
    by (revert T; apply never_same; reflexivity).
  match goal with
  | |- never_aborts (set__pendingRequests [] (fold_left _ _ ?x)) =>
      assert (T1 : never_aborts x)
  end.
  { destruct (negb (resubscribe (set_isOpen false s))); trivial.
    match goal with |- never_aborts (set__subscriptions [] ?x) =>
      assert (T1 : never_aborts x);
        [|revert T1; apply never_same; reflexivity] end.
    apply fold_left_keeps; trivial. intros s' e T'.
    apply fold_left_keeps; trivial. intros s'' lu.
    apply never_same, run_unsubscribe_signal_view. }
  match goal with |- never_aborts (set__pendingRequests [] ?x) =>
    assert (T2 : never_aborts x);
      [|revert T2; apply never_same; reflexivity] end.
  apply fold_left_keeps; trivial. intros s' kp. apply settle_never.
Qed.

Lemma socket_message_never (data : option json) (s : State) :
  never_aborts s -> never_aborts (socket_message data s).
Proof.
  intros T. unfold socket_message.
  destruct (onMessage data) as [d|]; trivial.
  rewrite dispatchEvent_eq.
  apply (never_same (manager_listeners d s)); [reflexivity|].
  rewrite manager_listeners_same.
  destruct (manager_listeners_settles d (ev_detail d) s)
    as [Hs|[k [p [st [_ [_ Hs]]]]]]; rewrite Hs; trivial.
  apply (never_same (settle p st s)); [reflexivity|].
  now apply settle_never.
Qed.

Lemma advance_never (ms : N) (s : State) :
  never_aborts s -> never_aborts (advance ms s).
Proof.
  intros T. unfold advance. apply fold_left_keeps.
  - intros s' t T'. unfold timer_callback.
    destruct (has N.eqb (tm_requestId t) (_pendingRequests s')); trivial.
    apply settle_never. revert T'. apply never_same. reflexivity.
  - revert T. apply never_same. reflexivity.
Qed.

Lemma step_never (s : State) (e : Event) :
  keeps_off e = true -> never_aborts s -> never_aborts (step s e).
Proof.
  intros He T. destruct e; simpl.
  - now apply subscribe_never.
  - unfold call_unsubscribe.
    destruct (nth_error (calls s) call) as [c|]; trivial.
    destruct (promise_state s (c_promise c)); trivial.
    revert T. apply never_same, run_unsubscribe_signal_view.
  - destruct T as [Hr [Ha Hp]]. unfold socket_open, _handleOpen. simpl.
    rewrite Hr. now repeat split.
  - now apply socket_close_never.
  - now apply socket_message_never.
  - now apply advance_never.
  - destruct value; [discriminate|]. destruct T as [Hr [Ha Hp]].
    now repeat split.
Qed.

(** X28: the failure signal of a handle is aborted only by the
    rejection of a re-subscription.  As long as [resubscribe] is off no
    failure signal is ever aborted, whatever fails: a request that is
    rejected or times out, the socket closing. *)
Theorem no_failure_signal_without_resubscribe (es : list Event) :
  forallb keeps_off es = true ->
  aborted (run (new false) es) = [].
Proof.
  intros H.
  assert (T : never_aborts (run (new false) es)).
  { assert (T0 : never_aborts (new false))
      by (repeat split; constructor).
    revert T0. generalize (new false). unfold run.
    induction es as [|e es IH]; intros s T0; [exact T0|].
    simpl in H. apply andb_prop in H. destruct H as [He Hes]. simpl.
    apply IH; trivial. now apply step_never. }
  now destruct T as [_ [Ha _]].
Qed.

Lemma no_failure_signal_without_resubscribe_witness :
  aborted
    (run (new false)
       [EOpen; ESubscribe "ticker.s" "BTC_USDT_Perp@500" 0;
        EMessage (Some (ticker_ack 1)); EClose; EOpen]) = [].
Proof.
  apply no_failure_signal_without_resubscribe. reflexivity.
Defined.

End ManagerFacts.
